(** * HydroEdit: the editing-state engine of [hydroedit.py]

    A shallow embedding of the document model, the command/history engine,
    the soft-wrap display mapping, the search/replace functions, the scroll
    adjustment, the syntax highlighting, the file text and the word
    boundaries of [src/hydroedit.py], followed by the properties
    established about them.

    Conventions of the embedding.
    - A Python [str] is a [list ascii]; a character is an 8-bit code point
      (the Latin-1 range of Python's [str]), and [isspace], [isalnum] and
      [lower] follow Python on that range.
    - A Python [int] is a [Z]; [len] returns a [Z].
    - Subscripting follows Python: a negative index counts from the end and
      an index out of range raises [IndexError].  A raised exception is the
      result [None]; a function that may raise returns an [option].
    - Slices never raise; their bounds are clipped as Python clips them. *)

From Stdlib Require Import ZArith Lia Ascii String.
From stdpp Require Import base tactics option list.

Local Open Scope Z_scope.

(** ** Python primitives *)

Abbreviation pystr := (list ascii).

Definition py (s : string) : pystr := list_ascii_of_string s.

Definition len {A} (l : list A) : Z := Z.of_nat (length l).

Definition ord (c : ascii) : Z := Z.of_nat (nat_of_ascii c).

Definition chr_eqb (a b : ascii) : bool := Ascii.eqb a b.

Fixpoint str_eqb (a b : pystr) : bool :=
  match a, b with
  | [], [] => true
  | x :: a', y :: b' => chr_eqb x y && str_eqb a' b'
  | _, _ => false
  end.

(** [str.isspace] on one character. *)
Definition isspace (c : ascii) : bool :=
  let n := ord c in
  ((9 <=? n) && (n <=? 13)) || ((28 <=? n) && (n <=? 32))
  || (n =? 133) || (n =? 160).

(** [str.isalnum] on one character. *)
Definition isalnum (c : ascii) : bool :=
  let n := ord c in
  ((48 <=? n) && (n <=? 57)) || ((65 <=? n) && (n <=? 90))
  || ((97 <=? n) && (n <=? 122))
  || (n =? 170) || (n =? 178) || (n =? 179) || (n =? 181) || (n =? 185)
  || (n =? 186) || ((188 <=? n) && (n <=? 190))
  || ((192 <=? n) && (n <=? 214)) || ((216 <=? n) && (n <=? 246))
  || ((248 <=? n) && (n <=? 255)).

(** [str.lower] on one character, and on a string. *)
Definition lower_chr (c : ascii) : ascii :=
  let n := ord c in
  if ((65 <=? n) && (n <=? 90))
     || ((192 <=? n) && (n <=? 222) && negb (n =? 215))
  then ascii_of_nat (Z.to_nat (n + 32)) else c.

Definition lower (s : pystr) : pystr := map lower_chr s.

(** The position a slice bound [i] denotes in [l]: [l[:i]] and [l[i:]]. *)
Definition slice_index {A} (l : list A) (i : Z) : nat :=
  if i <? 0 then Z.to_nat (Z.max 0 (len l + i)) else Z.to_nat i.

Definition slice_to {A} (l : list A) (i : Z) : list A :=
  take (slice_index l i) l.

Definition slice_from {A} (l : list A) (i : Z) : list A :=
  drop (slice_index l i) l.

(** The position a subscript [i] denotes in [l], [None] for [IndexError]. *)
Definition subscript {A} (l : list A) (i : Z) : option nat :=
  if (0 <=? i) && (i <? len l) then Some (Z.to_nat i)
  else if (- len l <=? i) && (i <? 0) then Some (Z.to_nat (len l + i))
  else None.

(** [l[i]], [l[i] = v], [del l[i]] and [l.insert(i, v)]. *)
Definition getitem {A} (l : list A) (i : Z) : option A :=
  n ← subscript l i; l !! n.

Definition setitem {A} (l : list A) (i : Z) (v : A) : option (list A) :=
  n ← subscript l i; Some (<[n:=v]> l).

Definition delitem {A} (l : list A) (i : Z) : option (list A) :=
  n ← subscript l i; Some (delete n l).

Definition list_insert_at {A} (l : list A) (i : Z) (v : A) : list A :=
  take (slice_index l i) l ++ v :: drop (slice_index l i) l.

(** [s.lstrip()], [s.rstrip()] and [s.strip()]. *)
Fixpoint lstrip (s : pystr) : pystr :=
  match s with
  | [] => []
  | c :: s' => if isspace c then lstrip s' else s
  end.

Definition rstrip (s : pystr) : pystr := rev (lstrip (rev s)).

Definition strip (s : pystr) : pystr := rstrip (lstrip s).

(** The number of leading whitespace characters:
    [len(line) - len(line.lstrip())]. *)
Definition indent_of (line : pystr) : Z := len line - len (lstrip line).

(** [s.startswith(p)]. *)
Fixpoint startswith (s p : pystr) : bool :=
  match p, s with
  | [], _ => true
  | _ :: _, [] => false
  | a :: p', b :: s' => chr_eqb a b && startswith s' p'
  end.

(** [' ' * n]; a count below one gives the empty string. *)
Definition spaces (n : Z) : pystr := replicate (Z.to_nat n) " "%char.

(** [s.split()]: the maximal runs of non-whitespace characters, in order.
    [cur] is the run being read. *)
Fixpoint split_from (cur : pystr) (s : pystr) : list pystr :=
  match s with
  | [] => match cur with [] => [] | _ => [cur] end
  | c :: s' =>
      if isspace c
      then match cur with
           | [] => split_from [] s'
           | _ => cur :: split_from [] s'
           end
      else split_from (cur ++ [c]) s'
  end.

Definition split (s : pystr) : list pystr := split_from [] s.

(** [' '.join(ws)]. *)
Fixpoint join (ws : list pystr) : pystr :=
  match ws with
  | [] => []
  | [w] => w
  | w :: ws' => w ++ " "%char :: join ws'
  end.

(** [s.find(p, x)] for [0 <= x]: the least position at or after [x] where
    [p] occurs in [s], or [-1].  [find_from] scans [s] from its head, which
    sits at position [pos]. *)
Fixpoint find_from (p s : pystr) (pos : Z) : Z :=
  if startswith s p then pos
  else match s with
       | [] => -1
       | _ :: s' => find_from p s' (pos + 1)
       end.

Definition find (s p : pystr) (x : Z) : Z :=
  let k := slice_index s x in
  if (length s <? k)%nat then -1 else find_from p (drop k s) (Z.of_nat k).

(** [s.replace(old, new)]: the non-overlapping occurrences of [old], taken
    left to right, become [new]; an empty [old] matches before every
    character and at the end.  [skip] counts the characters of the current
    occurrence still to pass over. *)
Fixpoint replace_scan (old new : pystr) (skip : nat) (s : pystr) : pystr :=
  match s with
  | [] => []
  | c :: s' =>
      match skip with
      | S k => replace_scan old new k s'
      | O => if startswith s old
             then new ++ replace_scan old new (length old - 1) s'
             else c :: replace_scan old new 0 s'
      end
  end.

Definition replace (s old new : pystr) : pystr :=
  match old with
  | [] => new ++ flat_map (fun c => c :: new) s
  | _ => replace_scan old new 0 s
  end.

(** ** Document model: [EditorState] *)

Record EditorState := {
  content : list pystr;
  cursor_y : Z;
  cursor_x : Z;
  scroll_y : Z;
  cutbuf : pystr;
  selection_start : option (Z * Z);
  selection_end : option (Z * Z);
  insert_mode : bool;
  is_modified : bool;
  filepath : pystr;
  language : option pystr;
  message : pystr;
  shift_pressed : bool
}.

Definition set_content (s : EditorState) (c : list pystr) : EditorState :=
  {| content := c; cursor_y := cursor_y s; cursor_x := cursor_x s;
     scroll_y := scroll_y s; cutbuf := cutbuf s;
     selection_start := selection_start s; selection_end := selection_end s;
     insert_mode := insert_mode s; is_modified := is_modified s;
     filepath := filepath s; language := language s; message := message s;
     shift_pressed := shift_pressed s |}.

Definition set_cursor_y (s : EditorState) (y : Z) : EditorState :=
  {| content := content s; cursor_y := y; cursor_x := cursor_x s;
     scroll_y := scroll_y s; cutbuf := cutbuf s;
     selection_start := selection_start s; selection_end := selection_end s;
     insert_mode := insert_mode s; is_modified := is_modified s;
     filepath := filepath s; language := language s; message := message s;
     shift_pressed := shift_pressed s |}.

Definition set_cursor_x (s : EditorState) (x : Z) : EditorState :=
  {| content := content s; cursor_y := cursor_y s; cursor_x := x;
     scroll_y := scroll_y s; cutbuf := cutbuf s;
     selection_start := selection_start s; selection_end := selection_end s;
     insert_mode := insert_mode s; is_modified := is_modified s;
     filepath := filepath s; language := language s; message := message s;
     shift_pressed := shift_pressed s |}.

Definition set_selection (s : EditorState) (a b : option (Z * Z))
  : EditorState :=
  {| content := content s; cursor_y := cursor_y s; cursor_x := cursor_x s;
     scroll_y := scroll_y s; cutbuf := cutbuf s;
     selection_start := a; selection_end := b;
     insert_mode := insert_mode s; is_modified := is_modified s;
     filepath := filepath s; language := language s; message := message s;
     shift_pressed := shift_pressed s |}.

Definition set_is_modified (s : EditorState) (m : bool) : EditorState :=
  {| content := content s; cursor_y := cursor_y s; cursor_x := cursor_x s;
     scroll_y := scroll_y s; cutbuf := cutbuf s;
     selection_start := selection_start s; selection_end := selection_end s;
     insert_mode := insert_mode s; is_modified := m;
     filepath := filepath s; language := language s; message := message s;
     shift_pressed := shift_pressed s |}.

(** [EditorState.update_selection] and [EditorState.clear_selection]. *)
Definition update_selection (s : EditorState) : EditorState :=
  let here := Some (cursor_y s, cursor_x s) in
  match selection_start s with
  | None => set_selection s here here
  | Some a => set_selection s (Some a) here
  end.

Definition clear_selection (s : EditorState) : EditorState :=
  set_selection s None None.

(** [EditorState.ensure_valid_cursor_position]. *)
Definition ensure_valid_cursor_position (s : EditorState)
  : option EditorState :=
  let y := Z.max 0 (Z.min (cursor_y s) (len (content s) - 1)) in
  line ← getitem (content s) y;
  Some (set_cursor_x (set_cursor_y s y)
          (Z.max 0 (Z.min (cursor_x s) (len line)))).

(** The invariant of the document: at least one line, no line holds a line
    feed, and the cursor lies on a line and within it. *)
Definition no_newline (line : pystr) : Prop := ~ In "010"%char line.

Record valid_state (s : EditorState) : Prop := {
  valid_row : 0 <= cursor_y s < len (content s);
  valid_col : exists line, content s !! Z.to_nat (cursor_y s) = Some line
                           /\ 0 <= cursor_x s <= len line;
  valid_lines : Forall no_newline (content s)
}.

(** ** Commands *)

(** A command object with the fields its [__init__] sets and its [execute]
    overwrites. *)
Inductive Command :=
| MoveCommand (direction : pystr) (amount : Z) (old_y old_x : Z)
| InsertCommand (char : pystr) (old_y old_x : Z)
| BackspaceCommand (old_y old_x : Z) (deleted_char : pystr)
| DeleteCommand (old_y old_x : Z) (deleted_char : pystr)
| EnterCommand (old_y old_x : Z)
| ReplaceCommand (pattern replacement : pystr) (case_sensitive : bool)
                 (old_content : list pystr)
| FormatCommand (old_content : list pystr).

(** The constructors as [__init__] leaves a new object. *)
Definition new_MoveCommand (direction : pystr) (amount : Z) : Command :=
  MoveCommand direction amount 0 0.
Definition new_InsertCommand (char : pystr) : Command :=
  InsertCommand char 0 0.
Definition new_BackspaceCommand : Command := BackspaceCommand 0 0 [].
Definition new_DeleteCommand : Command := DeleteCommand 0 0 [].
Definition new_EnterCommand : Command := EnterCommand 0 0.
Definition new_ReplaceCommand (pattern replacement : pystr)
  (case_sensitive : bool) : Command :=
  ReplaceCommand pattern replacement case_sensitive [].
Definition new_FormatCommand : Command := FormatCommand [].

Definition MAX_UNDO : nat := 100.

(** The one-character string ["\n"]. *)
Definition LF : pystr := ["010"%char].

(** [replace_text]. *)
Definition replace_text (content : list pystr) (pattern replacement : pystr)
  (case_sensitive : bool) : list pystr :=
  let pattern := if case_sensitive then pattern else lower pattern in
  let content := if case_sensitive then content else map lower content in
  map (fun line => replace line pattern replacement) content.

(** ['\n'.join(content)] and [s.splitlines()]. *)
Fixpoint join_lines (ls : list pystr) : pystr :=
  match ls with
  | [] => []
  | [l] => l
  | l :: ls' => l ++ "010"%char :: join_lines ls'
  end.

Definition is_linebreak (c : ascii) : bool :=
  let n := ord c in
  ((10 <=? n) && (n <=? 13)) || ((28 <=? n) && (n <=? 30)) || (n =? 133).

Fixpoint splitlines_from (cur : pystr) (s : pystr) : list pystr :=
  match s with
  | [] => match cur with [] => [] | _ => [cur] end
  | c :: s' =>
      if is_linebreak c
      then cur :: match s' with
                  | d :: s'' =>
                      if chr_eqb c "013"%char && chr_eqb d "010"%char
                      then splitlines_from [] s''
                      else splitlines_from [] s'
                  | [] => []
                  end
      else splitlines_from (cur ++ [c]) s'
  end.

Definition splitlines (s : pystr) : list pystr := splitlines_from [] s.

Section Engine.

(** The external formatters: [autopep8.fix_code] and [jsbeautifier.beautify]
    with its default options, each [None] when its import fails. *)
Variable autopep8_fix_code : option (pystr -> pystr).
Variable jsbeautifier_beautify : option (pystr -> pystr).

(** [format_code]. *)
Definition format_code (content : list pystr) (language : option pystr)
  : list pystr :=
  match language with
  | Some l =>
      if str_eqb l (py "python")
      then match autopep8_fix_code with
           | Some fix_code => splitlines (fix_code (join_lines content))
           | None => content
           end
      else if str_eqb l (py "javascript")
      then match jsbeautifier_beautify with
           | Some beautify => splitlines (beautify (join_lines content))
           | None => content
           end
      else content
  | None => content
  end.

(** [Command.execute]: the command with its recorded fields and the new
    state. *)
Definition execute (c : Command) (s : EditorState)
  : option (Command * EditorState) :=
  match c with
  | MoveCommand direction amount _ _ =>
      let c' := MoveCommand direction amount (cursor_y s) (cursor_x s) in
      s1 ← (if str_eqb direction (py "up")
            then Some (set_cursor_y s (Z.max 0 (cursor_y s - amount)))
            else if str_eqb direction (py "down")
            then Some (set_cursor_y s
                         (Z.min (len (content s) - 1) (cursor_y s + amount)))
            else if str_eqb direction (py "left")
            then Some (set_cursor_x s (Z.max 0 (cursor_x s - amount)))
            else if str_eqb direction (py "right")
            then line ← getitem (content s) (cursor_y s);
                 Some (set_cursor_x s (Z.min (len line) (cursor_x s + amount)))
            else Some s);
      line ← getitem (content s1) (cursor_y s1);
      let s2 := set_cursor_x s1 (Z.min (cursor_x s1) (len line)) in
      Some (c', if shift_pressed s2 then update_selection s2
                else clear_selection s2)
  | InsertCommand char _ _ =>
      let c' := InsertCommand char (cursor_y s) (cursor_x s) in
      let x := cursor_x s in
      line ← getitem (content s) (cursor_y s);
      let new_line :=
        if insert_mode s
        then slice_to line x ++ char ++ slice_from line x
        else if x <? len line
             then slice_to line x ++ char ++ slice_from line (x + 1)
             else slice_to line x ++ char in
      content' ← setitem (content s) (cursor_y s) new_line;
      Some (c', clear_selection
                  (set_is_modified
                     (set_cursor_x (set_content s content') (x + 1)) true))
  | BackspaceCommand _ _ deleted_char =>
      let y := cursor_y s in
      let x := cursor_x s in
      r ← (if 0 <? x
           then line ← getitem (content s) y;
                d ← getitem line (x - 1);
                content' ← setitem (content s) y
                             (slice_to line (x - 1) ++ slice_from line x);
                Some ([d], set_cursor_x (set_content s content') (x - 1))
           else if 0 <? y
           then prev ← getitem (content s) (y - 1);
                cur ← getitem (content s) y;
                content1 ← setitem (content s) (y - 1) (prev ++ cur);
                content2 ← delitem content1 y;
                Some (LF, set_cursor_y (set_content (set_cursor_x s (len prev)) content2)
                     (y - 1))
           else Some (deleted_char, s));
      Some (BackspaceCommand y x r.1,
            clear_selection (set_is_modified r.2 true))
  | DeleteCommand _ _ deleted_char =>
      let y := cursor_y s in
      let x := cursor_x s in
      line ← getitem (content s) y;
      r ← (if x <? len line
           then d ← getitem line x;
                content' ← setitem (content s) y
                             (slice_to line x ++ slice_from line (x + 1));
                Some ([d], set_content s content')
           else if y <? len (content s) - 1
           then next ← getitem (content s) (y + 1);
                content1 ← setitem (content s) y (line ++ next);
                content2 ← delitem content1 (y + 1);
                Some (LF, set_content s content2)
           else Some (deleted_char, s));
      Some (DeleteCommand y x r.1,
            clear_selection (set_is_modified r.2 true))
  | EnterCommand _ _ =>
      let y := cursor_y s in
      let x := cursor_x s in
      line ← getitem (content s) y;
      let indent := indent_of line in
      let new_line := spaces indent ++ slice_from line x in
      content1 ← setitem (content s) y (slice_to line x);
      let content2 := list_insert_at content1 (y + 1) new_line in
      Some (EnterCommand y x,
            clear_selection
              (set_is_modified
                 (set_cursor_x (set_cursor_y (set_content s content2) (y + 1))
                    indent) true))
  | ReplaceCommand pattern replacement case_sensitive _ =>
      Some (ReplaceCommand pattern replacement case_sensitive (content s),
            set_is_modified
              (set_content s
                 (replace_text (content s) pattern replacement case_sensitive))
              true)
  | FormatCommand _ =>
      Some (FormatCommand (content s),
            set_is_modified
              (set_content s (format_code (content s) (language s))) true)
  end.

(** [Command.undo]. *)
Definition undo_command (c : Command) (s : EditorState)
  : option EditorState :=
  match c with
  | MoveCommand _ _ old_y old_x =>
      Some (set_cursor_x (set_cursor_y s old_y) old_x)
  | InsertCommand _ old_y old_x =>
      line ← getitem (content s) (cursor_y s);
      content' ← setitem (content s) (cursor_y s)
                   (slice_to line (cursor_x s - 1)
                    ++ slice_from line (cursor_x s));
      Some (set_cursor_x (set_cursor_y (set_content s content') old_y) old_x)
  | BackspaceCommand _ _ deleted_char =>
      line ← getitem (content s) (cursor_y s);
      if str_eqb deleted_char LF
      then content' ← setitem (content s) (cursor_y s)
                        (slice_to line (cursor_x s) ++ LF
                         ++ slice_from line (cursor_x s));
           Some (set_cursor_x
                   (set_cursor_y (set_content s content') (cursor_y s + 1)) 0)
      else content' ← setitem (content s) (cursor_y s)
                        (slice_to line (cursor_x s) ++ deleted_char
                         ++ slice_from line (cursor_x s));
           Some (set_cursor_x (set_content s content') (cursor_x s + 1))
  | DeleteCommand _ _ deleted_char =>
      line ← getitem (content s) (cursor_y s);
      if str_eqb deleted_char LF
      then content' ← setitem (content s) (cursor_y s)
                        (slice_to line (cursor_x s) ++ LF
                         ++ slice_from line (cursor_x s));
           Some (set_cursor_x
                   (set_cursor_y (set_content s content') (cursor_y s + 1)) 0)
      else content' ← setitem (content s) (cursor_y s)
                        (slice_to line (cursor_x s) ++ deleted_char
                         ++ slice_from line (cursor_x s));
           Some (set_content s content')
  | EnterCommand old_y old_x =>
      prev ← getitem (content s) (cursor_y s - 1);
      cur ← getitem (content s) (cursor_y s);
      content1 ← setitem (content s) (cursor_y s - 1) (prev ++ cur);
      content2 ← delitem content1 (cursor_y s);
      Some (set_cursor_x (set_cursor_y (set_content s content2) old_y) old_x)
  | ReplaceCommand _ _ _ old_content => Some (set_content s old_content)
  | FormatCommand old_content => Some (set_content s old_content)
  end.

(** ** History: [CommandHandler] *)

(** The two stacks are [deque(maxlen=MAX_UNDO)].  A deque is a list with its
    right end, where [append] and [pop] work, at the head. *)
Record CommandHandler := {
  undo_stack : list Command;
  redo_stack : list Command
}.

Definition new_CommandHandler : CommandHandler :=
  {| undo_stack := []; redo_stack := [] |}.

(** [deque.append] on a deque of maximal length [MAX_UNDO]: a full deque
    drops the item at its left end. *)
Definition deque_append (c : Command) (d : list Command) : list Command :=
  take MAX_UNDO (c :: d).

(** [CommandHandler.execute_command]. *)
Definition execute_command (c : Command) (hs : CommandHandler * EditorState)
  : option (CommandHandler * EditorState) :=
  r ← execute c hs.2;
  Some ({| undo_stack := deque_append r.1 (undo_stack hs.1);
           redo_stack := [] |}, r.2).

(** [CommandHandler.undo]. *)
Definition undo (hs : CommandHandler * EditorState)
  : option (CommandHandler * EditorState) :=
  match undo_stack hs.1 with
  | [] => Some hs
  | c :: rest =>
      s' ← undo_command c hs.2;
      Some ({| undo_stack := rest;
               redo_stack := deque_append c (redo_stack hs.1) |}, s')
  end.

(** [CommandHandler.redo]. *)
Definition redo (hs : CommandHandler * EditorState)
  : option (CommandHandler * EditorState) :=
  match redo_stack hs.1 with
  | [] => Some hs
  | c :: rest =>
      r ← execute c hs.2;
      Some ({| undo_stack := deque_append r.1 (undo_stack hs.1);
               redo_stack := rest |}, r.2)
  end.

End Engine.

(** ** Search: [SearchState] and [search_text] *)

Module Search.

Record SearchState := {
  pattern : pystr;
  case_sensitive : bool;
  whole_word : bool;
  regex : bool;
  current_match : Z;
  matches : list (Z * Z);
  search_active : bool;
  search_in_selection : bool;
  incremental : bool;
  scroll_y : Z;
  last_search : pystr;
  search_history : list pystr;
  history_index : Z
}.

(** The state the dataclass defaults give. *)
Definition new_SearchState : SearchState :=
  {| pattern := []; case_sensitive := true; whole_word := false;
     regex := false; current_match := -1; matches := [];
     search_active := false; search_in_selection := false;
     incremental := true; scroll_y := 0; last_search := [];
     search_history := []; history_index := -1 |}.

Definition set_history (s : SearchState) (last : pystr) (h : list pystr)
  (i : Z) : SearchState :=
  {| pattern := pattern s; case_sensitive := case_sensitive s;
     whole_word := whole_word s; regex := regex s;
     current_match := current_match s; matches := matches s;
     search_active := search_active s;
     search_in_selection := search_in_selection s;
     incremental := incremental s; scroll_y := scroll_y s;
     last_search := last; search_history := h; history_index := i |}.

(** [SearchState.add_to_history]. *)
Definition add_to_history (s : SearchState) (p : pystr) : SearchState :=
  match p with
  | [] => s
  | _ =>
      if negb (str_eqb p (last_search s))
      then let h := search_history s ++ [p] in set_history s p h (len h - 1)
      else s
  end.

(** [SearchState.get_previous_search] and [SearchState.get_next_search]:
    the state the call leaves and what it returns; the outer [None] is an
    [IndexError] raised by the subscript, after the index was moved. *)
Definition get_previous_search (s : SearchState)
  : SearchState * option (option pystr) :=
  if 0 <? history_index s
  then let s' := set_history s (last_search s) (search_history s)
                   (history_index s - 1) in
       (s', Some <$> getitem (search_history s') (history_index s'))
  else (s, Some None).

Definition get_next_search (s : SearchState)
  : SearchState * option (option pystr) :=
  if history_index s <? len (search_history s) - 1
  then let s' := set_history s (last_search s) (search_history s)
                   (history_index s + 1) in
       (s', Some <$> getitem (search_history s') (history_index s'))
  else (s, Some None).

End Search.

(** [range(a, b)]. *)
Definition range (a b : Z) : list Z :=
  map (fun i : nat => a + Z.of_nat i) (seq 0 (Z.to_nat (b - a))).

(** The whole-word test of [search_text] on a match spanning [[a, b)]. *)
Definition whole_word_at (line : pystr) (a b : Z) : option bool :=
  before ← (if a =? 0 then Some true
            else c ← getitem line (a - 1); Some (negb (isalnum c)));
  if before : bool
  then (if b =? len line then Some true
        else c ← getitem line b; Some (negb (isalnum c)))
  else Some false.

(** The literal scan of one row: the [while True] loop of [search_text].
    Each turn moves [x] past a found start, so [length line + 2] turns
    reach the [break]; running out of them is the result [None]. *)
Fixpoint scan_literal (turns : nat) (line pattern : pystr)
  (whole_word : bool) (y x : Z) : option (list (Z * Z)) :=
  match turns with
  | O => None
  | S turns' =>
      let x := find line pattern x in
      if x =? -1 then Some []
      else
        here ← (if whole_word
                then ok ← whole_word_at line x (x + len pattern);
                     Some (if ok : bool then [(y, x)] else [])
                else Some [(y, x)]);
        rest ← scan_literal turns' line pattern whole_word y (x + 1);
        Some (here ++ rest)
  end.

(** What [re.compile] does with a pattern: it returns the compiled
    pattern, it raises [re.error], or it raises an exception that is not an
    [re.error], as CPython does with [OverflowError] for a repeat count
    that is too large and with [RecursionError] for a nesting that is too
    deep. *)
Inductive compile_result (regex_t : Type) : Type :=
  | Compiled (r : regex_t)
  | ReError
  | OtherError.

Arguments Compiled {regex_t} r.
Arguments ReError {regex_t}.
Arguments OtherError {regex_t}.

Section Regex.

(** Python's [re]: compiled patterns, [re.compile(pattern)] or, with the
    flag set, [re.compile(pattern, re.IGNORECASE)]; and the spans of
    [pattern.finditer(line)]. *)
Variable regex_t : Type.
Variable re_compile : pystr -> bool -> compile_result regex_t.
Variable re_finditer : regex_t -> pystr -> list (Z * Z).

(** The regular-expression scan of one row. *)
Fixpoint scan_regex (spans : list (Z * Z)) (line : pystr)
  (whole_word : bool) (y : Z) : option (list (Z * Z)) :=
  match spans with
  | [] => Some []
  | (a, b) :: spans' =>
      here ← (if whole_word
              then ok ← whole_word_at line a b;
                   Some (if ok : bool then [(y, a)] else [])
              else Some [(y, a)]);
      rest ← scan_regex spans' line whole_word y;
      Some (here ++ rest)
  end.

(** The loop of [search_text] over the rows [ys]. *)
Fixpoint scan_rows (scan : pystr -> Z -> option (list (Z * Z)))
  (content : list pystr) (ys : list Z) : option (list (Z * Z)) :=
  match ys with
  | [] => Some []
  | y :: ys' =>
      line ← getitem content y;
      here ← scan line y;
      rest ← scan_rows scan content ys';
      Some (here ++ rest)
  end.

(** [search_text]; [None] is an exception that leaves the function: the
    [except] clause catches [re.error] and nothing else. *)
Definition search_text (content : list pystr) (pattern : pystr)
  (start_y start_x : Z) (case_sensitive whole_word regex : bool)
  (search_in_selection : bool) (selection_start selection_end : option (Z * Z))
  : option (list (Z * Z)) :=
  match pattern with
  | [] => Some []
  | _ =>
      let rows (content : list pystr) :=
        match search_in_selection, selection_start, selection_end with
        | true, Some a, Some b => range (Z.min a.1 b.1) (Z.max a.1 b.1)
        | _, _, _ => range 0 (len content)
        end in
      if regex
      then match re_compile pattern (negb case_sensitive) with
           | ReError => Some []
           | OtherError => None
           | Compiled r =>
               scan_rows
                 (fun line y =>
                    scan_regex (re_finditer r line) line whole_word y)
                 content (rows content)
           end
      else
        let pattern := if case_sensitive then pattern else lower pattern in
        let content :=
          if case_sensitive then content else map lower content in
        scan_rows
          (fun line y =>
             scan_literal (length line + 2) line pattern whole_word y 0)
          content (rows content)
  end.

End Regex.

(** ** Display mapping: [wrap_line] and the two index translations *)

Definition WRAP_CACHE_SIZE : Z := 1000.

(** [WRAP_CACHE]: a [dict] from [(line, width)] to the wrapped lines.  A
    Python [dict] keeps its keys in insertion order, which the eviction
    relies on, so it is an association list, oldest key first. *)
Definition wrap_cache := list ((pystr * Z) * list pystr).

Definition key_eqb (a b : pystr * Z) : bool :=
  str_eqb a.1 b.1 && (a.2 =? b.2).

(** [d[k]] when [k in d], and [d[k] = v]. *)
Fixpoint dict_get (d : wrap_cache) (k : pystr * Z) : option (list pystr) :=
  match d with
  | [] => None
  | (k', v) :: d' => if key_eqb k k' then Some v else dict_get d' k
  end.

Fixpoint dict_set (d : wrap_cache) (k : pystr * Z) (v : list pystr)
  : wrap_cache :=
  match d with
  | [] => [(k, v)]
  | (k', v') :: d' =>
      if key_eqb k k' then (k', v) :: d' else (k', v') :: dict_set d' k v
  end.

(** [break_long_word]: the [for char in word] loop, then the function. *)
Fixpoint break_chars (max_width : Z) (parts : list pystr) (current : pystr)
  (word : pystr) : list pystr :=
  match word with
  | [] => match current with [] => parts | _ => parts ++ [current] end
  | c :: word' =>
      if len current + 1 >? max_width
      then break_chars max_width (parts ++ [current]) [c] word'
      else break_chars max_width parts (current ++ [c]) word'
  end.

Definition break_long_word (word : pystr) (max_width : Z) : list pystr :=
  if len word <=? max_width then [word]
  else break_chars max_width [] [] word.

(** The variables of the [for word in words] loop of [wrap_line]. *)
Record wrap_acc := {
  wrapped : list pystr;
  current_line : list pystr;
  current_length : Z
}.

Definition nonempty {A} (l : list A) : bool :=
  match l with [] => false | _ => true end.

(** One turn of the loop. *)
Definition wrap_word (indent_str : pystr) (max_content_width : Z)
  (acc : wrap_acc) (word : pystr) : wrap_acc :=
  if len word >? max_content_width
  then
    let acc1 :=
      if nonempty (current_line acc)
      then {| wrapped := wrapped acc
                         ++ [indent_str ++ join (current_line acc)];
              current_line := []; current_length := 0 |}
      else acc in
    {| wrapped := wrapped acc1
                  ++ map (fun part => indent_str ++ part)
                       (break_long_word word max_content_width);
       current_line := current_line acc1;
       current_length := current_length acc1 |}
  else if current_length acc + len word
          + (if nonempty (current_line acc) then 1 else 0)
          >? max_content_width
  then {| wrapped := wrapped acc ++ [indent_str ++ join (current_line acc)];
          current_line := [word]; current_length := len word |}
  else
    let current_line' := current_line acc ++ [word] in
    {| wrapped := wrapped acc; current_line := current_line';
       current_length := current_length acc + len word
                         + (if nonempty current_line' then 1 else 0) |}.

(** What [wrap_line] computes when the cache does not hold the key. *)
Definition wrap_compute (line : pystr) (width : Z) : list pystr :=
  if len line <=? width then [line]
  else
    let indent := indent_of line in
    let indent_str := spaces indent in
    if negb (nonempty (strip line)) then [line]
    else
      let text := slice_from line indent in
      let words := split text in
      if negb (nonempty words) then [line]
      else
        let max_content_width := width - indent in
        let acc :=
          fold_left (wrap_word indent_str max_content_width) words
            {| wrapped := []; current_line := []; current_length := 0 |} in
        if nonempty (current_line acc)
        then wrapped acc ++ [indent_str ++ join (current_line acc)]
        else wrapped acc.

(** [wrap_line]: the result and the cache the call leaves. *)
Definition wrap_line (cache : wrap_cache) (line : pystr) (width : Z)
  : list pystr * wrap_cache :=
  let cache_key := (line, width) in
  match dict_get cache cache_key with
  | Some result => (result, cache)
  | None =>
      let result := wrap_compute line width in
      let cache1 :=
        if len cache >=? WRAP_CACHE_SIZE then tail cache else cache in
      (result, dict_set cache1 cache_key result)
  end.

(** [get_display_line_index]: the loop over [range(cursor_y)], then the
    function. *)
Fixpoint sum_wrapped (cache : wrap_cache) (content : list pystr)
  (text_width : Z) (rows : list Z) (display_index : Z)
  : option (Z * wrap_cache) :=
  match rows with
  | [] => Some (display_index, cache)
  | i :: rows' =>
      line ← getitem content i;
      let r := wrap_line cache line text_width in
      sum_wrapped r.2 content text_width rows' (display_index + len r.1)
  end.

Definition get_display_line_index (cache : wrap_cache) (content : list pystr)
  (cursor_y text_width : Z) : option (Z * wrap_cache) :=
  sum_wrapped cache content text_width (range 0 cursor_y) 0.

(** The loop of [get_content_line_index] that builds [content_line_map]. *)
Fixpoint content_line_map (display_lines : list pystr)
  (current_content_line : Z) : list Z :=
  match display_lines with
  | [] => []
  | line :: rest =>
      current_content_line ::
      content_line_map rest
        (if negb (startswith line (spaces (indent_of line)))
         then current_content_line + 1 else current_content_line)
  end.

(** [get_content_line_index]. *)
Definition get_content_line_index (display_lines : list pystr)
  (display_index : Z) : option Z :=
  if display_index >=? len display_lines then Some (len display_lines - 1)
  else getitem (content_line_map display_lines 0) display_index.

(** The display lines as [main] builds them: the wrapped lines of every
    line of the content, in order. *)
Fixpoint build_display_lines (cache : wrap_cache) (content : list pystr)
  (text_width : Z) : list pystr * wrap_cache :=
  match content with
  | [] => ([], cache)
  | line :: rest =>
      let r := wrap_line cache line text_width in
      let rs := build_display_lines r.2 rest text_width in
      (r.1 ++ rs.1, rs.2)
  end.

(** ** Drivers for the properties below *)

(** A sequence of [execute_command] calls, and [n] calls of [undo]. *)
Fixpoint execute_all (fix_code beautify : option (pystr -> pystr))
  (cmds : list Command) (hs : CommandHandler * EditorState)
  : option (CommandHandler * EditorState) :=
  match cmds with
  | [] => Some hs
  | c :: cmds' =>
      hs' ← execute_command fix_code beautify c hs;
      execute_all fix_code beautify cmds' hs'
  end.

Fixpoint undo_times (n : nat) (hs : CommandHandler * EditorState)
  : option (CommandHandler * EditorState) :=
  match n with
  | O => Some hs
  | S n' => hs' ← undo hs; undo_times n' hs'
  end.

(** The state [main] starts from. *)
Definition new_EditorState (content : list pystr) (filepath : pystr)
  (language : option pystr) : EditorState :=
  {| content := content; cursor_y := 0; cursor_x := 0; scroll_y := 0;
     cutbuf := []; selection_start := None; selection_end := None;
     insert_mode := true; is_modified := false; filepath := filepath;
     language := language; message := []; shift_pressed := false |}.

(** The line the cursor is on. *)
Definition cursor_line (s : EditorState) : pystr :=
  default [] (content s !! Z.to_nat (cursor_y s)).

(** The commands whose [undo] gives back the lines and the cursor of the
    state [s] they are executed in: a move by a non-negative amount; one
    character typed in insert mode or at the end of the line; a Backspace
    or a Delete that removes a character of the line, or a Delete with
    nothing to remove; an Enter on a line without leading whitespace; every
    Replace-all and Format. *)
Definition restorable (c : Command) (s : EditorState) : Prop :=
  match c with
  | MoveCommand _ amount _ _ => 0 <= amount
  | InsertCommand char _ _ =>
      length char = 1%nat
      /\ (insert_mode s = true \/ cursor_x s = len (cursor_line s))
  | BackspaceCommand _ _ _ => 0 < cursor_x s
  | DeleteCommand _ _ deleted_char =>
      cursor_x s < len (cursor_line s)
      \/ (cursor_y s = len (content s) - 1 /\ deleted_char = [])
  | EnterCommand _ _ => indent_of (cursor_line s) = 0
  | ReplaceCommand _ _ _ _ => True
  | FormatCommand _ => True
  end.

(** The state [s] with the modified flag and the selection of [s1]. *)
Definition restored (s s1 : EditorState) : EditorState :=
  set_selection (set_is_modified s (is_modified s1))
    (selection_start s1) (selection_end s1).

(** Every [execute] but that of a move sets the modified flag. *)
Definition sets_modified (c : Command) : bool :=
  match c with MoveCommand _ _ _ _ => false | _ => true end.

(** One Insert command for each character. *)
Definition insert_commands (chars : list ascii) : list Command :=
  map (fun c => new_InsertCommand [c]) chars.

(** The state once the characters [typed] went in at the cursor of [s],
    which split the content into [above], [before ++ after] and [below]. *)
Definition after_typing (s : EditorState) (above below : list pystr)
  (before after typed : pystr) : EditorState :=
  {| content := above ++ (before ++ typed ++ after) :: below;
     cursor_y := len above; cursor_x := len before + len typed;
     scroll_y := scroll_y s; cutbuf := cutbuf s;
     selection_start := None; selection_end := None;
     insert_mode := insert_mode s; is_modified := true;
     filepath := filepath s; language := language s; message := message s;
     shift_pressed := shift_pressed s |}.

(** The commands that typing [chars] after [typed] leaves on the stack,
    oldest first. *)
Fixpoint typing_commands (above : list pystr) (before typed : pystr)
  (chars : list ascii) : list Command :=
  match chars with
  | [] => []
  | c :: chars' =>
      InsertCommand [c] (len above) (len before + len typed)
      :: typing_commands above before (typed ++ [c]) chars'
  end.

(** [valid_state] as a test. *)
Definition valid_stateb (s : EditorState) : bool :=
  (0 <=? cursor_y s) && (cursor_y s <? len (content s))
  && match content s !! Z.to_nat (cursor_y s) with
     | Some line => (0 <=? cursor_x s) && (cursor_x s <=? len line)
     | None => false
     end
  && forallb (forallb (fun c => negb (chr_eqb c "010"%char))) (content s).

(** A state with the cursor inside its only line and a selection. *)
Definition typing_state : EditorState :=
  {| content := [py "ab"]; cursor_y := 0; cursor_x := 1; scroll_y := 0;
     cutbuf := []; selection_start := Some (0, 0);
     selection_end := Some (0, 1); insert_mode := true;
     is_modified := false; filepath := py "notes.txt"; language := None;
     message := []; shift_pressed := false |}.

(** The state after typing "a" and "b", undoing once and typing "c". *)
Definition abc_state : CommandHandler * EditorState :=
  ({| undo_stack := [InsertCommand (py "c") 0 1; InsertCommand (py "a") 0 0];
      redo_stack := [] |},
   {| content := [py "ac"]; cursor_y := 0; cursor_x := 2; scroll_y := 0;
      cutbuf := []; selection_start := None; selection_end := None;
      insert_mode := true; is_modified := true; filepath := [];
      language := None; message := []; shift_pressed := false |}).

(** What a search by a compiled pattern has to report when the whole-word
    option is off: the start of every span, row by row. *)
Definition span_starts (finditer : pystr -> list (Z * Z))
  (content : list pystr) : list (Z * Z) :=
  concat (imap (fun y line =>
                  map (fun span : Z * Z => (Z.of_nat y, span.1))
                    (finditer line))
            content).

(** A sequence of [add_to_history] calls. *)
Definition add_all (s : Search.SearchState) (ps : list pystr) : Search.SearchState :=
  fold_left Search.add_to_history ps s.

(** Every call of the sequence has a non-empty pattern that differs from
    the last search at the time of the call. *)
Fixpoint admissible (s : Search.SearchState) (ps : list pystr) : Prop :=
  match ps with
  | [] => True
  | p :: ps' =>
      p <> [] /\ p <> Search.last_search s /\ admissible (Search.add_to_history s p) ps'
  end.

(** The patterns ["a"], ["b"], ["a"], ... *)
Fixpoint alternating (a_first : bool) (n : nat) : list pystr :=
  match n with
  | O => []
  | S n' => (if a_first then py "a" else py "b")
            :: alternating (negb a_first) n'
  end.

(** What a search for all occurrences has to report: the starts of the
    occurrences of [pattern] in a line, overlapping ones included, in
    increasing order; and those of all lines, row by row. *)
Definition occurrences_in (line pattern : pystr) : list nat :=
  List.filter (fun x => startswith (drop x line) pattern)
    (seq 0 (S (length line))).

Definition all_occurrences (content : list pystr) (pattern : pystr)
  : list (Z * Z) :=
  concat (imap (fun y line =>
                  map (fun x => (Z.of_nat y, Z.of_nat x))
                    (occurrences_in line pattern))
            content).

(** A stand-in for [re]: [stand_in_compile] raises [re.error] for the
    pattern ["("], as [re.compile] does for an unbalanced parenthesis, and
    an exception that is not an [re.error] for ["a{4294967296}"], as
    [re.compile] does with [OverflowError]; every other pattern compiles to
    itself, and [stand_in_finditer] gives the spans where it occurs
    literally. *)
Definition stand_in_compile (pattern : pystr) (ignore_case : bool)
  : compile_result pystr :=
  if str_eqb pattern (py "(") then ReError
  else if str_eqb pattern (py "a{4294967296}") then OtherError
  else Compiled pattern.

Definition stand_in_finditer (r line : pystr) : list (Z * Z) :=
  map (fun x => (Z.of_nat x, Z.of_nat x + len r)) (occurrences_in line r).

(** The characters of a string that are not whitespace, in order; strings
    of whitespace only and strings without whitespace. *)
Definition nonspace (s : pystr) : pystr :=
  List.filter (fun c => negb (isspace c)) s.

Definition all_space (s : pystr) : Prop := Forall (fun c => isspace c = true) s.

Definition space_free (s : pystr) : Prop :=
  Forall (fun c => isspace c = false) s.

(** Every entry of the cache holds what [wrap_line] computes for its key,
    as it does in every cache that only [wrap_line] has written. *)
Definition cache_consistent (cache : wrap_cache) : Prop :=
  Forall (fun e => e.2 = wrap_compute e.1.1 e.1.2) cache.

(** The text the loop has placed so far, without its whitespace. *)
Definition placed (acc : wrap_acc) : pystr :=
  nonspace (concat (wrapped acc)) ++ concat (current_line acc).

(** The sub-lines the loop has produced each carry the indent and a
    non-empty body; [current_length] is zero while no word is pending. *)
Definition well_formed (ind : pystr) (acc : wrap_acc) : Prop :=
  Forall (fun sub => exists body, sub = ind ++ body /\ body <> [])
    (wrapped acc)
  /\ Forall (fun w => w <> []) (current_line acc)
  /\ (current_line acc = [] -> current_length acc = 0).

(** The sub-lines the loop has produced are groups of words, each group
    behind the indent and joined by single spaces; the groups and the
    pending words hold, in order, the words read so far, a word longer
    than the width replaced by the pieces of [break_long_word]. *)
Definition grouped (ind : pystr) (m : Z) (words : list pystr)
  (acc : wrap_acc) : Prop :=
  exists groups : list (list pystr),
    Forall (fun g => g <> []) groups
    /\ wrapped acc = map (fun g => ind ++ join g) groups
    /\ concat groups ++ current_line acc
       = flat_map (fun w => break_long_word w m) words
    /\ (current_line acc = [] -> current_length acc = 0).

(** A display index mapped to its logical line by [get_content_line_index]
    and back by [get_display_line_index], over the display lines [main]
    builds for the content. *)
Definition display_roundtrip (content : list pystr) (text_width d : Z)
  : option Z :=
  let display_lines := (build_display_lines [] content text_width).1 in
  row ← get_content_line_index display_lines d;
  fst <$> get_display_line_index [] content row text_width.

(** ** Further definitions for the engine *)

(** The commands whose [execute] keeps the cursor inside the document:
    every one but Replace-all and Format, a move by a non-negative amount
    and an insertion of a non-empty string without a line feed. *)
Definition keeps_cursor (c : Command) : Prop :=
  match c with
  | MoveCommand _ amount _ _ => 0 <= amount
  | InsertCommand char _ _ => char <> [] /\ no_newline char
  | BackspaceCommand _ _ _ => True
  | DeleteCommand _ _ _ => True
  | EnterCommand _ _ => True
  | ReplaceCommand _ _ _ _ => False
  | FormatCommand _ => False
  end.

(** ** The matches and the history of [SearchState] *)

(** [self.current_match = i]. *)
Definition set_current_match (s : Search.SearchState) (i : Z)
  : Search.SearchState :=
  {| Search.pattern := Search.pattern s;
     Search.case_sensitive := Search.case_sensitive s;
     Search.whole_word := Search.whole_word s;
     Search.regex := Search.regex s;
     Search.current_match := i;
     Search.matches := Search.matches s;
     Search.search_active := Search.search_active s;
     Search.search_in_selection := Search.search_in_selection s;
     Search.incremental := Search.incremental s;
     Search.scroll_y := Search.scroll_y s;
     Search.last_search := Search.last_search s;
     Search.search_history := Search.search_history s;
     Search.history_index := Search.history_index s |}.

(** [SearchState.next_match] and [SearchState.previous_match]: the state
    the call leaves and what it returns, as for [get_previous_search]. *)
Definition next_match (s : Search.SearchState)
  : Search.SearchState * option (option (Z * Z)) :=
  match Search.matches s with
  | [] => (s, Some None)
  | _ =>
      let s' := set_current_match s
                  ((Search.current_match s + 1)
                   mod len (Search.matches s)) in
      (s', Some <$> getitem (Search.matches s') (Search.current_match s'))
  end.

Definition previous_match (s : Search.SearchState)
  : Search.SearchState * option (option (Z * Z)) :=
  match Search.matches s with
  | [] => (s, Some None)
  | _ =>
      let s' := set_current_match s
                  ((Search.current_match s - 1)
                   mod len (Search.matches s)) in
      (s', Some <$> getitem (Search.matches s') (Search.current_match s'))
  end.

(** The replay cursor of the search history points at an entry, or is [-1]
    as in a new state. *)
Definition history_ok (s : Search.SearchState) : Prop :=
  -1 <= Search.history_index s < len (Search.search_history s).

(** No two neighbours of a list are equal. *)
Definition adjacent_distinct (l : list pystr) : Prop :=
  forall (i : nat) a b, l !! i = Some a -> l !! S i = Some b -> a <> b.

(** The invariant of the stored list along [add_to_history]: no entry is
    empty, no two neighbours are equal, and the newest entry is the last
    search. *)
Definition history_well_formed (s : Search.SearchState) : Prop :=
  Forall (fun p => p <> []) (Search.search_history s)
  /\ adjacent_distinct (Search.search_history s)
  /\ (Search.search_history s = []
      \/ last (Search.search_history s) = Some (Search.last_search s)).

(** ** What a literal search has to report *)

(** What the whole-word option asks of an occurrence of [pattern] at [x]:
    the character before it, if there is one, and the character after it,
    if there is one, are not alphanumeric. *)
Definition not_alnum_at (line : pystr) (i : nat) : bool :=
  match line !! i with
  | Some c => negb (isalnum c)
  | None => true
  end.

Definition word_bounded (line pattern : pystr) (x : nat) : bool :=
  match x with
  | O => true
  | S k => not_alnum_at line k
  end && not_alnum_at line (x + length pattern).

(** The starts that a literal search of one line has to report, and those
    of the rows [ys] of a document. *)
Definition literal_starts (whole_word : bool) (line pattern : pystr)
  : list nat :=
  List.filter
    (fun x => startswith (drop x line) pattern
              && (if whole_word then word_bounded line pattern x else true))
    (seq 0 (S (length line))).

Definition literal_matches (whole_word : bool) (content : list pystr)
  (pattern : pystr) (ys : list nat) : list (Z * Z) :=
  flat_map
    (fun y =>
       match content !! y with
       | Some line =>
           map (fun x => (Z.of_nat y, Z.of_nat x))
             (literal_starts whole_word line pattern)
       | None => []
       end)
    ys.

(** ** Width and display lines *)

(** The sub-lines the loop has produced fit the width, and so does the
    line it is filling; [current_length] is never below the length of that
    line. *)
Definition fits (ind : pystr) (m : Z) (acc : wrap_acc) : Prop :=
  Forall (fun sub => len sub <= len ind + m) (wrapped acc)
  /\ len (join (current_line acc)) <= m
  /\ len (join (current_line acc)) <= current_length acc.

(** The display lines [main] shows for a content, whatever the cache
    holds. *)
Definition display_lines_of (content : list pystr) (text_width : Z)
  : list pystr :=
  concat (map (fun line => wrap_compute line text_width) content).

(** A display line that starts with as many spaces as it has leading
    whitespace characters. *)
Definition space_indented (line : pystr) : Prop :=
  startswith line (spaces (indent_of line)) = true.

(** ** The scroll adjustment of [main] *)

(** The two [while] loops that move [state.scroll_y] until the display
    line of the cursor is inside the window of [box_h - 2] lines.  Each
    turn moves [scroll_y] one step towards the cursor, so the turns given
    by [adjust_scroll] reach the exit; running out of them is [None]. *)
Fixpoint scroll_forward (turns : nat) (display_cursor_y box_h scroll_y : Z)
  : option Z :=
  match turns with
  | O => None
  | S turns' =>
      if display_cursor_y - scroll_y >=? box_h - 2
      then scroll_forward turns' display_cursor_y box_h (scroll_y + 1)
      else Some scroll_y
  end.

Fixpoint scroll_back (turns : nat) (display_cursor_y scroll_y : Z)
  : option Z :=
  match turns with
  | O => None
  | S turns' =>
      if display_cursor_y - scroll_y <? 0
      then scroll_back turns' display_cursor_y (scroll_y - 1)
      else Some scroll_y
  end.

(** The loops, then the bound [max_scroll]; the result is the new
    [state.scroll_y]. *)
Definition adjust_scroll (display_lines : list pystr)
  (display_cursor_y box_h scroll_y : Z) : option Z :=
  scroll_y ← scroll_forward
               (S (Z.to_nat (display_cursor_y - scroll_y - (box_h - 2) + 1)))
               display_cursor_y box_h scroll_y;
  scroll_y ← scroll_back (S (Z.to_nat (scroll_y - display_cursor_y)))
               display_cursor_y scroll_y;
  let max_scroll := Z.max 0 (len display_lines - (box_h - 2)) in
  Some (Z.min scroll_y max_scroll).

(** ** Syntax highlighting *)

(** [l[a:b]]. *)
Definition slice {A} (l : list A) (a b : Z) : list A :=
  take (slice_index l b - slice_index l a) (drop (slice_index l a) l).

(** The variables of the loops of [highlight_syntax]. *)
Record highlight_acc := {
  highlights : list (Z * pystr);
  last_end : Z
}.

(** One turn of the inner loop, on the span of one match. *)
Definition highlight_match (color : Z) (line : pystr) (acc : highlight_acc)
  (span : Z * Z) : highlight_acc :=
  let start := span.1 in
  let end_ := span.2 in
  if start >=? last_end acc
  then
    let highlights1 :=
      if start >? last_end acc
      then highlights acc ++ [(0, slice line (last_end acc) start)]
      else highlights acc in
    {| highlights := highlights1 ++ [(color, slice line start end_)];
       last_end := end_ |}
  else acc.

Section Highlight.

(** The compiled patterns of a language, [SYNTAX_PATTERNS_COMPILED], in
    the order of the [dict], each with its pattern type; the spans of
    [pattern.finditer(line)]; and the colour table of [highlight_syntax],
    which gives the colour of a pattern type in a language. *)
Variable regex_t : Type.
Variable re_finditer : regex_t -> pystr -> list (Z * Z).
Variable SYNTAX_PATTERNS_COMPILED : pystr -> option (list (pystr * regex_t)).
Variable color_of : pystr -> pystr -> Z.

Definition highlight_patterns (language line : pystr)
  (patterns : list (pystr * regex_t)) : highlight_acc :=
  fold_left
    (fun acc p =>
       fold_left (highlight_match (color_of language p.1) line)
         (re_finditer p.2 line) acc)
    patterns {| highlights := []; last_end := 0 |}.

Definition highlight_syntax (line : pystr) (language : option pystr)
  : list (Z * pystr) :=
  match language with
  | None | Some [] => [(0, line)]
  | Some language =>
      match SYNTAX_PATTERNS_COMPILED language with
      | None => [(0, line)]
      | Some patterns =>
          let acc := highlight_patterns language line patterns in
          if last_end acc <? len line
          then highlights acc ++ [(0, slice_from line (last_end acc))]
          else highlights acc
      end
  end.

End Highlight.

(** The text the highlights cover so far. *)
Definition covered (line : pystr) (acc : highlight_acc) : Prop :=
  0 <= last_end acc <= len line
  /\ concat (map snd (highlights acc)) = take (Z.to_nat (last_end acc)) line.

(** ** Files *)

(** [save_file]: the text it writes to the file.  Where the line separator
    of the system is the line feed, text mode writes the text as it is. *)
Definition save_file (content : list pystr) : pystr :=
  if nonempty content && str_eqb (default [] (last content)) []
  then join_lines content ++ LF
  else join_lines content.

(** What reading a file in text mode makes of its line ends: ["\r\n"] and
    ["\r"] become ["\n"]. *)
Fixpoint universal_newlines (s : pystr) : pystr :=
  match s with
  | [] => []
  | c :: s' =>
      if chr_eqb c "013"%char
      then "010"%char ::
           match s' with
           | d :: s'' =>
               if chr_eqb d "010"%char then universal_newlines s''
               else universal_newlines s'
           | [] => []
           end
      else c :: universal_newlines s'
  end.

(** [s.endswith('\n')]. *)
Definition endswith_LF (s : pystr) : bool :=
  match last s with
  | Some c => chr_eqb c "010"%char
  | None => false
  end.

(** [load_file] on the text the file holds; [None] is a file that cannot
    be read. *)
Definition load_file (file : option pystr) : list pystr :=
  match file with
  | None => [[]]
  | Some text =>
      let content := universal_newlines text in
      let has_trailing_newline := endswith_LF content in
      let lines := splitlines content in
      let lines := if has_trailing_newline then lines ++ [[]] else lines in
      if nonempty lines then lines else [[]]
  end.

(** A line as the editor stores it: no character that ends a line. *)
Definition one_line (line : pystr) : Prop :=
  Forall (fun c => is_linebreak c = false) line.

(** The lines of [content] with the last one left out when it is empty:
    what [splitlines] gives back from the joined text. *)
Definition without_empty_last (content : list pystr) : list pystr :=
  match last content with
  | Some [] => removelast content
  | _ => content
  end.

(** ** Word boundaries *)

(** The loops of [find_word_boundary]: forward over the characters at
    [pos] that are whitespace ([over_space]) or that are not, backward
    over the characters before [pos].  Each turn moves [pos] one step
    towards an end of the line, so the turns given by [find_word_boundary]
    reach the exit; running out of them is [None], as is [IndexError]. *)
Fixpoint skip_forward (turns : nat) (over_space : bool) (line : pystr)
  (pos : Z) : option Z :=
  match turns with
  | O => None
  | S turns' =>
      if pos <? len line
      then c ← getitem line pos;
           if Bool.eqb (isspace c) over_space
           then skip_forward turns' over_space line (pos + 1)
           else Some pos
      else Some pos
  end.

Fixpoint skip_back (turns : nat) (over_space : bool) (line : pystr)
  (pos : Z) : option Z :=
  match turns with
  | O => None
  | S turns' =>
      if pos >? 0
      then c ← getitem line (pos - 1);
           if Bool.eqb (isspace c) over_space
           then skip_back turns' over_space line (pos - 1)
           else Some pos
      else Some pos
  end.

Definition find_word_boundary (line : pystr) (pos : Z) (forward : bool)
  : option Z :=
  if forward
  then pos ← skip_forward (S (Z.to_nat (len line - pos))) true line pos;
       skip_forward (S (Z.to_nat (len line - pos))) false line pos
  else pos ← skip_back (S (Z.to_nat pos)) true line pos;
       skip_back (S (Z.to_nat pos)) false line pos.

(** A string that is empty or starts, or ends, with a character of the
    given kind. *)
Definition starts_with_kind (space : bool) (s : pystr) : Prop :=
  match s with
  | [] => True
  | c :: _ => isspace c = space
  end.

Definition ends_with_kind (space : bool) (s : pystr) : Prop :=
  match last s with
  | None => True
  | Some c => isspace c = space
  end.

(** The text ahead of a position, split at the word that
    [find_word_boundary] passes over forward: [ws] is whitespace and is
    followed by a character that is not, or by the end of the line; [word]
    has no whitespace and is followed by whitespace, or by the end of the
    line.  The text behind a position, split likewise for the backward
    direction. *)
Definition word_ahead (s ws word rest : pystr) : Prop :=
  s = ws ++ word ++ rest
  /\ all_space ws /\ starts_with_kind false (word ++ rest)
  /\ space_free word /\ starts_with_kind true rest.

Definition word_behind (s rest word ws : pystr) : Prop :=
  s = rest ++ word ++ ws
  /\ all_space ws /\ ends_with_kind false (rest ++ word)
  /\ space_free word /\ ends_with_kind true rest.

(** ** Instances for the properties below *)

(** A state in overwrite mode with the cursor inside its line. *)
Definition overwrite_state : EditorState :=
  {| content := [py "ab"]; cursor_y := 0; cursor_x := 0; scroll_y := 0;
     cutbuf := []; selection_start := None; selection_end := None;
     insert_mode := false; is_modified := false; filepath := [];
     language := None; message := []; shift_pressed := false |}.

(** A handler whose undo stack is full, with one command to redo; and
    what [execute_command] leaves when Split-line is executed from it on
    [typing_state]. *)
Definition full_history : CommandHandler * EditorState :=
  ({| undo_stack := replicate MAX_UNDO (InsertCommand (py "x") 0 0);
      redo_stack := [InsertCommand (py "y") 0 0] |},
   typing_state).

Definition full_history_after : CommandHandler * EditorState :=
  ({| undo_stack := EnterCommand 0 1
                    :: replicate 99 (InsertCommand (py "x") 0 0);
      redo_stack := [] |},
   {| content := [py "a"; py "b"]; cursor_y := 1; cursor_x := 0;
      scroll_y := 0; cutbuf := []; selection_start := None;
      selection_end := None; insert_mode := true; is_modified := true;
      filepath := py "notes.txt"; language := None; message := [];
      shift_pressed := false |}).

(** A state with the cursor at the start of its second line. *)
Definition second_line_state : EditorState :=
  {| content := [py "ab"; py "cd"]; cursor_y := 1; cursor_x := 0;
     scroll_y := 0; cutbuf := []; selection_start := None;
     selection_end := None; insert_mode := true; is_modified := false;
     filepath := []; language := None; message := [];
     shift_pressed := false |}.

(** A state whose cursor is outside its two lines. *)
Definition stray_cursor_state : EditorState :=
  {| content := [py "ab"; py "c"]; cursor_y := 7; cursor_x := 9;
     scroll_y := 0; cutbuf := []; selection_start := None;
     selection_end := None; insert_mode := true; is_modified := false;
     filepath := []; language := None; message := [];
     shift_pressed := false |}.

(** A search state that holds the matches [ms], the current one at [i]. *)
Definition found (ms : list (Z * Z)) (i : Z) : Search.SearchState :=
  {| Search.pattern := py "a"; Search.case_sensitive := true;
     Search.whole_word := false; Search.regex := false;
     Search.current_match := i; Search.matches := ms;
     Search.search_active := true; Search.search_in_selection := false;
     Search.incremental := true; Search.scroll_y := 0;
     Search.last_search := py "a"; Search.search_history := [py "a"];
     Search.history_index := 0 |}.

(** * Properties *)

(** [lia], with the quantified hypotheses out of its way. *)
Ltac qlia :=
  repeat match goal with H : forall _, _ |- _ => clear H end; lia.

(** ** Subscripts and slices at positions within range *)

Lemma len_nonneg {A} (l : list A) : 0 <= len l.
Proof. unfold len. lia. Qed.

Lemma len_app {A} (l k : list A) : len (l ++ k) = len l + len k.
Proof. unfold len. rewrite length_app. lia. Qed.

Lemma subscript_in_range {A} (l : list A) (i : Z) :
  0 <= i < len l -> subscript l i = Some (Z.to_nat i).
Proof.
  intros H. unfold subscript.
  destruct (0 <=? i) eqn:E1; [|lia].
  destruct (i <? len l) eqn:E2; [reflexivity|lia].
Qed.

Lemma getitem_in_range {A} (l : list A) (i : Z) :
  0 <= i < len l -> getitem l i = l !! Z.to_nat i.
Proof.
  intros H. unfold getitem. rewrite subscript_in_range by done. done.
Qed.

Lemma getitem_lookup {A} (l : list A) (i : Z) (v : A) :
  0 <= i -> l !! Z.to_nat i = Some v -> getitem l i = Some v.
Proof.
  intros Hi Hl. rewrite getitem_in_range; [done|].
  apply lookup_lt_Some in Hl. unfold len. lia.
Qed.

Lemma setitem_in_range {A} (l : list A) (i : Z) (v : A) :
  0 <= i < len l -> setitem l i v = Some (<[Z.to_nat i:=v]> l).
Proof.
  intros H. unfold setitem. rewrite subscript_in_range by done. done.
Qed.

Lemma delitem_in_range {A} (l : list A) (i : Z) :
  0 <= i < len l -> delitem l i = Some (delete (Z.to_nat i) l).
Proof.
  intros H. unfold delitem. rewrite subscript_in_range by done. done.
Qed.

Lemma slice_to_nonneg {A} (l : list A) (i : Z) :
  0 <= i -> slice_to l i = take (Z.to_nat i) l.
Proof.
  intros H. unfold slice_to, slice_index.
  destruct (i <? 0) eqn:E; [lia|done].
Qed.

Lemma slice_from_nonneg {A} (l : list A) (i : Z) :
  0 <= i -> slice_from l i = drop (Z.to_nat i) l.
Proof.
  intros H. unfold slice_from, slice_index.
  destruct (i <? 0) eqn:E; [lia|done].
Qed.

Lemma chr_eqb_eq (a b : ascii) : chr_eqb a b = true <-> a = b.
Proof. apply Ascii.eqb_eq. Qed.

Lemma str_eqb_eq (a b : pystr) : str_eqb a b = true <-> a = b.
Proof.
  revert b. induction a as [|x a IH]; intros [|y b]; simpl; try easy.
  rewrite andb_true_iff, chr_eqb_eq, IH. split.
  - intros [-> ->]. done.
  - intros [= -> ->]. done.
Qed.

Lemma str_eqb_refl (a : pystr) : str_eqb a a = true.
Proof. by apply str_eqb_eq. Qed.

Lemma str_eqb_neq (a b : pystr) : str_eqb a b = false <-> a <> b.
Proof.
  rewrite <- str_eqb_eq. destruct (str_eqb a b); split; congruence.
Qed.

Lemma deque_append_cons (c : Command) (d : list Command) :
  deque_append c d = c :: take 99 d.
Proof. reflexivity. Qed.

Lemma valid_stateb_valid (s : EditorState) :
  valid_stateb s = true -> valid_state s.
Proof.
  unfold valid_stateb. rewrite !andb_true_iff.
  intros [[[Hy1 Hy2] Hx] Hl]. split.
  - lia.
  - destruct (content s !! Z.to_nat (cursor_y s)) as [line|]; [|done].
    exists line. split; [done|]. apply andb_true_iff in Hx. lia.
  - apply Forall_forall. intros line Hin. rewrite forallb_forall in Hl.
    apply list_elem_of_In in Hin. specialize (Hl _ Hin).
    rewrite forallb_forall in Hl. intros Hnl. specialize (Hl _ Hnl).
    by rewrite (proj2 (chr_eqb_eq _ _) eq_refl) in Hl.
Qed.

(** ** Lists split at the position an index denotes *)

Lemma getitem_middle {A} (pre post : list A) (a : A) (i : Z) :
  i = len pre -> getitem (pre ++ a :: post) i = Some a.
Proof.
  intros ->. rewrite getitem_in_range.
  - unfold len. rewrite Nat2Z.id. by apply list_lookup_middle.
  - unfold len. rewrite length_app. simpl. lia.
Qed.

Lemma setitem_middle {A} (pre post : list A) (a b : A) (i : Z) :
  i = len pre -> setitem (pre ++ a :: post) i b = Some (pre ++ b :: post).
Proof.
  intros ->. rewrite setitem_in_range.
  - unfold len. rewrite Nat2Z.id. f_equal.
    rewrite insert_app_r_alt by lia. by rewrite Nat.sub_diag.
  - unfold len. rewrite length_app. simpl. lia.
Qed.

Lemma delitem_middle {A} (pre post : list A) (a : A) (i : Z) :
  i = len pre -> delitem (pre ++ a :: post) i = Some (pre ++ post).
Proof.
  intros ->. rewrite delitem_in_range.
  - unfold len. rewrite Nat2Z.id. f_equal. apply delete_middle.
  - unfold len. rewrite length_app. simpl. lia.
Qed.

Lemma getitem_middle_next {A} (pre post : list A) (a b : A) (i : Z) :
  i = len pre + 1 -> getitem (pre ++ a :: b :: post) i = Some b.
Proof.
  intros ->. rewrite (cons_middle a pre), app_assoc.
  apply getitem_middle. rewrite len_app. reflexivity.
Qed.

Lemma delitem_middle_next {A} (pre post : list A) (a b : A) (i : Z) :
  i = len pre + 1 ->
  delitem (pre ++ a :: b :: post) i = Some (pre ++ a :: post).
Proof.
  intros ->. rewrite (cons_middle a pre), app_assoc.
  rewrite delitem_middle by (rewrite len_app; reflexivity).
  by rewrite <- app_assoc.
Qed.

Lemma list_insert_at_middle {A} (pre post : list A) (a v : A) (i : Z) :
  i = len pre + 1 ->
  list_insert_at (pre ++ a :: post) i v = pre ++ a :: v :: post.
Proof.
  intros ->. unfold list_insert_at, slice_index.
  pose proof (len_nonneg pre). destruct (len pre + 1 <? 0) eqn:E; [lia|].
  assert (Z.to_nat (len pre + 1) = length (pre ++ [a])) as ->.
  { rewrite length_app. unfold len. simpl. lia. }
  change (pre ++ a :: post) with (pre ++ [a] ++ post).
  rewrite (app_assoc pre [a] post).
  rewrite take_app_length, drop_app_length. by rewrite <- app_assoc.
Qed.

Lemma slice_to_app {A} (pre post : list A) (i : Z) :
  i = len pre -> slice_to (pre ++ post) i = pre.
Proof.
  intros ->. rewrite slice_to_nonneg by apply len_nonneg.
  unfold len. rewrite Nat2Z.id. apply take_app_length.
Qed.

Lemma slice_from_app {A} (pre post : list A) (i : Z) :
  i = len pre -> slice_from (pre ++ post) i = post.
Proof.
  intros ->. rewrite slice_from_nonneg by apply len_nonneg.
  unfold len. rewrite Nat2Z.id. apply drop_app_length.
Qed.

Lemma slice_from_app_next {A} (pre post : list A) (a : A) (i : Z) :
  i = len pre + 1 -> slice_from (pre ++ a :: post) i = post.
Proof.
  intros ->. rewrite (cons_middle a pre), app_assoc.
  apply slice_from_app. rewrite len_app. reflexivity.
Qed.

Lemma slice_to_all {A} (l : list A) : slice_to l (len l) = l.
Proof.
  rewrite <- (app_nil_r l) at 1. by apply slice_to_app.
Qed.

Lemma slice_from_all {A} (l : list A) : slice_from l (len l) = [].
Proof.
  rewrite <- (app_nil_r l) at 1. by apply slice_from_app.
Qed.

Lemma split_at {A} (l : list A) (x : Z) :
  0 <= x <= len l -> exists pre post, l = pre ++ post /\ x = len pre.
Proof.
  intros H. exists (take (Z.to_nat x) l), (drop (Z.to_nat x) l).
  split; [by rewrite take_drop|].
  unfold len in *. rewrite length_take. lia.
Qed.

Lemma split_at_item {A} (l : list A) (y : Z) (a : A) :
  0 <= y -> l !! Z.to_nat y = Some a ->
  exists pre post, l = pre ++ a :: post /\ y = len pre.
Proof.
  intros Hy Hl. exists (take (Z.to_nat y) l), (drop (S (Z.to_nat y)) l).
  split; [by rewrite take_drop_middle|].
  apply lookup_lt_Some in Hl. unfold len. rewrite length_take. lia.
Qed.

(** The cursor of a valid state splits the content at its row and the row
    at its column. *)
Lemma valid_state_split (s : EditorState) :
  valid_state s ->
  exists above below before after,
    content s = above ++ (before ++ after) :: below
    /\ cursor_y s = len above /\ cursor_x s = len before
    /\ no_newline (before ++ after).
Proof.
  intros [Hrow (line & Hline & Hcol) Hlines].
  destruct (split_at_item (content s) (cursor_y s) line) as
    (above & below & Hc & Hy); [lia|done|].
  destruct (split_at line (cursor_x s)) as (before & after & -> & Hx);
    [done|].
  exists above, below, before, after. repeat split; try done.
  rewrite Hc in Hlines. apply Forall_app in Hlines as [_ Hl].
  by inversion Hl.
Qed.

Section EngineProperties.

Context (fix_code beautify : option (pystr -> pystr)).

Local Abbreviation execute := (execute fix_code beautify).
Local Abbreviation execute_command := (execute_command fix_code beautify).
Local Abbreviation redo := (redo fix_code beautify).

(** ** Backspace at the start of the document *)

(** C10.  With the cursor at row 0, column 0, executing a Backspace command
    leaves the lines, the cursor and the command's recorded deleted
    character as they were, and still sets the modified flag and clears the
    selection. *)
Theorem backspace_at_origin (s : EditorState) (old_y old_x : Z)
  (deleted_char : pystr) :
  cursor_y s = 0 -> cursor_x s = 0 ->
  exists s',
    execute (BackspaceCommand old_y old_x deleted_char) s
      = Some (BackspaceCommand 0 0 deleted_char, s')
    /\ content s' = content s
    /\ cursor_y s' = cursor_y s /\ cursor_x s' = cursor_x s
    /\ is_modified s' = true
    /\ selection_start s' = None /\ selection_end s' = None.
Proof.
  intros Hy Hx. eexists. split.
  - unfold execute. rewrite Hy, Hx. simpl. reflexivity.
  - simpl. repeat split; done.
Qed.

(** ** Redo invalidation *)

Lemma execute_command_redo_stack (c : Command)
  (hs hs' : CommandHandler * EditorState) :
  execute_command c hs = Some hs' -> redo_stack hs'.1 = [].
Proof.
  unfold execute_command. intros H.
  destruct (execute c hs.2) as [r|]; simplify_eq/=. done.
Qed.

Lemma redo_empty (hs : CommandHandler * EditorState) :
  redo_stack hs.1 = [] -> redo hs = Some hs.
Proof. unfold redo. intros ->. done. Qed.

(** C5.  Every [execute_command] call leaves an empty redo stack, so a
    [redo] right after it changes nothing; in particular after
    execute(A); execute(B); undo(); execute(C) the final redo() leaves the
    handler and the editor state as they are. *)
Theorem execute_clears_redo :
  (forall c hs hs',
      execute_command c hs = Some hs' ->
      redo_stack hs'.1 = [] /\ redo hs' = Some hs')
  /\ (forall A B C hs hs4,
         (hs1 ← execute_command A hs; hs2 ← execute_command B hs1;
          hs3 ← undo hs2; execute_command C hs3) = Some hs4 ->
         redo hs4 = Some hs4).
Proof.
  split.
  - intros c hs hs' H. apply execute_command_redo_stack in H.
    split; [done|]. by apply redo_empty.
  - intros A B C hs hs4 H.
    destruct (execute_command A hs) as [hs1|]; [simpl in H|done].
    destruct (execute_command B hs1) as [hs2|]; [simpl in H|done].
    destruct (undo hs2) as [hs3|]; [simpl in H|done].
    apply redo_empty. eapply execute_command_redo_stack, H.
Qed.

(** ** Replace-all without case sensitivity *)

Lemma replace_scan_no_occurrence (old new s : pystr) :
  (forall k, startswith (drop k s) old = false) ->
  replace_scan old new 0 s = s.
Proof.
  induction s as [|c s IH]; intros H; [done|].
  pose proof (H 0%nat) as H0. rewrite drop_0 in H0.
  cbn [replace_scan]. rewrite H0. f_equal. apply IH.
  intros k. apply (H (S k)).
Qed.

Lemma replace_no_occurrence (old new s : pystr) :
  (forall k, startswith (drop k s) old = false) -> replace s old new = s.
Proof.
  intros H. unfold replace. destruct old as [|a old].
  - specialize (H 0%nat). destruct s; done.
  - by apply replace_scan_no_occurrence.
Qed.

(** C6.  A Replace-all with case-insensitive mode lower-cases the pattern
    and every stored line before substituting, so the stored lines become
    lower case, also where nothing matches; undoing it through the history
    restores the line sequence as it was before the execution. *)
Theorem replace_all_lowercases_content (hs : CommandHandler * EditorState)
  (pat rep : pystr) (old : list pystr) :
  exists hs1,
    execute_command (ReplaceCommand pat rep false old) hs = Some hs1
    /\ content hs1.2
        = map (fun line => replace (lower line) (lower pat) rep)
            (content hs.2)
    /\ (forall (i : nat) line,
           content hs.2 !! i = Some line ->
           (forall k, startswith (drop k (lower line)) (lower pat) = false) ->
           content hs1.2 !! i = Some (lower line))
    /\ exists hs2, undo hs1 = Some hs2 /\ content hs2.2 = content hs.2.
Proof.
  eexists. split; [reflexivity|]. simpl. split; [|split].
  - unfold replace_text. by rewrite map_map.
  - intros i line Hi Hno. unfold replace_text.
    rewrite !list_lookup_fmap, Hi. simpl.
    by rewrite replace_no_occurrence.
  - eexists. split; [reflexivity|done].
Qed.

(** ** Execute, then undo *)

Lemma execute_then_undo (c c' : Command) (h : CommandHandler)
  (s s1 s2 : EditorState) :
  execute c s = Some (c', s1) -> undo_command c' s1 = Some s2 ->
  exists h1 h2,
    execute_command c (h, s) = Some (h1, s1)
    /\ undo (h1, s1) = Some (h2, s2).
Proof.
  intros He Hu. unfold execute_command, undo. simpl. rewrite He. simpl.
  eexists _, _. split; [reflexivity|]. simpl. rewrite Hu. reflexivity.
Qed.

Lemma move_restored (direction : pystr) (amount old_y old_x : Z)
  (s : EditorState) :
  valid_state s -> 0 <= amount ->
  exists c' s1,
    execute (MoveCommand direction amount old_y old_x) s = Some (c', s1)
    /\ undo_command c' s1 = Some (restored s s1)
    /\ is_modified s1 = is_modified s.
Proof.
  intros [Hrow (line & Hline & Hcol) Hlines] Ha.
  assert (Hget : forall y, 0 <= y < len (content s) ->
            exists l, getitem (content s) y = Some l).
  { intros y Hy. rewrite getitem_in_range by done.
    apply lookup_lt_is_Some_2. unfold len in Hy. lia. }
  assert (Hhere : getitem (content s) (cursor_y s) = Some line).
  { apply getitem_lookup; [lia|done]. }
  assert (Hfin : forall s0, content s0 = content s ->
            0 <= cursor_y s0 < len (content s) ->
            scroll_y s0 = scroll_y s -> cutbuf s0 = cutbuf s ->
            insert_mode s0 = insert_mode s ->
            is_modified s0 = is_modified s -> filepath s0 = filepath s ->
            language s0 = language s -> message s0 = message s ->
            shift_pressed s0 = shift_pressed s ->
            exists c' s1,
              (line ← getitem (content s0) (cursor_y s0);
               let s2 := set_cursor_x s0 (Z.min (cursor_x s0) (len line)) in
               Some (MoveCommand direction amount (cursor_y s) (cursor_x s),
                     if shift_pressed s2 then update_selection s2
                     else clear_selection s2)) = Some (c', s1)
              /\ undo_command c' s1 = Some (restored s s1)
              /\ is_modified s1 = is_modified s).
  { intros s0 Hc Hy H1 H2 H3 H4 H5 H6 H7 H8. rewrite Hc.
    destruct (Hget _ Hy) as [l ->]. simpl. eexists _, _.
    split; [reflexivity|].
    destruct s as [c y x sc cb ss se im md fp lg ms sp].
    destruct s0 as [c0 y0 x0 sc0 cb0 ss0 se0 im0 md0 fp0 lg0 ms0 sp0].
    simpl in *. subst.
    unfold restored, update_selection, clear_selection. simpl.
    destruct sp; simpl; [|done]. destruct ss0; simpl; done. }
  unfold execute.
  destruct (str_eqb direction (py "up")); [|
  destruct (str_eqb direction (py "down")); [|
  destruct (str_eqb direction (py "left")); [|
  destruct (str_eqb direction (py "right"))]]].
  - apply Hfin; try done. simpl. lia.
  - apply Hfin; try done. simpl. lia.
  - apply Hfin; try done.
  - rewrite Hhere. apply Hfin; try done.
  - apply Hfin; try done.
Qed.

Lemma cursor_line_split (s : EditorState) (above below : list pystr)
  (line : pystr) :
  content s = above ++ line :: below -> cursor_y s = len above ->
  cursor_line s = line.
Proof.
  intros Hc Hy. unfold cursor_line. rewrite Hc, Hy. unfold len.
  rewrite Nat2Z.id, list_lookup_middle by done. done.
Qed.

Ltac split_state s Hv :=
  let above := fresh "above" in
  let below := fresh "below" in
  let before := fresh "before" in
  let after := fresh "after" in
  let Hc := fresh "Hc" in
  let Hy := fresh "Hy" in
  let Hx := fresh "Hx" in
  let Hnl := fresh "Hnl" in
  let Hline := fresh "Hline" in
  destruct (valid_state_split s Hv)
    as (above & below & before & after & Hc & Hy & Hx & Hnl);
  pose proof (cursor_line_split s _ _ _ Hc Hy) as Hline;
  destruct s as [c y x sc cb ss se im md fp lg ms sp];
  simpl in Hc, Hy, Hx; subst c y x.

Lemma insert_restored (char : pystr) (old_y old_x : Z) (s : EditorState) :
  valid_state s -> restorable (InsertCommand char old_y old_x) s ->
  exists c' s1,
    execute (InsertCommand char old_y old_x) s = Some (c', s1)
    /\ undo_command c' s1 = Some (restored s s1)
    /\ is_modified s1 = true.
Proof.
  intros Hv [Hchar Hmode]. split_state s Hv.
  rewrite Hline in Hmode. simpl in Hmode.
  destruct char as [|ch [|? ?]]; try done.
  assert (Hline' : forall new_line,
    new_line = before ++ ch :: after ->
    (content' ← setitem (above ++ (before ++ after) :: below)
                  (len above) new_line;
     Some (InsertCommand [ch] (len above) (len before),
           clear_selection
             (set_is_modified
                (set_cursor_x
                   (set_content
                      {| content := above ++ (before ++ after) :: below;
                         cursor_y := len above; cursor_x := len before;
                         scroll_y := sc; cutbuf := cb;
                         selection_start := ss; selection_end := se;
                         insert_mode := im; is_modified := md;
                         filepath := fp; language := lg; message := ms;
                         shift_pressed := sp |} content')
                   (len before + 1)) true)))
    = Some (InsertCommand [ch] (len above) (len before),
            {| content := above ++ (before ++ ch :: after) :: below;
               cursor_y := len above; cursor_x := len before + 1;
               scroll_y := sc; cutbuf := cb;
               selection_start := None; selection_end := None;
               insert_mode := im; is_modified := true;
               filepath := fp; language := lg; message := ms;
               shift_pressed := sp |})).
  { intros new_line ->. by rewrite setitem_middle. }
  eexists _, _. split; [|split].
  - unfold execute. cbn [content cursor_y cursor_x insert_mode].
    rewrite getitem_middle by done. cbn [mbind option_bind].
    apply Hline'.
    rewrite slice_to_app by done.
    destruct im.
    + by rewrite slice_from_app.
    + destruct Hmode as [?|Hend]; [done|].
      rewrite len_app in Hend. assert (after = []) as ->.
      { pose proof (len_nonneg after). destruct after; [done|].
        unfold len in *. simpl in *. lia. }
      rewrite app_nil_r, Z.ltb_irrefl. done.
  - unfold undo_command. cbn [content cursor_y cursor_x].
    rewrite getitem_middle by done. cbn [mbind option_bind].
    rewrite (slice_to_app before (ch :: after)) by lia.
    rewrite slice_from_app_next by done.
    rewrite setitem_middle by done. done.
  - done.
Qed.

Lemma len_cons {A} (a : A) (l : list A) : len (a :: l) = 1 + len l.
Proof. unfold len. simpl length. lia. Qed.

Lemma len_nil {A} : len (@nil A) = 0.
Proof. reflexivity. Qed.

Lemma not_LF (d : ascii) (pre post : pystr) :
  no_newline (pre ++ d :: post) -> str_eqb [d] LF = false.
Proof.
  intros Hnl. apply str_eqb_neq. intros [= ->]. apply Hnl.
  apply in_or_app. right. by left.
Qed.

Ltac state_cbn :=
  cbn [content cursor_y cursor_x insert_mode is_modified selection_start
       selection_end clear_selection set_selection set_is_modified
       set_cursor_x set_cursor_y set_content fst snd mbind option_bind].

Ltac state_eq :=
  unfold restored, clear_selection, set_selection, set_is_modified,
    set_cursor_x, set_cursor_y, set_content;
  cbn [content cursor_y cursor_x scroll_y cutbuf selection_start
       selection_end insert_mode is_modified filepath language message
       shift_pressed];
  f_equal; (done || lia).

Lemma backspace_restored (old_y old_x : Z) (deleted_char : pystr)
  (s : EditorState) :
  valid_state s ->
  restorable (BackspaceCommand old_y old_x deleted_char) s ->
  exists c' s1,
    execute (BackspaceCommand old_y old_x deleted_char) s = Some (c', s1)
    /\ undo_command c' s1 = Some (restored s s1)
    /\ is_modified s1 = true.
Proof.
  intros Hv Hpos. split_state s Hv. simpl in Hpos.
  destruct before as [|b0 before0] using rev_ind.
  { unfold len in Hpos. simpl in Hpos. lia. }
  clear IHbefore0. rename before0 into before, b0 into d.
  rewrite <- app_assoc in *. simpl in Hnl |- *.
  pose proof (len_nonneg before) as Hb.
  eexists _, _. split; [|split].
  - unfold execute. cbn [content cursor_y cursor_x].
    rewrite len_app. change (len [d]) with 1.
    destruct (0 <? len before + 1) eqn:E; [|lia].
    rewrite getitem_middle by done. cbn [mbind option_bind].
    rewrite getitem_middle by lia. cbn [mbind option_bind].
    rewrite slice_to_app by lia. rewrite slice_from_app_next by lia.
    rewrite setitem_middle by done. cbn [mbind option_bind].
    reflexivity.
  - unfold undo_command. state_cbn.
    rewrite getitem_middle by done. cbn [mbind option_bind].
    rewrite (not_LF d before after) by done.
    rewrite slice_to_app, slice_from_app by lia.
    rewrite setitem_middle by done. cbn [mbind option_bind].
    rewrite len_app. change (len [d]) with 1. f_equal. state_eq.
  - done.
Qed.

Lemma delete_restored (old_y old_x : Z) (deleted_char : pystr)
  (s : EditorState) :
  valid_state s ->
  restorable (DeleteCommand old_y old_x deleted_char) s ->
  exists c' s1,
    execute (DeleteCommand old_y old_x deleted_char) s = Some (c', s1)
    /\ undo_command c' s1 = Some (restored s s1)
    /\ is_modified s1 = true.
Proof.
  intros Hv Hr. split_state s Hv. simpl in Hr. rewrite Hline in Hr.
  rewrite !len_app, !len_cons in Hr.
  destruct after as [|d after].
  - destruct Hr as [Hr|[Hlast ->]]; [rewrite len_nil in Hr; lia|].
    assert (below = []) as ->.
    { destruct below; [done|]. rewrite len_cons in Hlast.
      pose proof (len_nonneg below). lia. }
    rewrite app_nil_r in *.
    eexists _, _. split; [|split].
    + unfold execute. cbn [content cursor_y cursor_x].
      rewrite (getitem_middle above [] before (len above) eq_refl). cbn [mbind option_bind].
      rewrite Z.ltb_irrefl.
      destruct (len above <? len (above ++ [before]) - 1) eqn:E.
      { rewrite len_app, len_cons, len_nil in E. lia. }
      reflexivity.
    + unfold undo_command. state_cbn.
      rewrite getitem_middle by done. cbn [mbind option_bind].
      change (str_eqb [] LF) with false. cbn match.
      rewrite slice_to_all, slice_from_all, !app_nil_r.
      rewrite (setitem_middle above [] before before (len above) eq_refl).
      done.
    + done.
  - clear Hr. eexists _, _. split; [|split].
    + unfold execute. cbn [content cursor_y cursor_x].
      rewrite (getitem_middle above below _ (len above) eq_refl). cbn [mbind option_bind].
      destruct (len before <? len (before ++ d :: after)) eqn:E.
      2:{ rewrite len_app, len_cons in E. pose proof (len_nonneg after).
          lia. }
      rewrite getitem_middle by done. cbn [mbind option_bind].
      rewrite slice_to_app, slice_from_app_next by done.
      rewrite setitem_middle by done. reflexivity.
    + unfold undo_command. state_cbn.
      rewrite getitem_middle by done. cbn [mbind option_bind].
      rewrite (not_LF d before after) by done.
      rewrite slice_to_app, slice_from_app by done.
      rewrite setitem_middle by done. done.
    + done.
Qed.

Lemma enter_restored (old_y old_x : Z) (s : EditorState) :
  valid_state s -> restorable (EnterCommand old_y old_x) s ->
  exists c' s1,
    execute (EnterCommand old_y old_x) s = Some (c', s1)
    /\ undo_command c' s1 = Some (restored s s1)
    /\ is_modified s1 = true.
Proof.
  intros Hv Hr. split_state s Hv. simpl in Hr. rewrite Hline in Hr.
  eexists _, _. split; [|split].
  - unfold execute. cbn [content cursor_y cursor_x].
    rewrite getitem_middle by done. cbn [mbind option_bind].
    rewrite Hr, slice_to_app, slice_from_app by done.
    change (spaces 0 ++ after) with after.
    rewrite setitem_middle by done. cbn [mbind option_bind].
    rewrite list_insert_at_middle by done. reflexivity.
  - unfold undo_command. state_cbn.
    rewrite (getitem_middle above (after :: below) before
               (len above + 1 - 1)) by lia.
    cbn [mbind option_bind].
    rewrite getitem_middle_next by done. cbn [mbind option_bind].
    rewrite setitem_middle by lia. cbn [mbind option_bind].
    rewrite delitem_middle_next by done. done.
  - done.
Qed.

Lemma replace_restored (pattern replacement : pystr) (case_sensitive : bool)
  (old_content : list pystr) (s : EditorState) :
  exists c' s1,
    execute (ReplaceCommand pattern replacement case_sensitive old_content) s
    = Some (c', s1)
    /\ undo_command c' s1 = Some (restored s s1)
    /\ is_modified s1 = true.
Proof.
  eexists _, _. split; [reflexivity|]. split; [|done].
  by destruct s.
Qed.

Lemma format_restored (old_content : list pystr) (s : EditorState) :
  exists c' s1,
    execute (FormatCommand old_content) s = Some (c', s1)
    /\ undo_command c' s1 = Some (restored s s1)
    /\ is_modified s1 = true.
Proof.
  eexists _, _. split; [reflexivity|]. split; [|done].
  by destruct s.
Qed.



(** ** The capacity of the undo stack *)

(** The line [InsertCommand.execute] builds when [c] is typed behind
    [before ++ typed], in insert mode or at the end of the line. *)
Lemma typed_line_insert (mode : bool) (before typed after : pystr)
  (c : ascii) :
  mode = true \/ after = [] ->
  (if mode
   then slice_to (before ++ typed ++ after) (len before + len typed)
        ++ [c] ++ slice_from (before ++ typed ++ after)
                    (len before + len typed)
   else if len before + len typed <? len (before ++ typed ++ after)
        then slice_to (before ++ typed ++ after) (len before + len typed)
             ++ [c] ++ slice_from (before ++ typed ++ after)
                         (len before + len typed + 1)
        else slice_to (before ++ typed ++ after) (len before + len typed)
             ++ [c])
  = (before ++ typed) ++ c :: after.
Proof.
  intros Hmode. rewrite (app_assoc before typed after).
  rewrite slice_to_app by (by rewrite len_app).
  destruct mode.
  - by rewrite slice_from_app by (by rewrite len_app).
  - destruct Hmode as [?|Hend]; [done|]. subst after.
    rewrite app_nil_r, len_app, Z.ltb_irrefl. done.
Qed.

Section History.

Context (s : EditorState) (above below : list pystr) (before after : pystr).
Hypothesis Hmode : insert_mode s = true \/ after = [].

Local Abbreviation typed_state := (after_typing s above below before after).

Lemma execute_insert_typed (typed : pystr) (c : ascii) :
  execute (new_InsertCommand [c]) (typed_state typed)
  = Some (InsertCommand [c] (len above) (len before + len typed),
          typed_state (typed ++ [c])).
Proof.
  unfold execute, new_InsertCommand, after_typing.
  cbn [content cursor_y cursor_x insert_mode].
  rewrite getitem_middle by done. cbn [mbind option_bind].
  rewrite (typed_line_insert (insert_mode s) before typed after c Hmode).
  rewrite setitem_middle by done. cbn [mbind option_bind].
  unfold clear_selection, set_selection, set_is_modified, set_cursor_x,
    set_content. simpl.
  rewrite <- !app_assoc, len_app, len_cons, len_nil.
  do 2 f_equal. f_equal. lia.
Qed.

Lemma undo_insert_typed (typed : pystr) (c : ascii) :
  undo_command (InsertCommand [c] (len above) (len before + len typed))
    (typed_state (typed ++ [c]))
  = Some (typed_state typed).
Proof.
  unfold undo_command, after_typing. cbn [content cursor_y cursor_x].
  rewrite getitem_middle by done. cbn [mbind option_bind].
  rewrite <- (app_assoc typed [c] after), (app_assoc before typed).
  rewrite slice_to_app
    by (rewrite !len_app, len_cons, len_nil; lia).
  change ([c] ++ after) with (c :: after).
  rewrite slice_from_app_next
    by (rewrite !len_app, len_cons, len_nil; lia).
  rewrite setitem_middle by done. cbn [mbind option_bind].
  unfold set_cursor_x, set_cursor_y, set_content. simpl.
  by rewrite <- app_assoc.
Qed.

Lemma take_deque_append (c : Command) (d : list Command) :
  deque_append c (take MAX_UNDO d) = take MAX_UNDO (c :: d).
Proof.
  unfold deque_append.
  change (take MAX_UNDO (c :: take MAX_UNDO d))
    with (c :: take 99 (take MAX_UNDO d)).
  rewrite take_take. reflexivity.
Qed.

Lemma execute_all_typed (chars : list ascii) :
  forall (typed : pystr) (h : CommandHandler) (stack : list Command),
    undo_stack h = take MAX_UNDO stack ->
    exists h',
      execute_all fix_code beautify (insert_commands chars)
        (h, typed_state typed)
      = Some (h', typed_state (typed ++ chars))
      /\ undo_stack h'
         = take MAX_UNDO
             (rev (typing_commands above before typed chars) ++ stack).
Proof.
  induction chars as [|c chars IH]; intros typed h stack Hst.
  - exists h. simpl. by rewrite app_nil_r.
  - cbn [insert_commands map execute_all].
    unfold execute_command. cbn [fst snd].
    rewrite execute_insert_typed. cbn [mbind option_bind fst snd].
    rewrite Hst, take_deque_append.
    destruct (IH (typed ++ [c])
                {| undo_stack :=
                     take MAX_UNDO
                       (InsertCommand [c] (len above) (len before + len typed)
                        :: stack);
                   redo_stack := [] |}
                (InsertCommand [c] (len above) (len before + len typed)
                 :: stack) eq_refl) as (h' & He & Hs).
    exists h'. split.
    + etrans; [exact He|]. by rewrite <- app_assoc.
    + rewrite Hs. cbn [typing_commands rev]. by rewrite <- app_assoc.
Qed.

Lemma typing_commands_app (chars1 chars2 : list ascii) : forall typed,
  typing_commands above before typed (chars1 ++ chars2)
  = typing_commands above before typed chars1
    ++ typing_commands above before (typed ++ chars1) chars2.
Proof.
  induction chars1 as [|c chars1 IH]; intros typed; simpl.
  - by rewrite app_nil_r.
  - rewrite IH. by rewrite <- app_assoc.
Qed.

Lemma length_typing_commands (chars : list ascii) : forall typed,
  length (typing_commands above before typed chars) = length chars.
Proof.
  induction chars as [|c chars IH]; intros typed; simpl; [done|].
  by rewrite IH.
Qed.

Lemma undo_times_typed (chars : list ascii) :
  forall (typed : pystr) (h : CommandHandler) (stack : list Command),
    undo_stack h = rev (typing_commands above before typed chars) ++ stack ->
    exists h',
      undo_times (length chars) (h, typed_state (typed ++ chars))
      = Some (h', typed_state typed)
      /\ undo_stack h' = stack.
Proof.
  induction chars as [|c chars IH] using rev_ind; intros typed h stack Hst.
  - exists h. simpl in *. by rewrite app_nil_r.
  - rewrite typing_commands_app, rev_app_distr in Hst.
    cbn [typing_commands rev app] in Hst.
    rewrite length_app, Nat.add_1_r. cbn [undo_times].
    unfold undo. cbn [fst snd]. rewrite Hst.
    rewrite app_assoc, undo_insert_typed. cbn [mbind option_bind].
    apply IH. reflexivity.
Qed.

End History.



End EngineProperties.

(** ** The search-term history *)

Section SearchHistory.

Import Search.

Lemma add_to_history_fresh (s : SearchState) (p : pystr) :
  p <> [] -> p <> last_search s ->
  add_to_history s p
  = set_history s p (search_history s ++ [p]) (len (search_history s ++ [p]) - 1).
Proof.
  intros Hp Hl. unfold add_to_history. destruct p as [|c p]; [done|].
  apply str_eqb_neq in Hl. by rewrite Hl.
Qed.

Lemma alternating_grows (n : nat) : forall (a_first : bool) (s : SearchState),
  last_search s <> (if a_first then py "a" else py "b") ->
  admissible s (alternating a_first n)
  /\ length (search_history (add_all s (alternating a_first n)))
     = (length (search_history s) + n)%nat.
Proof.
  induction n as [|n IH]; intros a_first s Hl; unfold add_all; simpl.
  - split; [done|lia].
  - assert (Hp : (if a_first then py "a" else py "b") <> []).
    { by destruct a_first. }
    rewrite add_to_history_fresh by done.
    destruct (IH (negb a_first)
                (set_history s (if a_first then py "a" else py "b")
                   (search_history s ++ [if a_first then py "a" else py "b"])
                   (len (search_history s
                         ++ [if a_first then py "a" else py "b"]) - 1)))
      as [Ha Hlen].
    { simpl. by destruct a_first. }
    split; [done|]. unfold add_all in Hlen.
    etrans; [exact Hlen|]. simpl. rewrite length_app. simpl. lia.
Qed.

(** C9, as stated, fails: no capacity bounds the history list.  From the
    initial search state, [cap + 1] calls with the patterns ["a"], ["b"],
    ["a"], ... are all admissible and leave [cap + 1] entries. *)
Lemma search_history_unbounded :
  ~ exists cap : nat, forall ps,
      admissible new_SearchState ps ->
      (length (search_history (add_all new_SearchState ps)) <= cap)%nat.
Proof.
  intros [cap H].
  destruct (alternating_grows (S cap) true new_SearchState) as [Ha Hlen];
    [done|].
  specialize (H _ Ha). rewrite Hlen in H. simpl in H. lia.
Qed.

(** C9, amended.  A call of [add_to_history] with a non-empty pattern that
    differs from the last search appends exactly that pattern, so the list
    grows by one entry with no upper bound; [get_previous_search] and
    [get_next_search] leave the stored list of any state as it is. *)
Theorem search_history_append_only (s t : SearchState) (p : pystr) :
  p <> [] -> p <> last_search s ->
  search_history (add_to_history s p) = search_history s ++ [p]
  /\ length (search_history (add_to_history s p))
     = S (length (search_history s))
  /\ search_history (get_previous_search t).1 = search_history t
  /\ search_history (get_next_search t).1 = search_history t.
Proof.
  intros Hp Hl. rewrite add_to_history_fresh by done. simpl.
  rewrite length_app. simpl. repeat split; try lia.
  - unfold get_previous_search. by destruct (0 <? history_index t).
  - unfold get_next_search.
    by destruct (history_index t <? len (search_history t) - 1).
Qed.

End SearchHistory.

(** ** Search *)

Lemma find_from_spec (p : pystr) : forall (s : pystr) (pos : Z),
  0 <= pos ->
  (find_from p s pos = -1
   /\ forall k, (k <= length s)%nat -> startswith (drop k s) p = false)
  \/ exists k : nat,
       (k <= length s)%nat /\ find_from p s pos = pos + Z.of_nat k
       /\ startswith (drop k s) p = true
       /\ forall j, (j < k)%nat -> startswith (drop j s) p = false.
Proof.
  induction s as [|c s IH]; intros pos Hpos.
  - cbn [find_from]. destruct (startswith [] p) eqn:E.
    + right. exists 0%nat. simpl. repeat split; try done; try lia;
        intros; lia.
    + left. split; [done|]. intros k Hk. simpl in Hk.
      assert (k = 0%nat) as -> by lia. done.
  - cbn [find_from]. destruct (startswith (c :: s) p) eqn:E.
    + right. exists 0%nat. simpl. repeat split; try done; try lia;
        intros; lia.
    + destruct (IH (pos + 1)) as [[Hn Hall]|(k & Hk & Hf & Hs & Hlt)]; [lia| |].
      * left. split; [done|]. intros [|k] Hk; [done|]. simpl.
        apply Hall. simpl in Hk. lia.
      * right. exists (S k). simpl. repeat split; try done; try lia.
        intros [|j] Hj; [done|]. simpl. apply Hlt. lia.
Qed.

Lemma filter_none {A} (f : A -> bool) (l : list A) :
  (forall x, In x l -> f x = false) -> List.filter f l = [].
Proof.
  induction l as [|a l IH]; intros H; [done|]. simpl.
  rewrite (H a) by (by left). apply IH. intros x Hx. apply H. by right.
Qed.

Lemma scan_literal_spec (line p : pystr) (y : Z) :
  forall (turns start : nat),
    (start <= length line + 1)%nat ->
    (length line + 2 - start <= turns)%nat ->
    scan_literal turns line p false y (Z.of_nat start)
    = Some (map (fun x => (y, Z.of_nat x))
              (List.filter (fun x => startswith (drop x line) p)
                 (seq start (S (length line) - start)))).
Proof.
  induction turns as [|turns IH]; intros start Hs Ht; [lia|].
  cbn [scan_literal]. unfold find, slice_index.
  destruct (Z.of_nat start <? 0) eqn:E0; [lia|]. rewrite Nat2Z.id.
  destruct (length line <? start)%nat eqn:E1.
  - apply Nat.ltb_lt in E1. simpl.
    replace (S (length line) - start)%nat with 0%nat by qlia. done.
  - apply Nat.ltb_ge in E1.
    destruct (find_from_spec p (drop start line) (Z.of_nat start))
      as [[Hn Hall]|(k & Hk & Hf & Hocc & Hlt)]; [lia| |].
    + rewrite Hn. simpl. rewrite filter_none; [done|].
      intros x Hx. apply in_seq in Hx.
      replace x with (start + (x - start))%nat by qlia.
      rewrite <- drop_drop. apply Hall. rewrite length_drop. qlia.
    + rewrite length_drop in Hk. rewrite Hf.
      destruct (Z.of_nat start + Z.of_nat k =? -1) eqn:E2; [lia|].
      simpl.
      replace (Z.of_nat start + Z.of_nat k + 1)
        with (Z.of_nat (start + k + 1)) by qlia.
      rewrite IH by lia. simpl. f_equal.
      replace (S (length line) - start)%nat
        with (k + (1 + (S (length line) - (start + k + 1))))%nat by qlia.
      rewrite seq_app, List.filter_app.
      rewrite (filter_none _ (seq start k)).
      2:{ intros x Hx. apply in_seq in Hx.
          replace x with (start + (x - start))%nat by qlia.
          rewrite <- drop_drop. apply Hlt. qlia. }
      rewrite seq_app, List.filter_app. simpl.
      rewrite <- drop_drop, Hocc. simpl.
      replace (Z.of_nat start + Z.of_nat k) with (Z.of_nat (start + k)) by qlia.
      replace (start + k + 1)%nat with (S (start + k)) by qlia.
      done.
Qed.

Lemma scan_rows_all (scan : pystr -> Z -> option (list (Z * Z)))
  (g : nat -> pystr -> list (Z * Z)) :
  (forall y line, scan line (Z.of_nat y) = Some (g y line)) ->
  forall (post pre : list pystr),
    scan_rows scan (pre ++ post)
      (map (fun i : nat => Z.of_nat (length pre + i)) (seq 0 (length post)))
    = Some (concat (imap (fun i line => g (length pre + i)%nat line) post)).
Proof.
  intros Hscan. induction post as [|line post IH]; intros pre; [done|].
  simpl. rewrite getitem_in_range.
  2:{ unfold len. rewrite length_app. simpl. lia. }
  rewrite Nat2Z.id, Nat.add_0_r, list_lookup_middle by done. simpl.
  rewrite Hscan. simpl.
  specialize (IH (pre ++ [line])). rewrite <- app_assoc in IH. simpl in IH.
  rewrite <- seq_shift, map_map.
  erewrite map_ext; [rewrite IH|]; simpl.
  - do 3 f_equal. apply imap_ext. intros i x _. simpl.
    rewrite length_app. simpl. f_equal. lia.
  - intros i. rewrite length_app. simpl. f_equal. lia.
Qed.


Section SearchProperties.

Context (regex_t : Type)
  (re_compile : pystr -> bool -> compile_result regex_t)
  (re_finditer : regex_t -> pystr -> list (Z * Z)).

Lemma scan_regex_starts (spans : list (Z * Z)) (line : pystr) (y : Z) :
  scan_regex spans line false y
  = Some (map (fun span : Z * Z => (y, span.1)) spans).
Proof.
  induction spans as [|[a b] spans IH]; [done|].
  cbn [scan_regex]. rewrite IH. reflexivity.
Qed.

(** C8, amended.  In regular-expression mode, for every document and every
    configuration: a pattern for which [re.compile] raises [re.error] makes
    [search_text] return the empty list of matches, and no exception leaves
    it; a non-empty pattern for which [re.compile] raises an exception that
    is not an [re.error] makes that exception leave [search_text]; and a
    pattern that compiles makes a search of the whole document without the
    whole-word option return the start of every span, row by row. *)
Theorem search_malformed_regex (content : list pystr) (pattern : pystr)
  (start_y start_x : Z) (case_sensitive whole_word search_in_selection : bool)
  (selection_start selection_end : option (Z * Z)) :
  (re_compile pattern (negb case_sensitive) = ReError ->
   search_text regex_t re_compile re_finditer content pattern start_y
     start_x case_sensitive whole_word true search_in_selection
     selection_start selection_end
   = Some [])
  /\ (re_compile pattern (negb case_sensitive) = OtherError ->
      pattern <> [] ->
      search_text regex_t re_compile re_finditer content pattern start_y
        start_x case_sensitive whole_word true search_in_selection
        selection_start selection_end
      = None)
  /\ (forall r,
        re_compile pattern (negb case_sensitive) = Compiled r ->
        pattern <> [] ->
        search_text regex_t re_compile re_finditer content pattern start_y
          start_x case_sensitive false true false selection_start
          selection_end
        = Some (span_starts (re_finditer r) content)).
Proof.
  unfold search_text. split; [|split].
  - intros H. destruct pattern as [|c p]; [done|]. by rewrite H.
  - intros H Hp. destruct pattern as [|c p]; [done|]. by rewrite H.
  - intros r H Hp. destruct pattern as [|c p]; [done|]. rewrite H.
    cbn match. unfold range, span_starts.
    rewrite Z.sub_0_r. unfold len. rewrite Nat2Z.id.
    refine (scan_rows_all _ (fun y line =>
              map (fun span : Z * Z => (Z.of_nat y, span.1))
                (re_finditer r line)) _ content []).
    intros y line. apply scan_regex_starts.
Qed.

(** C7.  A literal, case-sensitive, non-whole-word search over the whole
    document reports the starts of all occurrences of the pattern,
    overlapping ones included, row by row and from left to right within a
    row: the scan resumes one character after each start it finds. *)
Theorem search_literal_all_occurrences (content : list pystr)
  (pattern : pystr) (start_y start_x : Z)
  (selection_start selection_end : option (Z * Z)) :
  pattern <> [] ->
  search_text regex_t re_compile re_finditer content pattern start_y start_x
    true false false false selection_start selection_end
  = Some (all_occurrences content pattern).
Proof.
  intros Hp. unfold search_text. destruct pattern as [|c p]; [done|].
  cbn match. unfold range, all_occurrences.
  rewrite Z.sub_0_r. unfold len. rewrite Nat2Z.id.
  refine (scan_rows_all _ (fun y line =>
            map (fun x => (Z.of_nat y, Z.of_nat x))
              (occurrences_in line (c :: p))) _ content []).
  intros y line. unfold occurrences_in.
  rewrite (scan_literal_spec line (c :: p) (Z.of_nat y) _ 0) by lia.
  by rewrite Nat.sub_0_r.
Qed.

End SearchProperties.

(** ** Soft wrap *)

(** *** Whitespace *)

Lemma nonspace_app (s t : pystr) : nonspace (s ++ t) = nonspace s ++ nonspace t.
Proof. apply List.filter_app. Qed.

Lemma nonspace_all_space (s : pystr) : all_space s -> nonspace s = [].
Proof.
  induction 1 as [|c s Hc _ IH]; [done|]. unfold nonspace in *. simpl.
  by rewrite Hc.
Qed.

Lemma nonspace_space_free (s : pystr) : space_free s -> nonspace s = s.
Proof.
  induction 1 as [|c s Hc _ IH]; [done|]. unfold nonspace in *. simpl.
  rewrite Hc. simpl. by f_equal.
Qed.

Lemma all_space_spaces (n : Z) : all_space (spaces n).
Proof. unfold spaces. apply Forall_replicate. reflexivity. Qed.

Lemma length_spaces (n : Z) : 0 <= n -> len (spaces n) = n.
Proof. intros H. unfold len, spaces. rewrite length_replicate. lia. Qed.

Lemma lstrip_split (line : pystr) :
  exists ws, line = ws ++ lstrip line /\ all_space ws.
Proof.
  induction line as [|c line (ws & IH & Hws)].
  - exists []. split; [done|constructor].
  - simpl. destruct (isspace c) eqn:E.
    + exists (c :: ws). split; [simpl; by f_equal|by constructor].
    + exists []. split; [done|constructor].
Qed.

Lemma lstrip_head (line : pystr) :
  match lstrip line with [] => True | c :: _ => isspace c = false end.
Proof.
  induction line as [|c line IH]; [done|]. simpl.
  destruct (isspace c) eqn:E; [done|]. done.
Qed.

Lemma indent_nonneg (line : pystr) : 0 <= indent_of line.
Proof.
  unfold indent_of.
  destruct (lstrip_split line) as (ws & H & _).
  rewrite H at 1. rewrite len_app. pose proof (len_nonneg ws). lia.
Qed.

Lemma slice_from_indent (line : pystr) :
  slice_from line (indent_of line) = lstrip line.
Proof.
  pose proof (indent_nonneg line) as Hnonneg. unfold indent_of in *.
  rewrite slice_from_nonneg by done.
  destruct (lstrip_split line) as (ws & H & _).
  assert (Z.to_nat (len line - len (lstrip line)) = length ws) as ->.
  { rewrite H at 1. rewrite len_app. unfold len. lia. }
  rewrite H at 1. by rewrite drop_app_length.
Qed.

Lemma nonspace_lstrip (line : pystr) : nonspace (lstrip line) = nonspace line.
Proof.
  destruct (lstrip_split line) as (ws & H & Hws).
  rewrite H at 2. by rewrite nonspace_app, (nonspace_all_space ws).
Qed.

Lemma nonspace_rev (s : pystr) : nonspace (rev s) = rev (nonspace s).
Proof.
  induction s as [|c s IH]; [done|]. simpl. rewrite nonspace_app, IH.
  unfold nonspace. simpl. destruct (isspace c); simpl; by rewrite ?app_nil_r.
Qed.

Lemma nonspace_strip (s : pystr) : nonspace (strip s) = nonspace s.
Proof.
  unfold strip, rstrip.
  by rewrite nonspace_rev, nonspace_lstrip, nonspace_rev, rev_involutive,
    nonspace_lstrip.
Qed.

(** *** [split] and [join] *)

Lemma split_from_concat (s : pystr) : forall cur,
  concat (split_from cur s) = cur ++ nonspace s.
Proof.
  induction s as [|c s IH]; intros cur; simpl.
  - destruct cur; simpl; by rewrite ?app_nil_r.
  - unfold nonspace. simpl. destruct (isspace c) eqn:E; simpl.
    + destruct cur; simpl; rewrite IH; done.
    + rewrite IH. by rewrite <- app_assoc.
Qed.

Lemma split_from_words (s : pystr) : forall cur,
  space_free cur ->
  Forall (fun w => w <> [] /\ space_free w) (split_from cur s).
Proof.
  induction s as [|c s IH]; intros cur Hcur; simpl.
  - destruct cur; [constructor|]. constructor; [done|constructor].
  - destruct (isspace c) eqn:E.
    + destruct cur; [apply IH; constructor|].
      constructor; [done|]. apply IH. constructor.
    + apply IH. apply Forall_app. split; [done|]. by constructor.
Qed.

Lemma split_concat (s : pystr) : concat (split s) = nonspace s.
Proof. apply split_from_concat. Qed.

Lemma split_words (s : pystr) :
  Forall (fun w => w <> [] /\ space_free w) (split s).
Proof. apply split_from_words. constructor. Qed.

Lemma nonspace_join (ws : list pystr) :
  Forall space_free ws -> nonspace (join ws) = concat ws.
Proof.
  induction 1 as [|w ws Hw Hws IH]; [done|].
  destruct ws as [|w' ws].
  - simpl. rewrite app_nil_r. by apply nonspace_space_free.
  - change (join (w :: w' :: ws)) with (w ++ " "%char :: join (w' :: ws)).
    rewrite nonspace_app, nonspace_space_free by done.
    change (concat (w :: w' :: ws)) with (w ++ concat (w' :: ws)).
    f_equal. exact IH.
Qed.

Lemma join_nonempty (ws : list pystr) :
  ws <> [] -> Forall (fun w => w <> []) ws -> join ws <> [].
Proof.
  intros Hne Hall. destruct ws as [|w ws]; [done|].
  inversion Hall as [|? ? Hw _]; subst.
  destruct ws; simpl; [done|]. destruct w; done.
Qed.

Lemma split_from_all_space (ws s : pystr) :
  all_space ws -> split_from [] (ws ++ s) = split_from [] s.
Proof.
  induction 1 as [|c ws Hc _ IH]; [done|]. simpl. by rewrite Hc.
Qed.

Lemma split_from_space_free (w s : pystr) : forall cur,
  space_free w -> split_from cur (w ++ s) = split_from (cur ++ w) s.
Proof.
  induction w as [|c w IH]; intros cur Hw.
  - by rewrite app_nil_r.
  - inversion Hw as [|? ? Hc Hw']; subst. simpl. rewrite Hc.
    rewrite IH by done. by rewrite <- app_assoc.
Qed.

Lemma split_lstrip (line : pystr) : split (lstrip line) = split line.
Proof.
  destruct (lstrip_split line) as (ws & H & Hws).
  rewrite H at 2. unfold split. by rewrite split_from_all_space.
Qed.

Lemma split_indented (n : Z) (s : pystr) : split (spaces n ++ s) = split s.
Proof. apply split_from_all_space, all_space_spaces. Qed.

Lemma split_join (g : list pystr) :
  Forall (fun w => w <> [] /\ space_free w) g -> split (join g) = g.
Proof.
  induction 1 as [|w g [Hne Hw] Hg IH]; [done|].
  unfold split in *. destruct g as [|w' g].
  - simpl. rewrite <- (app_nil_r w) at 1.
    rewrite split_from_space_free by done. simpl. by destruct w.
  - change (join (w :: w' :: g)) with (w ++ " "%char :: join (w' :: g)).
    rewrite split_from_space_free by done. rewrite app_nil_l.
    destruct w as [|c w]; [done|].
    change (split_from (c :: w) (" "%char :: join (w' :: g)))
      with ((c :: w) :: split_from [] (join (w' :: g))).
    by rewrite IH.
Qed.

Lemma split_from_len (s : pystr) : forall cur,
  Forall (fun w => len w <= len cur + len s) (split_from cur s).
Proof.
  induction s as [|c s IH]; intros cur; simpl.
  - destruct cur; [constructor|]. constructor; [|constructor].
    unfold len. simpl. lia.
  - assert (Hs : len (c :: s) = len s + 1) by (unfold len; simpl; lia).
    assert (Hrest : Forall (fun w => len w <= len cur + len (c :: s))
                      (split_from [] s)).
    { eapply Forall_impl; [exact (IH [])|]. intros w Hw. simpl in *.
      pose proof (len_nonneg cur). change (len (@nil ascii)) with 0 in Hw.
      lia. }
    destruct (isspace c).
    + destruct cur; [done|]. constructor; [|done].
      pose proof (len_nonneg s). lia.
    + eapply Forall_impl; [exact (IH (cur ++ [c]))|]. intros w Hw.
      simpl in *. rewrite len_app in Hw.
      change (len [c]) with 1 in Hw. lia.
Qed.

Lemma split_len (s : pystr) : Forall (fun w => len w <= len s) (split s).
Proof. exact (split_from_len s []). Qed.

Lemma split_nil (s : pystr) : nonspace s = [] -> split s = [].
Proof.
  intros H. pose proof (split_concat s) as Hc. rewrite H in Hc.
  pose proof (split_words s) as Hw.
  destruct (split s) as [|w ws]; [done|].
  inversion Hw as [|? ? [Hne _] _]; subst. simpl in Hc.
  by destruct w.
Qed.

Lemma split_not_nil (s : pystr) : nonspace s <> [] -> split s <> [].
Proof.
  intros H Hs. apply H. by rewrite <- split_concat, Hs.
Qed.

(** *** [break_long_word] *)

Lemma break_chars_concat (m : Z) (word : pystr) : forall parts current,
  concat (break_chars m parts current word)
  = concat parts ++ current ++ word.
Proof.
  induction word as [|c word IH]; intros parts current; simpl.
  - destruct current; rewrite ?concat_app; simpl; by rewrite ?app_nil_r.
  - destruct (len current + 1 >? m); rewrite IH.
    + rewrite concat_app. simpl. by rewrite app_nil_r, <- app_assoc.
    + by rewrite <- app_assoc.
Qed.

Lemma break_chars_nonempty (m : Z) (word : pystr) : forall parts current,
  1 <= m -> Forall (fun p => p <> []) parts ->
  Forall (fun p => p <> []) (break_chars m parts current word).
Proof.
  induction word as [|c word IH]; intros parts current Hm Hparts; simpl.
  - destruct current; [done|]. apply Forall_app. split; [done|].
    by constructor.
  - destruct (len current + 1 >? m) eqn:E; apply IH; try done.
    apply Forall_app. split; [done|]. constructor; [|constructor].
    destruct current; [|done]. apply Z.gtb_lt in E. unfold len in E.
    simpl in E. qlia.
Qed.

Lemma break_long_word_concat (word : pystr) (m : Z) :
  concat (break_long_word word m) = word.
Proof.
  unfold break_long_word. destruct (len word <=? m); simpl.
  - apply app_nil_r.
  - by rewrite break_chars_concat.
Qed.

Lemma break_long_word_nonempty (word : pystr) (m : Z) :
  1 <= m -> word <> [] ->
  Forall (fun p => p <> []) (break_long_word word m).
Proof.
  intros Hm Hw. unfold break_long_word. destruct (len word <=? m).
  - by constructor.
  - apply break_chars_nonempty; [done|constructor].
Qed.

Lemma break_long_word_fitting (word : pystr) (m : Z) :
  len word <= m -> break_long_word word m = [word].
Proof.
  intros H. unfold break_long_word.
  by destruct (len word <=? m) eqn:E; [|apply Z.leb_gt in E; lia].
Qed.

Lemma flat_map_fitting (words : list pystr) (m : Z) :
  Forall (fun w => len w <= m) words ->
  flat_map (fun w => break_long_word w m) words = words.
Proof.
  induction 1 as [|w words Hw _ IH]; [done|]. simpl.
  by rewrite break_long_word_fitting, IH.
Qed.

Lemma break_long_word_pieces (word : pystr) (m : Z) :
  1 <= m -> word <> [] -> space_free word ->
  Forall (fun p => p <> [] /\ space_free p) (break_long_word word m).
Proof.
  intros Hm Hne Hw. apply Forall_and. split.
  - by apply break_long_word_nonempty.
  - apply Forall_concat. by rewrite break_long_word_concat.
Qed.

Lemma flat_map_pieces (words : list pystr) (m : Z) :
  1 <= m -> Forall (fun w => w <> [] /\ space_free w) words ->
  Forall (fun p => p <> [] /\ space_free p)
    (flat_map (fun w => break_long_word w m) words).
Proof.
  intros Hm. induction 1 as [|w words [Hne Hw] _ IH]; [constructor|].
  simpl. apply Forall_app. split; [|done]. by apply break_long_word_pieces.
Qed.

(** *** The loop of [wrap_line] *)

Lemma nonspace_concat_indented (ind : pystr) (parts : list pystr) :
  all_space ind ->
  nonspace (concat (map (fun part => ind ++ part) parts))
  = nonspace (concat parts).
Proof.
  intros Hind. induction parts as [|p parts IH]; [done|]. simpl.
  rewrite !nonspace_app, IH, (nonspace_all_space ind) by done. done.
Qed.

Lemma nonspace_flush (ind : pystr) (ls ws : list pystr) :
  all_space ind -> Forall space_free ws ->
  nonspace (concat (ls ++ [ind ++ join ws]))
  = nonspace (concat ls) ++ concat ws.
Proof.
  intros Hind Hws. rewrite concat_app, nonspace_app. simpl.
  rewrite app_nil_r, nonspace_app, (nonspace_all_space ind) by done.
  by rewrite nonspace_join.
Qed.

Lemma wrap_word_placed (ind : pystr) (m : Z) (acc : wrap_acc) (w : pystr) :
  all_space ind -> space_free w -> Forall space_free (current_line acc) ->
  placed (wrap_word ind m acc w) = placed acc ++ w
  /\ Forall space_free (current_line (wrap_word ind m acc w)).
Proof.
  intros Hind Hw Hcur. unfold wrap_word, placed.
  destruct (len w >? m).
  - destruct (nonempty (current_line acc)) eqn:E; simpl.
    + split; [|constructor].
      rewrite concat_app, nonspace_app, nonspace_flush by done.
      rewrite nonspace_concat_indented, break_long_word_concat by done.
      rewrite (nonspace_space_free w) by done. by rewrite app_nil_r.
    + split; [|done]. destruct (current_line acc); [|done]. simpl.
      rewrite concat_app, nonspace_app.
      rewrite nonspace_concat_indented, break_long_word_concat by done.
      rewrite (nonspace_space_free w) by done. by rewrite !app_nil_r.
  - destruct (_ >? m); simpl.
    + split; [|by repeat constructor].
      rewrite nonspace_flush by done. by rewrite app_nil_r.
    + split; [|apply Forall_app; split; [done|by constructor]].
      rewrite concat_app. simpl. by rewrite app_nil_r, app_assoc.
Qed.

Lemma fold_wrap_word_placed (ind : pystr) (m : Z) (words : list pystr) :
  all_space ind -> Forall space_free words ->
  forall acc, Forall space_free (current_line acc) ->
    placed (fold_left (wrap_word ind m) words acc)
    = placed acc ++ concat words
    /\ Forall space_free
         (current_line (fold_left (wrap_word ind m) words acc)).
Proof.
  intros Hind. induction 1 as [|w words Hw Hwords IH]; intros acc Hacc.
  - simpl. by rewrite app_nil_r.
  - simpl. destruct (wrap_word_placed ind m acc w) as [Hp Hc]; try done.
    destruct (IH _ Hc) as [Hp' Hc']. split; [|done].
    rewrite Hp', Hp. by rewrite <- app_assoc.
Qed.

Lemma wrap_word_well_formed (ind : pystr) (m : Z) (acc : wrap_acc)
  (w : pystr) :
  1 <= m -> w <> [] -> well_formed ind acc ->
  well_formed ind (wrap_word ind m acc w).
Proof.
  intros Hm Hw (Hwr & Hcur & Hlen). unfold wrap_word, well_formed.
  assert (Hflush : current_line acc <> [] ->
    Forall (fun sub => exists body, sub = ind ++ body /\ body <> [])
      (wrapped acc ++ [ind ++ join (current_line acc)])).
  { intros Hne. apply Forall_app. split; [done|].
    constructor; [|constructor]. eexists. split; [done|].
    by apply join_nonempty. }
  assert (Hparts :
    Forall (fun sub => exists body, sub = ind ++ body /\ body <> [])
      (map (fun part => ind ++ part) (break_long_word w m))).
  { apply Forall_fmap. eapply Forall_impl.
    - by apply break_long_word_nonempty.
    - intros p Hp. simpl. by eexists. }
  destruct (len w >? m) eqn:Elong.
  - destruct (nonempty (current_line acc)) eqn:E; simpl.
    + split; [|done]. apply Forall_app. split; [|done].
      apply Hflush. by destruct (current_line acc).
    + split; [|done]. by apply Forall_app.
  - destruct (current_length acc + len w + _ >? m) eqn:Eover; simpl.
    + split; [|split; [by repeat constructor|done]].
      apply Hflush. intros Hnil. rewrite Hnil, Hlen in Eover by done.
      simpl in Eover. apply Z.gtb_lt in Eover.
      rewrite Z.gtb_ltb in Elong. apply Z.ltb_ge in Elong. lia.
    + split; [done|]. split.
      * apply Forall_app. split; [done|by constructor].
      * intros Hnil. by destruct (current_line acc).
Qed.

Lemma fold_wrap_word_well_formed (ind : pystr) (m : Z)
  (words : list pystr) :
  1 <= m -> Forall (fun w => w <> []) words ->
  forall acc, well_formed ind acc ->
    well_formed ind (fold_left (wrap_word ind m) words acc).
Proof.
  intros Hm. induction 1 as [|w words Hw Hwords IH]; intros acc Hacc.
  - done.
  - simpl. apply IH. by apply wrap_word_well_formed.
Qed.

Lemma concat_singletons {A} (l : list A) : concat (map (fun x => [x]) l) = l.
Proof. induction l as [|x l IH]; [done|]. simpl. by rewrite IH. Qed.

Lemma wrap_word_grouped (ind : pystr) (m : Z) (words : list pystr)
  (acc : wrap_acc) (w : pystr) :
  grouped ind m words acc ->
  grouped ind m (words ++ [w]) (wrap_word ind m acc w).
Proof.
  intros (groups & Hne & Hwr & Hcat & Hlen). unfold grouped.
  rewrite flat_map_app. cbn [flat_map]. rewrite app_nil_r, <- Hcat.
  unfold wrap_word. destruct (len w >? m) eqn:Elong.
  - destruct (current_line acc) as [|w0 cur] eqn:Ecur; cbn [nonempty].
    + exists (groups ++ map (fun p => [p]) (break_long_word w m)).
      cbn [wrapped current_line current_length]. rewrite Ecur.
      split; [|split; [|split; [|done]]].
      * apply Forall_app. split; [done|]. apply Forall_fmap.
        by apply Forall_true.
      * rewrite Hwr, map_app, map_map. done.
      * by rewrite concat_app, concat_singletons, !app_nil_r.
    + exists (groups ++ [w0 :: cur]
              ++ map (fun p => [p]) (break_long_word w m)).
      cbn [wrapped current_line current_length].
      split; [|split; [|split; [|done]]].
      * apply Forall_app. split; [done|]. constructor; [done|].
        apply Forall_fmap. by apply Forall_true.
      * rewrite Hwr, !map_app, map_map, <- app_assoc. done.
      * rewrite !concat_app, concat_singletons. cbn [concat].
        by rewrite !app_nil_r, <- !app_assoc.
  - rewrite Z.gtb_ltb in Elong. apply Z.ltb_ge in Elong.
    rewrite (break_long_word_fitting w m) by done.
    destruct (current_length acc + len w + _ >? m) eqn:Eover.
    + exists (groups ++ [current_line acc]).
      cbn [wrapped current_line current_length].
      split; [|split; [|split; [|done]]].
      * apply Forall_app. split; [done|]. constructor; [|constructor].
        intros Hnil. rewrite Hnil, Hlen in Eover by done.
        cbn [nonempty] in Eover. apply Z.gtb_lt in Eover. lia.
      * by rewrite Hwr, map_app.
      * rewrite concat_app. cbn [concat]. by rewrite app_nil_r.
    + exists groups. cbn [wrapped current_line current_length].
      split; [done|]. split; [done|]. split; [by rewrite app_assoc|].
      intros Hnil. by destruct (current_line acc).
Qed.

Lemma fold_wrap_word_grouped (ind : pystr) (m : Z) (rest : list pystr) :
  forall words acc, grouped ind m words acc ->
    grouped ind m (words ++ rest) (fold_left (wrap_word ind m) rest acc).
Proof.
  induction rest as [|w rest IH]; intros words acc Hacc.
  - by rewrite app_nil_r.
  - cbn [fold_left].
    replace (words ++ w :: rest) with ((words ++ [w]) ++ rest)
      by (by rewrite <- app_assoc).
    apply IH. by apply wrap_word_grouped.
Qed.

(** *** [wrap_compute] *)

Lemma wrap_compute_nonspace (line : pystr) (width : Z) :
  nonspace (concat (wrap_compute line width)) = nonspace line.
Proof.
  assert (Hline : nonspace (concat [line]) = nonspace line).
  { simpl. by rewrite app_nil_r. }
  unfold wrap_compute. destruct (len line <=? width); [done|].
  destruct (negb (nonempty (strip line))); [done|].
  destruct (negb (nonempty (split _))); [done|].
  rewrite slice_from_indent.
  destruct (fold_wrap_word_placed (spaces (indent_of line))
              (width - indent_of line) (split (lstrip line))
              (all_space_spaces _)
              (Forall_impl _ _ _ (split_words _) (fun _ H => proj2 H))
              {| wrapped := []; current_line := []; current_length := 0 |})
    as [Hp Hc]; [constructor|].
  unfold placed in Hp. simpl in Hp.
  rewrite split_concat, nonspace_lstrip in Hp.
  revert Hp Hc. destruct (current_line _); cbn [nonempty]; intros Hp Hc.
  - by rewrite app_nil_r in Hp.
  - by rewrite nonspace_flush by (done || apply all_space_spaces).
Qed.

Lemma lstrip_nonempty (line : pystr) : nonspace line <> [] -> lstrip line <> [].
Proof.
  intros H Hl. apply H. rewrite <- nonspace_lstrip, Hl. done.
Qed.

Lemma slice_from_indented (ind body : pystr) :
  slice_from (ind ++ body) (len ind) = body.
Proof.
  rewrite slice_from_nonneg by (apply len_nonneg).
  unfold len. rewrite Nat2Z.id. apply drop_app_length.
Qed.

Lemma wrap_compute_nonempty (line : pystr) (width : Z) :
  indent_of line < width -> nonspace line <> [] ->
  Forall (fun sub => slice_from sub (indent_of line) <> [])
    (wrap_compute line width).
Proof.
  intros Hwidth Hline.
  assert (Hself :
    Forall (fun sub => slice_from sub (indent_of line) <> []) [line]).
  { constructor; [|constructor]. rewrite slice_from_indent.
    by apply lstrip_nonempty. }
  unfold wrap_compute. destruct (len line <=? width); [done|].
  destruct (negb (nonempty (strip line))); [done|].
  destruct (negb (nonempty (split _))); [done|].
  rewrite slice_from_indent.
  set (indent := indent_of line) in *.
  assert (Hind : len (spaces indent) = indent).
  { apply length_spaces, indent_nonneg. }
  pose proof (fold_wrap_word_well_formed (spaces indent) (width - indent)
                (split (lstrip line)) ltac:(lia)
                (Forall_impl _ _ _ (split_words _) (fun _ H => proj1 H))
                {| wrapped := []; current_line := []; current_length := 0 |})
    as Hwf.
  destruct Hwf as (Hwr & Hcur & _).
  { repeat split; simpl; done || constructor. }
  assert (Hbody : forall subs,
    Forall (fun sub => exists body,
              sub = spaces indent ++ body /\ body <> []) subs ->
    Forall (fun sub => slice_from sub indent <> []) subs).
  { intros subs Hsubs. eapply Forall_impl; [exact Hsubs|].
    intros sub (body & -> & Hb). simpl.
    rewrite <- Hind at 2. by rewrite slice_from_indented. }
  revert Hcur. destruct (current_line _); cbn [nonempty]; intros Hcur.
  - by apply Hbody.
  - apply Hbody, Forall_app. split; [done|].
    constructor; [|constructor]. eexists. split; [done|].
    by apply join_nonempty.
Qed.

Lemma wrap_compute_unchanged (line : pystr) (width : Z) :
  len line <= width \/ nonspace line = [] ->
  wrap_compute line width = [line].
Proof.
  intros H. unfold wrap_compute.
  destruct (len line <=? width) eqn:E; [done|].
  destruct H as [H|H]; [apply Z.leb_gt in E; lia|].
  destruct (negb (nonempty (strip line))); [done|].
  by rewrite slice_from_indent, split_lstrip, (split_nil line H).
Qed.

Lemma wrap_compute_groups (line : pystr) (width : Z) :
  width < len line -> nonspace line <> [] ->
  exists groups : list (list pystr),
    Forall (fun g => g <> []) groups
    /\ wrap_compute line width
       = map (fun g => spaces (indent_of line) ++ join g) groups
    /\ concat groups
       = flat_map (fun w => break_long_word w (width - indent_of line))
           (split line).
Proof.
  intros Hlong Hline. unfold wrap_compute.
  destruct (len line <=? width) eqn:E; [apply Z.leb_le in E; lia|].
  destruct (nonempty (strip line)) eqn:Es; cbn [negb].
  2:{ exfalso. apply Hline. rewrite <- nonspace_strip.
      by destruct (strip line). }
  rewrite slice_from_indent, split_lstrip.
  destruct (nonempty (split line)) eqn:Ew; cbn [negb].
  2:{ exfalso. apply (split_not_nil line Hline). by destruct (split line). }
  destruct (fold_wrap_word_grouped (spaces (indent_of line))
              (width - indent_of line) (split line) []
              {| wrapped := []; current_line := []; current_length := 0 |})
    as (groups & Hne & Hwr & Hcat & _).
  { exists []. repeat split; done || constructor. }
  rewrite app_nil_l in Hcat. revert Hcat.
  destruct (current_line _) as [|w0 cur]; cbn [nonempty]; intros Hcat.
  - exists groups. rewrite app_nil_r in Hcat. done.
  - exists (groups ++ [w0 :: cur]). split; [|split].
    + apply Forall_app. split; [done|]. by repeat constructor.
    + by rewrite Hwr, map_app.
    + rewrite concat_app. cbn [concat]. by rewrite app_nil_r.
Qed.

Lemma flat_map_split_groups (n : Z) (groups : list (list pystr)) :
  Forall (fun p => p <> [] /\ space_free p) (concat groups) ->
  flat_map split (map (fun g => spaces n ++ join g) groups) = concat groups.
Proof.
  induction groups as [|g groups IH]; [done|]. cbn [map flat_map concat].
  intros [Hg Hrest]%Forall_app.
  by rewrite split_indented, split_join, IH.
Qed.

Lemma wrap_compute_words (line : pystr) (width : Z) :
  indent_of line < width ->
  flat_map split (wrap_compute line width)
  = flat_map (fun w => break_long_word w (width - indent_of line))
      (split line).
Proof.
  intros Hwidth.
  destruct (decide (len line <= width \/ nonspace line = [])) as [H|H].
  - rewrite wrap_compute_unchanged by done. cbn [flat_map].
    rewrite app_nil_r. symmetry. destruct H as [H|H].
    + apply flat_map_fitting. rewrite <- split_lstrip.
      eapply Forall_impl; [apply split_len|]. intros w Hw. simpl in Hw.
      unfold indent_of. lia.
    + by rewrite (split_nil line H).
  - destruct (wrap_compute_groups line width) as (groups & _ & -> & Hcat);
      [lia|tauto|].
    rewrite <- Hcat. apply flat_map_split_groups. rewrite Hcat.
    apply flat_map_pieces; [lia|apply split_words].
Qed.

Lemma wrap_compute_fitting_words (line : pystr) (width : Z) :
  Forall (fun w => len w <= width - indent_of line) (split line) ->
  flat_map split (wrap_compute line width) = split line.
Proof.
  intros Hfit. destruct (split line) as [|w ws] eqn:Es.
  - rewrite wrap_compute_unchanged.
    + cbn [flat_map]. by rewrite app_nil_r.
    + right. by rewrite <- split_concat, Es.
  - rewrite <- Es in *. rewrite wrap_compute_words.
    + by apply flat_map_fitting.
    + pose proof (split_words line) as Hw. rewrite Es in Hw, Hfit.
      inversion Hw as [|? ? [Hne _] _]; subst.
      inversion Hfit as [|? ? Hlen _]; subst.
      assert (0 < len w) by (destruct w; [done|unfold len; simpl; lia]).
      lia.
Qed.

(** *** The cache *)

Lemma key_eqb_eq (a b : pystr * Z) : key_eqb a b = true <-> a = b.
Proof.
  destruct a as [a1 a2], b as [b1 b2]. unfold key_eqb. simpl.
  rewrite andb_true_iff, str_eqb_eq, Z.eqb_eq. split.
  - by intros [-> ->].
  - by intros [= -> ->].
Qed.

Lemma dict_get_consistent (cache : wrap_cache) (k : pystr * Z)
  (v : list pystr) :
  cache_consistent cache -> dict_get cache k = Some v ->
  v = wrap_compute k.1 k.2.
Proof.
  induction 1 as [|[k' v'] cache He _ IH]; [done|]. simpl.
  destruct (key_eqb k k') eqn:E.
  - apply key_eqb_eq in E as ->. by intros [= <-].
  - exact IH.
Qed.

Lemma dict_set_consistent (cache : wrap_cache) (k : pystr * Z) :
  cache_consistent cache ->
  cache_consistent (dict_set cache k (wrap_compute k.1 k.2)).
Proof.
  induction 1 as [|[k' v'] cache He Hc IH]; simpl.
  - by repeat constructor.
  - destruct (key_eqb k k') eqn:E.
    + apply key_eqb_eq in E as ->. by constructor.
    + by constructor.
Qed.

Lemma wrap_line_cached (cache : wrap_cache) (line : pystr) (width : Z) :
  cache_consistent cache ->
  (wrap_line cache line width).1 = wrap_compute line width
  /\ cache_consistent (wrap_line cache line width).2.
Proof.
  intros Hc. unfold wrap_line.
  destruct (dict_get cache (line, width)) as [v|] eqn:E; simpl.
  - split; [|done]. by apply (dict_get_consistent _ _ _ Hc E).
  - split; [done|]. apply (dict_set_consistent _ (line, width)).
    destruct (len cache >=? WRAP_CACHE_SIZE); [|done].
    destruct Hc; [constructor|done].
Qed.

(** C3, as stated, fails: at width 5 the line ["aaa bbb"] wraps into
    ["aaa"] and ["bbb"], and the space between the two words is in neither,
    so joining the sub-lines without their indent gives ["aaabbb"]. *)
Lemma wrap_line_drops_whitespace :
  let line := py "aaa bbb" in
  let subs := (wrap_line [] line 5).1 in
  0 < 5
  /\ subs = [py "aaa"; py "bbb"]
  /\ concat (map (fun sub => slice_from sub (indent_of line)) subs)
     <> slice_from line (indent_of line).
Proof. vm_compute. repeat split; congruence. Qed.

(** A width that does not exceed the indent makes [break_long_word] open
    with an empty part: at width 2 the line ["  ab"] gets a first sub-line
    that holds the indent alone. *)
Lemma wrap_line_narrow_width :
  (wrap_line [] (py "  ab") 2).1 = [py "  "; py "  a"; py "  b"].
Proof. reflexivity. Qed.

(** C3, amended.  Whatever a cache that only [wrap_line] has written
    holds, [wrap_line] returns what it computes for the line and the
    width.  A line that fits the width, or that has whitespace only, is
    returned as it is, as the one sub-line.  Any other line gives
    sub-lines that are each the indent, as spaces, followed by a group of
    one or more words joined by single spaces; the groups, in order, hold
    the words of the line, a word longer than the width behind the indent
    replaced by the pieces [break_long_word] cuts it into.  So, when the
    width exceeds the indent, splitting the sub-lines at whitespace gives
    these words and pieces, and when every word fits behind the indent it
    gives exactly the words of the line, in order: no word is lost,
    repeated, moved or glued to another.  The sub-lines keep every
    character of the line that is not whitespace, once each and in order;
    whitespace is not kept as it was.  When the width exceeds the indent
    and the line has a character that is not whitespace, no sub-line is
    empty behind the indent. *)
Theorem wrap_line_keeps_text (cache : wrap_cache) (line : pystr)
  (width : Z) :
  cache_consistent cache ->
  let r := wrap_line cache line width in
  let indent := indent_of line in
  r.1 = wrap_compute line width
  /\ cache_consistent r.2
  /\ (len line <= width \/ nonspace line = [] -> r.1 = [line])
  /\ (width < len line -> nonspace line <> [] ->
      exists groups : list (list pystr),
        Forall (fun g => g <> []) groups
        /\ r.1 = map (fun g => spaces indent ++ join g) groups
        /\ concat groups
           = flat_map (fun w => break_long_word w (width - indent))
               (split line))
  /\ (indent < width ->
      flat_map split r.1
      = flat_map (fun w => break_long_word w (width - indent)) (split line))
  /\ (Forall (fun w => len w <= width - indent) (split line) ->
      flat_map split r.1 = split line)
  /\ nonspace (concat r.1) = nonspace line
  /\ (indent < width -> nonspace line <> [] ->
      Forall (fun sub => slice_from sub indent <> []) r.1).
Proof.
  intros Hc r indent.
  destruct (wrap_line_cached cache line width Hc) as [Hr Hc'].
  subst r indent. rewrite Hr. repeat split; try done.
  - apply wrap_compute_unchanged.
  - apply wrap_compute_groups.
  - apply wrap_compute_words.
  - apply wrap_compute_fitting_words.
  - apply wrap_compute_nonspace.
  - apply wrap_compute_nonempty.
Qed.

(** ** Display index and logical index *)

(** A display line whose leading whitespace is made of spaces starts with
    that many spaces, so the test of [get_content_line_index] never counts
    it: over such lines the map it builds is constant. *)
Lemma content_line_map_constant (display_lines : list pystr) :
  Forall (fun line => startswith line (spaces (indent_of line)) = true)
    display_lines ->
  forall row,
    content_line_map display_lines row
    = replicate (length display_lines) row.
Proof.
  induction 1 as [|line rest Hline _ IH]; intros row; [done|].
  simpl. rewrite Hline. simpl. by rewrite IH.
Qed.

(** C2.  The content [["a"; "b"]] at width 10 has the two display lines
    ["a"] and ["b"], one for each logical line and none a wrapped
    continuation.  The display index 1 is valid, [get_content_line_index]
    maps it to the logical line 0, and [get_display_line_index] maps that
    back to 0: the round trip of 1 does not give 1. *)
Theorem display_roundtrip_two_lines :
  let content := [py "a"; py "b"] in
  let display_lines := (build_display_lines [] content 10).1 in
  display_lines = [py "a"; py "b"]
  /\ Forall (fun line => length (wrap_line [] line 10).1 = 1%nat) content
  /\ 0 <= 1 < len display_lines
  /\ get_content_line_index display_lines 1 = Some 0
  /\ display_roundtrip content 10 1 = Some 0
  /\ display_roundtrip content 10 1 <> Some 1.
Proof.
  cbv zeta. split; [reflexivity|]. split; [by repeat constructor|].
  split; [by vm_compute|]. split; [reflexivity|].
  split; [reflexivity|discriminate].
Qed.

(** * Further properties *)

(** ** The engine *)

(** *** The document invariant along the commands *)

Lemma no_newline_app (a b : pystr) :
  no_newline (a ++ b) <-> no_newline a /\ no_newline b.
Proof.
  unfold no_newline. rewrite in_app_iff. tauto.
Qed.

Lemma no_newline_spaces (n : Z) : no_newline (spaces n).
Proof.
  unfold no_newline, spaces. intros Hin.
  apply list_elem_of_In, elem_of_replicate in Hin as [Hin _]. done.
Qed.

Lemma list_snoc_cases {A} (l : list A) :
  l = [] \/ exists l' a, l = l' ++ [a].
Proof.
  destruct l as [|a l _] using rev_ind; [by left|right]. by eexists _, _.
Qed.

Lemma valid_state_split_all (s : EditorState) :
  valid_state s ->
  exists above below before after,
    content s = above ++ (before ++ after) :: below
    /\ cursor_y s = len above /\ cursor_x s = len before
    /\ Forall no_newline above /\ Forall no_newline below
    /\ no_newline before /\ no_newline after.
Proof.
  intros Hv.
  destruct (valid_state_split s Hv)
    as (above & below & before & after & Hc & Hy & Hx & Hnl).
  exists above, below, before, after.
  destruct Hv as [_ _ Hl]. rewrite Hc in Hl.
  apply Forall_app in Hl as [Ha Hl]. apply Forall_cons in Hl as [_ Hb].
  apply no_newline_app in Hnl as [? ?]. done.
Qed.

Lemma valid_state_intro (s : EditorState) (above below : list pystr)
  (line : pystr) :
  content s = above ++ line :: below -> cursor_y s = len above ->
  0 <= cursor_x s <= len line ->
  Forall no_newline above -> no_newline line -> Forall no_newline below ->
  valid_state s.
Proof.
  intros Hc Hy Hx Ha Hl Hb. split.
  - rewrite Hc, Hy, len_app, len_cons.
    pose proof (len_nonneg above). pose proof (len_nonneg below). lia.
  - exists line. split; [|done]. rewrite Hc, Hy. unfold len.
    rewrite Nat2Z.id. by apply list_lookup_middle.
  - rewrite Hc. apply Forall_app. split; [done|]. by constructor.
Qed.

Section MoreEngine.

Context (fix_code beautify : option (pystr -> pystr)).

Local Abbreviation execute := (execute fix_code beautify).
Local Abbreviation execute_command := (execute_command fix_code beautify).
Local Abbreviation redo := (redo fix_code beautify).

Ltac open_state s Hv :=
  let above := fresh "above" in
  let below := fresh "below" in
  let before := fresh "before" in
  let after := fresh "after" in
  let Hc := fresh "Hc" in
  let Hy := fresh "Hy" in
  let Hx := fresh "Hx" in
  let Habove := fresh "Habove" in
  let Hbelow := fresh "Hbelow" in
  let Hbefore := fresh "Hbefore" in
  let Hafter := fresh "Hafter" in
  destruct (valid_state_split_all s Hv)
    as (above & below & before & after & Hc & Hy & Hx
        & Habove & Hbelow & Hbefore & Hafter);
  destruct s as [c y x sc cb ss se im md fp lg ms sp];
  simpl in Hc, Hy, Hx; subst c y x.

Ltac fields :=
  cbn [content cursor_y cursor_x scroll_y cutbuf insert_mode is_modified
       selection_start selection_end filepath language message
       shift_pressed clear_selection set_selection update_selection
       set_is_modified set_cursor_x set_cursor_y set_content fst snd mbind
       option_bind].

Lemma move_valid (direction : pystr) (amount old_y old_x : Z)
  (s : EditorState) :
  valid_state s -> 0 <= amount ->
  exists c' s',
    execute (MoveCommand direction amount old_y old_x) s = Some (c', s')
    /\ valid_state s'.
Proof.
  intros [Hrow (line & Hline & Hcol) Hlines] Ha.
  assert (Hhere : getitem (content s) (cursor_y s) = Some line).
  { apply getitem_lookup; [lia|done]. }
  assert (Hfin : forall s0, content s0 = content s ->
            0 <= cursor_y s0 < len (content s) -> 0 <= cursor_x s0 ->
            exists c' s',
              (line ← getitem (content s0) (cursor_y s0);
               let s2 := set_cursor_x s0 (Z.min (cursor_x s0) (len line)) in
               Some (MoveCommand direction amount (cursor_y s) (cursor_x s),
                     if shift_pressed s2 then update_selection s2
                     else clear_selection s2)) = Some (c', s')
              /\ valid_state s').
  { intros s0 Hc Hy Hx. rewrite Hc.
    rewrite getitem_in_range by done.
    destruct (content s !! Z.to_nat (cursor_y s0)) as [l|] eqn:El.
    2:{ apply lookup_ge_None in El. unfold len in Hy. lia. }
    cbn [mbind option_bind]. eexists _, _. split; [reflexivity|].
    assert (Hv : valid_state
                   (set_cursor_x s0 (Z.min (cursor_x s0) (len l)))).
    { split; simpl.
      - by rewrite Hc.
      - exists l. rewrite Hc. split; [done|].
        pose proof (len_nonneg l). lia.
      - by rewrite Hc. }
    destruct Hv as [H1 H2 H3].
    destruct (shift_pressed _); [unfold update_selection|];
      [destruct (selection_start _)|]; by split. }
  unfold execute.
  destruct (str_eqb direction (py "up")); [|
  destruct (str_eqb direction (py "down")); [|
  destruct (str_eqb direction (py "left")); [|
  destruct (str_eqb direction (py "right"))]]].
  - apply Hfin; simpl; [done|lia|lia].
  - apply Hfin; simpl; [done|lia|lia].
  - apply Hfin; simpl; [done|lia|lia].
  - rewrite Hhere. cbn [mbind option_bind].
    apply Hfin; simpl; [done|lia|]. pose proof (len_nonneg line). lia.
  - apply Hfin; [done|lia|lia].
Qed.

Lemma insert_valid (char : pystr) (old_y old_x : Z) (s : EditorState) :
  valid_state s -> char <> [] -> no_newline char ->
  exists c' s',
    execute (InsertCommand char old_y old_x) s = Some (c', s')
    /\ valid_state s'.
Proof.
  intros Hv Hne Hchar. open_state s Hv.
  assert (Hlen : 1 <= len char).
  { destruct char; [done|]. rewrite len_cons.
    pose proof (len_nonneg char). lia. }
  unfold execute. fields.
  rewrite getitem_middle by done. cbn [mbind option_bind].
  rewrite slice_to_app by done.
  set (new_line := if im then _ else _).
  assert (Hnew : no_newline new_line /\ len before + 1 <= len new_line).
  { subst new_line. destruct im.
    - rewrite slice_from_app by done. split.
      + by rewrite !no_newline_app.
      + rewrite !len_app. pose proof (len_nonneg after). lia.
    - rewrite len_app. destruct after as [|a after].
      + rewrite len_nil, Z.add_0_r, Z.ltb_irrefl. split.
        * by rewrite no_newline_app.
        * rewrite len_app. lia.
      + rewrite len_cons.
        destruct (len before <? len before + (1 + len after)) eqn:E.
        2:{ pose proof (len_nonneg after). lia. }
        rewrite slice_from_app_next by done. split.
        * rewrite !no_newline_app. repeat split; try done.
          intros Hin. apply (Hafter (or_intror Hin)).
        * rewrite !len_app. pose proof (len_nonneg after). lia. }
  destruct Hnew as [Hnl Hx].
  rewrite setitem_middle by done. cbn [mbind option_bind].
  eexists _, _. split; [reflexivity|].
  eapply (valid_state_intro _ above below new_line); simpl; try done.
  pose proof (len_nonneg before). lia.
Qed.

Lemma backspace_valid (old_y old_x : Z) (deleted_char : pystr)
  (s : EditorState) :
  valid_state s ->
  exists c' s',
    execute (BackspaceCommand old_y old_x deleted_char) s = Some (c', s')
    /\ valid_state s'.
Proof.
  intros Hv. pose proof Hv as Hv'. open_state s Hv.
  unfold execute. fields.
  destruct (0 <? len before) eqn:Ex.
  - destruct (list_snoc_cases before) as [->|(before' & d & ->)].
    { by vm_compute in Ex. }
    clear Ex. rename before' into before.
    rewrite <- app_assoc. cbn [app].
    rewrite len_app, len_cons, len_nil.
    apply no_newline_app in Hbefore as [Hbefore _].
    rewrite getitem_middle by done. cbn [mbind option_bind].
    rewrite getitem_middle by lia. cbn [mbind option_bind].
    rewrite slice_to_app by lia. rewrite slice_from_app_next by lia.
    rewrite setitem_middle by done. cbn [mbind option_bind].
    eexists _, _. split; [reflexivity|].
    eapply (valid_state_intro _ above below (before ++ after));
      simpl; try done.
    + rewrite len_app. pose proof (len_nonneg before).
      pose proof (len_nonneg after). lia.
    + by apply no_newline_app.
  - assert (before = []) as ->.
    { destruct before; [done|]. rewrite len_cons in Ex.
      pose proof (len_nonneg before). lia. }
    cbn [app] in *.
    destruct (0 <? len above) eqn:Ey.
    + destruct (list_snoc_cases above) as [->|(above' & prev & ->)].
      { by vm_compute in Ey. }
      clear Ey. rename above' into above.
      rewrite <- app_assoc. cbn [app].
      apply Forall_app in Habove as [Habove Hprev].
      apply Forall_cons in Hprev as [Hprev _].
      rewrite len_app, len_cons, len_nil.
      rewrite (getitem_middle above (after :: below) prev
                 (len above + (1 + 0) - 1)) by lia.
      cbn [mbind option_bind].
      rewrite getitem_middle_next by lia. cbn [mbind option_bind].
      rewrite setitem_middle by lia. cbn [mbind option_bind].
      rewrite delitem_middle_next by lia. cbn [mbind option_bind].
      eexists _, _. split; [reflexivity|].
      eapply (valid_state_intro _ above below (prev ++ after));
        simpl; try done.
      * lia.
      * rewrite len_app. pose proof (len_nonneg prev).
        pose proof (len_nonneg after). lia.
      * by apply no_newline_app.
    + eexists _, _. split; [reflexivity|].
      destruct Hv' as [H1 H2 H3]. by split.
Qed.

Lemma delete_valid (old_y old_x : Z) (deleted_char : pystr)
  (s : EditorState) :
  valid_state s ->
  exists c' s',
    execute (DeleteCommand old_y old_x deleted_char) s = Some (c', s')
    /\ valid_state s'.
Proof.
  intros Hv. pose proof Hv as Hv'. open_state s Hv.
  unfold execute. fields.
  rewrite (getitem_middle above below _ (len above) eq_refl).
  cbn [mbind option_bind]. rewrite len_app.
  pose proof (len_nonneg before) as Hb.
  destruct after as [|d after].
  - rewrite len_nil, Z.add_0_r, Z.ltb_irrefl, app_nil_r.
    rewrite len_app, len_cons.
    destruct below as [|next below].
    + rewrite len_nil.
      destruct (len above <? len above + (1 + 0) - 1) eqn:E; [lia|].
      cbn [mbind option_bind]. eexists _, _. split; [reflexivity|].
      rewrite app_nil_r in Hv'. destruct Hv' as [H1 H2 H3]. by split.
    + rewrite len_cons. pose proof (len_nonneg below).
      destruct (len above <? len above + (1 + (1 + len below)) - 1) eqn:E;
        [|lia].
      apply Forall_cons in Hbelow as [Hnext Hbelow].
      rewrite getitem_middle_next by done. cbn [mbind option_bind].
      rewrite setitem_middle by done. cbn [mbind option_bind].
      rewrite delitem_middle_next by done. cbn [mbind option_bind].
      eexists _, _. split; [reflexivity|].
      eapply (valid_state_intro _ above below (before ++ next));
        simpl; try done.
      * rewrite len_app. pose proof (len_nonneg next). lia.
      * by apply no_newline_app.
  - rewrite len_cons. pose proof (len_nonneg after).
    destruct (len before <? len before + (1 + len after)) eqn:E; [|lia].
    rewrite getitem_middle by done. cbn [mbind option_bind].
    rewrite slice_to_app, slice_from_app_next by done.
    rewrite setitem_middle by done. cbn [mbind option_bind].
    eexists _, _. split; [reflexivity|].
    eapply (valid_state_intro _ above below (before ++ after));
      simpl; try done.
    + rewrite len_app. lia.
    + apply no_newline_app. split; [done|].
      intros Hin. apply (Hafter (or_intror Hin)).
Qed.

Lemma enter_valid (old_y old_x : Z) (s : EditorState) :
  valid_state s ->
  exists c' s',
    execute (EnterCommand old_y old_x) s = Some (c', s')
    /\ valid_state s'.
Proof.
  intros Hv. open_state s Hv.
  unfold execute. fields.
  rewrite getitem_middle by done. cbn [mbind option_bind].
  rewrite slice_to_app, slice_from_app by done.
  rewrite setitem_middle by done. cbn [mbind option_bind].
  rewrite list_insert_at_middle by done.
  eexists _, _. split; [reflexivity|].
  pose proof (indent_nonneg (before ++ after)) as Hi.
  eapply (valid_state_intro _ (above ++ [before]) below
            (spaces (indent_of (before ++ after)) ++ after)); simpl.
  - by rewrite <- app_assoc.
  - by rewrite len_app.
  - rewrite len_app, length_spaces by done.
    pose proof (len_nonneg after). lia.
  - apply Forall_app. split; [done|]. by constructor.
  - apply no_newline_app. split; [apply no_newline_spaces|done].
  - done.
Qed.

(** X1.  On a document that satisfies the cursor invariants (at least one
    line, no line feed inside a line, the cursor on a line and within it),
    every Move by a non-negative amount, every insertion of a non-empty
    string without a line feed, and every Backspace, Delete-forward and
    Split-line returns without raising and leaves a document that satisfies
    the invariants again. *)
Theorem execute_keeps_valid_state (c : Command) (s : EditorState) :
  valid_state s -> keeps_cursor c ->
  exists c' s', execute c s = Some (c', s') /\ valid_state s'.
Proof.
  intros Hv Hk. destruct c; cbn [keeps_cursor] in Hk.
  - by apply move_valid.
  - destruct Hk. by apply insert_valid.
  - by apply backspace_valid.
  - by apply delete_valid.
  - by apply enter_valid.
  - done.
  - done.
Qed.

(** *** Redo after undo *)

Ltac step_execute :=
  match goal with
  | |- context [getitem ?l ?i] => destruct (getitem l i) eqn:?
  | |- context [setitem ?l ?i ?v] => destruct (setitem l i v) eqn:?
  | |- context [delitem ?l ?i] => destruct (delitem l i) eqn:?
  | |- context [if ?b then _ else _] => destruct b eqn:?
  | |- context [match ?o with Some _ => _ | None => _ end] =>
      destruct o eqn:?
  end; fields.

Ltac replay_execute :=
  repeat match goal with
         | H : ?t = _ |- context [?t] => rewrite H; fields
         end.

Lemma execute_again_all (c : Command) (s : EditorState) :
  match execute c s with
  | Some (c', s1) => execute c' (restored s s1) = Some (c', s1)
  | None => True
  end.
Proof.
  destruct s as [ct y x sc cb ss se im md fp lg ms sp].
  destruct c; unfold execute at 1; fields.
  - repeat step_execute; try done; unfold execute, restored; fields;
      replay_execute; try done;
      destruct ss; simplify_eq; reflexivity.
  - repeat step_execute; try done; unfold execute, restored; fields;
      replay_execute; try done.
  - repeat step_execute; try done; unfold execute, restored; fields;
      replay_execute; try done.
  - repeat step_execute; try done; unfold execute, restored; fields;
      replay_execute; try done.
  - repeat step_execute; try done; unfold execute, restored; fields;
      replay_execute; try done.
  - repeat step_execute; try done; unfold execute, restored; fields;
      replay_execute; try done.
  - repeat step_execute; try done; unfold execute, restored; fields;
      replay_execute; try done.
Qed.

Lemma restorable_execute_undo (c : Command) (s : EditorState) :
  valid_state s -> restorable c s ->
  exists c' s1,
    execute c s = Some (c', s1)
    /\ undo_command c' s1 = Some (restored s s1).
Proof.
  intros Hv Hr. destruct c.
  - destruct (move_restored fix_code beautify direction amount old_y old_x
                s Hv Hr) as (c' & s1 & ? & ? & _). by eexists _, _.
  - destruct (insert_restored fix_code beautify char old_y old_x s Hv Hr)
      as (c' & s1 & ? & ? & _). by eexists _, _.
  - destruct (backspace_restored fix_code beautify old_y old_x deleted_char
                s Hv Hr) as (c' & s1 & ? & ? & _). by eexists _, _.
  - destruct (delete_restored fix_code beautify old_y old_x deleted_char
                s Hv Hr) as (c' & s1 & ? & ? & _). by eexists _, _.
  - destruct (enter_restored fix_code beautify old_y old_x s Hv Hr)
      as (c' & s1 & ? & ? & _). by eexists _, _.
  - destruct (replace_restored fix_code beautify pattern replacement
                case_sensitive old_content s) as (c' & s1 & ? & ? & _).
    by eexists _, _.
  - destruct (format_restored fix_code beautify old_content s)
      as (c' & s1 & ? & ? & _). by eexists _, _.
Qed.

(** X2.  For a valid document and a restorable command, executing the
    command through the history, undoing it and redoing it all return, and
    the redo gives back exactly the handler and the document that the
    execution had left. *)
Theorem redo_after_undo (c : Command) (h : CommandHandler)
  (s : EditorState) :
  valid_state s -> restorable c s ->
  exists hs1 hs2,
    execute_command c (h, s) = Some hs1
    /\ undo hs1 = Some hs2
    /\ redo hs2 = Some hs1.
Proof.
  intros Hv Hr.
  destruct (restorable_execute_undo c s Hv Hr) as (c' & s1 & He & Hu).
  pose proof (execute_again_all c s) as Ha. rewrite He in Ha.
  eexists _, _. split; [|split].
  - unfold execute_command. cbn [fst snd]. rewrite He. reflexivity.
  - unfold undo. cbn [fst snd undo_stack redo_stack].
    rewrite deque_append_cons, Hu. reflexivity.
  - unfold redo. cbn [fst snd undo_stack redo_stack].
    change (deque_append c' []) with [c'].
    cbn match. rewrite Ha. cbn [mbind option_bind fst snd].
    rewrite !deque_append_cons, take_take, Nat.min_id. reflexivity.
Qed.

(** *** The bound of the two stacks *)

Lemma length_deque_append (c : Command) (d : list Command) :
  (length (deque_append c d) <= MAX_UNDO)%nat.
Proof. unfold deque_append. rewrite length_take. lia. Qed.

(** X3.  Neither stack of the handler ever holds more than [MAX_UNDO]
    commands: when both are within the bound, they still are after
    [execute_command], [undo] and [redo]. *)
Theorem history_stays_bounded (c : Command)
  (hs hs' : CommandHandler * EditorState) :
  (length (undo_stack hs.1) <= MAX_UNDO)%nat ->
  (length (redo_stack hs.1) <= MAX_UNDO)%nat ->
  execute_command c hs = Some hs' \/ undo hs = Some hs'
  \/ redo hs = Some hs' ->
  (length (undo_stack hs'.1) <= MAX_UNDO)%nat
  /\ (length (redo_stack hs'.1) <= MAX_UNDO)%nat.
Proof.
  intros Hu Hr [H|[H|H]].
  - unfold execute_command in H.
    destruct (execute c hs.2) as [r|]; cbn [mbind option_bind] in H;
      simplify_eq; cbn [fst snd undo_stack redo_stack].
    split; [apply length_deque_append|simpl; lia].
  - unfold undo in H. destruct (undo_stack hs.1) as [|c0 rest] eqn:E.
    + simplify_eq. split; [rewrite E; simpl; lia|done].
    + destruct (undo_command c0 hs.2) as [s'|];
        cbn [mbind option_bind] in H; simplify_eq;
        cbn [fst snd undo_stack redo_stack].
      split; [simpl in Hu; lia|apply length_deque_append].
  - unfold redo in H. destruct (redo_stack hs.1) as [|c0 rest] eqn:E.
    + simplify_eq. split; [done|rewrite E; simpl; lia].
    + destruct (execute c0 hs.2) as [r|];
        cbn [mbind option_bind] in H; simplify_eq;
        cbn [fst snd undo_stack redo_stack].
      split; [apply length_deque_append|simpl in Hr; lia].
Qed.

(** *** Typing a character and deleting it again *)

(** X4.  Typing one character, in insert mode or at the end of the line,
    and pressing Backspace right after gives back the lines and the cursor
    position; the Backspace records the typed character as the one it
    deleted. *)
Theorem backspace_after_insert (ch : ascii) (s : EditorState) :
  valid_state s ->
  insert_mode s = true \/ cursor_x s = len (cursor_line s) ->
  exists c1 s1 s2,
    execute (new_InsertCommand [ch]) s = Some (c1, s1)
    /\ execute new_BackspaceCommand s1
       = Some (BackspaceCommand (cursor_y s1) (cursor_x s1) [ch], s2)
    /\ content s2 = content s
    /\ cursor_y s2 = cursor_y s /\ cursor_x s2 = cursor_x s.
Proof.
  intros Hv Hmode.
  destruct (valid_state_split s Hv)
    as (above & below & before & after & Hc & Hy & Hx & _).
  assert (Hmode' : insert_mode s = true \/ after = []).
  { destruct Hmode as [?|Hend]; [by left|right].
    rewrite (cursor_line_split s _ _ _ Hc Hy), Hx, len_app in Hend.
    destruct after; [done|]. rewrite len_cons in Hend.
    pose proof (len_nonneg after). lia. }
  pose proof (typed_line_insert (insert_mode s) before [] after ch Hmode')
    as Hline.
  change ([] ++ after) with after in Hline.
  rewrite len_nil, Z.add_0_r, app_nil_r in Hline.
  pose proof (len_nonneg before) as Hb.
  eexists _, _, _. split; [|split].
  - unfold execute, new_InsertCommand. rewrite Hc, Hy, Hx.
    rewrite getitem_middle by done. cbn [mbind option_bind].
    rewrite Hline. rewrite setitem_middle by done. reflexivity.
  - unfold execute, new_BackspaceCommand. fields.
    destruct (0 <? len before + 1) eqn:E; [|lia].
    rewrite getitem_middle by done. cbn [mbind option_bind].
    rewrite getitem_middle by lia. cbn [mbind option_bind].
    rewrite slice_to_app by lia. rewrite slice_from_app_next by lia.
    rewrite setitem_middle by done. reflexivity.
  - fields. rewrite Hc, Hy, Hx. repeat split; (done || lia).
Qed.

(** *** Undo of a split and of a merge *)

Lemma spaces_nil (n : Z) : 0 <= n -> (spaces n = [] <-> n = 0).
Proof.
  intros Hn. unfold spaces. split.
  - intros H. apply (f_equal length) in H.
    rewrite length_replicate in H. simpl in H. lia.
  - by intros ->.
Qed.

(** X5.  Split-line gives the new line the indent of the line it splits and
    puts the cursor behind that indent.  Its undo joins the two lines again
    without taking the copied indent out and puts the cursor back, so the
    lines come back as they were exactly when the line had no indent. *)
Theorem enter_undo_keeps_indent (s : EditorState) :
  valid_state s ->
  exists c' s1 s2 above below before after,
    content s = above ++ (before ++ after) :: below
    /\ cursor_y s = len above /\ cursor_x s = len before
    /\ execute new_EnterCommand s = Some (c', s1)
    /\ content s1
       = above ++ before
           :: (spaces (indent_of (before ++ after)) ++ after) :: below
    /\ cursor_y s1 = cursor_y s + 1
    /\ cursor_x s1 = indent_of (before ++ after)
    /\ undo_command c' s1 = Some s2
    /\ content s2
       = above
           ++ (before ++ spaces (indent_of (before ++ after)) ++ after)
           :: below
    /\ cursor_y s2 = cursor_y s /\ cursor_x s2 = cursor_x s
    /\ (content s2 = content s <-> indent_of (before ++ after) = 0).
Proof.
  intros Hv.
  destruct (valid_state_split s Hv)
    as (above & below & before & after & Hc & Hy & Hx & _).
  set (indent := indent_of (before ++ after)).
  assert (He : execute new_EnterCommand s
               = Some (EnterCommand (cursor_y s) (cursor_x s),
                       clear_selection
                         (set_is_modified
                            (set_cursor_x
                               (set_cursor_y
                                  (set_content s
                                     (above ++ before
                                      :: (spaces indent ++ after) :: below))
                                  (cursor_y s + 1)) indent) true))).
  { unfold execute, new_EnterCommand. rewrite Hc, Hy, Hx.
    rewrite getitem_middle by done. cbn [mbind option_bind].
    rewrite slice_to_app, slice_from_app by done.
    rewrite setitem_middle by done. cbn [mbind option_bind].
    rewrite list_insert_at_middle by done. reflexivity. }
  eexists _, _, _, above, below, before, after.
  split; [done|]. split; [done|]. split; [done|]. split; [exact He|].
  split; [reflexivity|]. split; [reflexivity|]. split; [reflexivity|].
  split.
  - unfold undo_command. fields. rewrite Hy.
    rewrite (getitem_middle above ((spaces indent ++ after) :: below) before
               (len above + 1 - 1)) by lia.
    cbn [mbind option_bind].
    rewrite getitem_middle_next by done. cbn [mbind option_bind].
    rewrite setitem_middle by lia. cbn [mbind option_bind].
    rewrite delitem_middle_next by done. reflexivity.
  - fields. split; [done|]. rewrite Hy. split; [done|]. split; [done|].
    rewrite Hc. split.
    + intros H. apply app_inv_head in H. injection H as H.
      apply app_inv_head in H.
      rewrite <- (app_nil_l after) in H at 2. apply app_inv_tail in H.
      by apply spaces_nil in H; [|apply indent_nonneg].
    + intros H. fold indent in H. by rewrite H.
Qed.

Lemma join_lines_cons (l : pystr) (ls : list pystr) :
  ls <> [] -> join_lines (l :: ls) = l ++ LF ++ join_lines ls.
Proof. destruct ls; done. Qed.

Lemma join_lines_app (above rest : list pystr) :
  rest <> [] ->
  join_lines (above ++ rest)
  = flat_map (fun a => a ++ LF) above ++ join_lines rest.
Proof.
  intros Hr. induction above as [|a above IH]; [done|].
  change ((a :: above) ++ rest) with (a :: (above ++ rest)).
  rewrite join_lines_cons by (by destruct above, rest).
  rewrite IH. cbn [flat_map]. by rewrite <- !app_assoc.
Qed.

(** X6.  Backspace at the start of a line that is not the first joins the
    line to the one above and puts the cursor at the joint.  Its undo puts
    a line-feed character into the joined line instead of splitting it: the
    document keeps one line less, its text, the lines joined by line feeds,
    is as before, and the cursor is given its old row and column 0. *)
Theorem backspace_merge_undo (s : EditorState) :
  valid_state s -> cursor_x s = 0 -> 0 < cursor_y s ->
  exists c' s1 s2 above prev cur below,
    content s = above ++ prev :: cur :: below
    /\ cursor_y s = len above + 1
    /\ execute new_BackspaceCommand s = Some (c', s1)
    /\ content s1 = above ++ (prev ++ cur) :: below
    /\ cursor_y s1 = len above /\ cursor_x s1 = len prev
    /\ undo_command c' s1 = Some s2
    /\ content s2 = above ++ (prev ++ LF ++ cur) :: below
    /\ cursor_y s2 = cursor_y s /\ cursor_x s2 = 0
    /\ join_lines (content s2) = join_lines (content s).
Proof.
  intros Hv Hx0 Hy0.
  destruct (valid_state_split s Hv)
    as (above0 & below & before & cur & Hc & Hy & Hx & _).
  assert (before = []) as ->.
  { destruct before; [done|]. rewrite Hx0, len_cons in Hx.
    pose proof (len_nonneg before). lia. }
  cbn [app] in Hc.
  destruct (list_snoc_cases above0) as [->|(above & prev & ->)].
  { rewrite Hy in Hy0. by vm_compute in Hy0. }
  rewrite <- app_assoc in Hc. cbn [app] in Hc.
  rewrite len_app, len_cons, len_nil, Z.add_0_r in Hy.
  pose proof (len_nonneg above) as Ha. pose proof (len_nonneg prev) as Hp.
  assert (He : execute new_BackspaceCommand s
               = Some (BackspaceCommand (cursor_y s) (cursor_x s) LF,
                       clear_selection
                         (set_is_modified
                            (set_cursor_y
                               (set_content
                                  (set_cursor_x s (len prev))
                                  (above ++ (prev ++ cur) :: below))
                               (cursor_y s - 1)) true))).
  { unfold execute, new_BackspaceCommand. rewrite Hx0. cbn [Z.ltb Z.compare].
    destruct (0 <? cursor_y s) eqn:E; [|lia]. rewrite Hc, Hy.
    rewrite (getitem_middle above (cur :: below) prev (len above + 1 - 1))
      by lia.
    cbn [mbind option_bind].
    rewrite getitem_middle_next by done. cbn [mbind option_bind].
    rewrite setitem_middle by lia. cbn [mbind option_bind].
    rewrite delitem_middle_next by done. reflexivity. }
  eexists _, _, _, above, prev, cur, below.
  split; [done|]. split; [done|]. split; [exact He|].
  split; [reflexivity|]. split; [fields; lia|]. split; [reflexivity|].
  split.
  - unfold undo_command. fields.
    rewrite (getitem_middle above below (prev ++ cur) (cursor_y s - 1))
      by lia.
    cbn [mbind option_bind]. change (str_eqb LF LF) with true. cbn match.
    rewrite slice_to_app, slice_from_app by done.
    rewrite setitem_middle by lia. reflexivity.
  - fields. split; [done|]. split; [lia|]. split; [done|].
    rewrite Hc, !join_lines_app by done.
    f_equal. destruct below as [|b below]; [done|].
    rewrite (join_lines_cons (prev ++ LF ++ cur)) by done.
    rewrite (join_lines_cons prev), (join_lines_cons cur) by done.
    by rewrite <- !app_assoc.
Qed.

(** X7.  Backspace at the start of a line that is not the first leaves the
    same document state as Delete-forward does from the end of the line
    above, and that state satisfies the cursor invariants. *)
Theorem backspace_merge_is_delete (s : EditorState) :
  valid_state s -> cursor_x s = 0 -> 0 < cursor_y s ->
  exists prev c1 c2 s',
    content s !! Z.to_nat (cursor_y s - 1) = Some prev
    /\ execute new_BackspaceCommand s = Some (c1, s')
    /\ execute new_DeleteCommand
         (set_cursor_x (set_cursor_y s (cursor_y s - 1)) (len prev))
       = Some (c2, s')
    /\ valid_state s'.
Proof.
  intros Hv Hx0 Hy0.
  destruct (valid_state_split_all s Hv)
    as (above0 & below & before & cur & Hc & Hy & Hx & Habove & Hbelow
        & _ & Hcur).
  assert (before = []) as ->.
  { destruct before; [done|]. rewrite Hx0, len_cons in Hx.
    pose proof (len_nonneg before). lia. }
  cbn [app] in Hc.
  destruct (list_snoc_cases above0) as [->|(above & prev & ->)].
  { rewrite Hy in Hy0. by vm_compute in Hy0. }
  rewrite <- app_assoc in Hc. cbn [app] in Hc.
  rewrite len_app, len_cons, len_nil, Z.add_0_r in Hy.
  pose proof (len_nonneg above) as Ha. pose proof (len_nonneg prev) as Hp.
  pose proof (len_nonneg below) as Hb.
  apply Forall_app in Habove as [Habove Hprev].
  apply Forall_cons in Hprev as [Hprev _].
  exists prev. eexists _, _, _. split; [|split; [|split]].
  - rewrite Hc, Hy. replace (Z.to_nat (len above + 1 - 1)) with (length above)
      by (unfold len; lia).
    by rewrite list_lookup_middle.
  - unfold execute, new_BackspaceCommand. rewrite Hx0. cbn [Z.ltb Z.compare].
    destruct (0 <? cursor_y s) eqn:E; [|lia]. rewrite Hc, Hy.
    rewrite (getitem_middle above (cur :: below) prev (len above + 1 - 1))
      by lia.
    cbn [mbind option_bind].
    rewrite getitem_middle_next by done. cbn [mbind option_bind].
    rewrite setitem_middle by lia. cbn [mbind option_bind].
    rewrite delitem_middle_next by done. reflexivity.
  - unfold execute, new_DeleteCommand. fields. rewrite Hc, Hy.
    rewrite (getitem_middle above (cur :: below) prev (len above + 1 - 1))
      by lia.
    cbn [mbind option_bind]. rewrite Z.ltb_irrefl.
    destruct (len above + 1 - 1 <? len (above ++ prev :: cur :: below) - 1)
      eqn:E.
    2:{ apply Z.ltb_ge in E. rewrite len_app, !len_cons in E. lia. }
    rewrite (getitem_middle_next above below prev cur (len above + 1 - 1 + 1))
      by lia.
    cbn [mbind option_bind].
    rewrite setitem_middle by lia. cbn [mbind option_bind].
    rewrite (delitem_middle_next above below (prev ++ cur) cur
               (len above + 1 - 1 + 1)) by lia.
    cbn [mbind option_bind fst snd]. reflexivity.
  - apply (valid_state_intro _ above below (prev ++ cur)); fields; try done.
    + lia.
    + rewrite len_app. pose proof (len_nonneg cur). lia.
    + by apply no_newline_app.
Qed.

End MoreEngine.

(** *** Clamping the cursor *)

(** X8.  On a content with at least one line,
    [ensure_valid_cursor_position] returns, leaves the lines as they are and
    puts the cursor on a line and within it; a row that was on a line is
    kept, and a state that satisfies the cursor invariants is left as it
    is. *)
Theorem ensure_valid_cursor_clamps (s : EditorState) :
  content s <> [] ->
  exists s' line,
    ensure_valid_cursor_position s = Some s'
    /\ content s' = content s
    /\ 0 <= cursor_y s' < len (content s)
    /\ content s !! Z.to_nat (cursor_y s') = Some line
    /\ 0 <= cursor_x s' <= len line
    /\ (0 <= cursor_y s < len (content s) -> cursor_y s' = cursor_y s)
    /\ (valid_state s -> s' = s).
Proof.
  intros Hne. unfold ensure_valid_cursor_position.
  assert (Hlen : 0 < len (content s)).
  { destruct (content s) as [|first rest]; [done|]. rewrite len_cons.
    pose proof (len_nonneg rest). lia. }
  set (y := Z.max 0 (Z.min (cursor_y s) (len (content s) - 1))).
  assert (Hy : 0 <= y < len (content s)) by (subst y; lia).
  rewrite getitem_in_range by done.
  destruct (content s !! Z.to_nat y) as [line|] eqn:El.
  2:{ apply lookup_ge_None in El. unfold len in Hy. lia. }
  cbn [mbind option_bind]. eexists _, line. split; [reflexivity|].
  pose proof (len_nonneg line) as Hl.
  split; [done|]. split; [done|]. split; [done|].
  split; [cbn [cursor_x set_cursor_x]; lia|].
  split; [cbn [cursor_y set_cursor_x set_cursor_y]; subst y; lia|].
  intros [Hrow (line' & Hline' & Hcol) _].
  assert (y = cursor_y s) as Hyy by (subst y; lia).
  rewrite Hyy in El. rewrite El in Hline'. injection Hline' as <-.
  rewrite Hyy.
  assert (Z.max 0 (Z.min (cursor_x s) (len line)) = cursor_x s) as ->
    by lia.
  by destruct s.
Qed.

(** ** Navigation in the matches and in the search history *)

Section MatchNavigation.

Import Search.

Lemma len_pos {A} (l : list A) : l <> [] -> 0 < len l.
Proof.
  destruct l as [|a l]; [done|]. intros _. rewrite len_cons.
  pose proof (len_nonneg l). lia.
Qed.

Lemma getitem_is_Some {A} (l : list A) (i : Z) :
  0 <= i < len l -> exists a, getitem l i = Some a /\ l !! Z.to_nat i = Some a.
Proof.
  intros Hi. rewrite getitem_in_range by done.
  destruct (l !! Z.to_nat i) as [a|] eqn:E; [by exists a|].
  apply lookup_ge_None in E. unfold len in Hi. lia.
Qed.

(** X9.  While there are matches, [next_match] and [previous_match] return
    a match of the list, the one at the index they leave in
    [current_match], and that index lies within the list; the list of
    matches is left as it is. *)
Theorem match_navigation_lands_on_a_match (s : SearchState) :
  matches s <> [] ->
  (exists m,
      (next_match s).2 = Some (Some m)
      /\ matches (next_match s).1 = matches s
      /\ 0 <= current_match (next_match s).1 < len (matches s)
      /\ matches s !! Z.to_nat (current_match (next_match s).1) = Some m)
  /\ (exists m,
         (previous_match s).2 = Some (Some m)
         /\ matches (previous_match s).1 = matches s
         /\ 0 <= current_match (previous_match s).1 < len (matches s)
         /\ matches s !! Z.to_nat (current_match (previous_match s).1)
            = Some m).
Proof.
  intros Hne. pose proof (len_pos _ Hne) as Hlen.
  unfold next_match, previous_match.
  destruct (matches s) as [|m0 ms] eqn:E; [done|].
  cbn [fst snd matches current_match set_current_match]. rewrite E.
  split.
  - pose proof (Z.mod_pos_bound (current_match s + 1) _ Hlen) as Hb.
    destruct (getitem_is_Some (m0 :: ms) _ Hb) as (m & Hg & Hl).
    exists m. rewrite Hg. done.
  - pose proof (Z.mod_pos_bound (current_match s - 1) _ Hlen) as Hb.
    destruct (getitem_is_Some (m0 :: ms) _ Hb) as (m & Hg & Hl).
    exists m. rewrite Hg. done.
Qed.

(** X10.  With the current match within the list, [previous_match] takes
    back [next_match] and [next_match] takes back [previous_match]: the
    state is as it was. *)
Theorem match_navigation_round_trip (s : SearchState) :
  matches s <> [] -> 0 <= current_match s < len (matches s) ->
  (previous_match (next_match s).1).1 = s
  /\ (next_match (previous_match s).1).1 = s.
Proof.
  intros Hne Hc. unfold next_match, previous_match.
  destruct (matches s) as [|m0 ms] eqn:E; [done|].
  cbn [fst snd matches current_match set_current_match]. rewrite E.
  cbn [fst snd matches current_match set_current_match].
  rewrite Zminus_mod_idemp_l, Zplus_mod_idemp_l.
  replace (current_match s + 1 - 1) with (current_match s) by lia.
  replace (current_match s - 1 + 1) with (current_match s) by lia.
  rewrite (Z.mod_small (current_match s)) by done.
  unfold set_current_match. destruct s; simpl in *. by rewrite E.
Qed.

(** X11.  From the initial index [-1] and with at least two matches,
    [next_match] goes to the first match, and [previous_match] goes to the
    last match but one, not to the last. *)
Theorem previous_match_from_fresh (s : SearchState) :
  current_match s = -1 -> 2 <= len (matches s) ->
  current_match (previous_match s).1 = len (matches s) - 2
  /\ current_match (next_match s).1 = 0.
Proof.
  intros Hc Hlen. unfold next_match, previous_match.
  destruct (matches s) as [|m0 ms] eqn:E; [by vm_compute in Hlen|].
  cbn [fst snd matches current_match set_current_match]. rewrite Hc.
  split.
  - replace (-1 - 1) with (-2) by lia.
    rewrite <- (Z.mod_add _ 1) by lia. rewrite Z.mod_small; lia.
  - replace (-1 + 1) with 0 by lia. apply Z.mod_0_l. lia.
Qed.

End MatchNavigation.

Section HistoryNavigation.

Import Search.

Lemma add_to_history_cases (s : SearchState) (p : pystr) :
  (add_to_history s p = s /\ (p = [] \/ p = last_search s))
  \/ (p <> [] /\ p <> last_search s
      /\ add_to_history s p
         = set_history s p (search_history s ++ [p])
             (len (search_history s ++ [p]) - 1)).
Proof.
  unfold add_to_history. destruct p as [|c p]; [left; by split; [|left]|].
  destruct (str_eqb (c :: p) (last_search s)) eqn:E; simpl.
  - left. split; [done|right]. by apply str_eqb_eq.
  - right. by apply str_eqb_neq in E.
Qed.

(** X12.  While the replay index of the search history is [-1] or points at
    an entry, [add_to_history], [get_previous_search] and [get_next_search]
    keep it so, and the two navigation calls do not raise. *)
Theorem history_navigation_safe (s : SearchState) (p : pystr) :
  history_ok s ->
  history_ok (add_to_history s p)
  /\ history_ok (get_previous_search s).1
  /\ history_ok (get_next_search s).1
  /\ (get_previous_search s).2 <> None
  /\ (get_next_search s).2 <> None.
Proof.
  unfold history_ok. intros Hok. split; [|split; [|split; [|split]]].
  - destruct (add_to_history_cases s p) as [[-> _]|(_ & _ & ->)]; [done|].
    cbn [history_index search_history set_history].
    rewrite len_app, len_cons, len_nil.
    pose proof (len_nonneg (search_history s)). lia.
  - unfold get_previous_search.
    destruct (0 <? history_index s) eqn:E; cbn [fst]; [|done].
    cbn [history_index search_history set_history]. lia.
  - unfold get_next_search.
    destruct (history_index s <? len (search_history s) - 1) eqn:E;
      cbn [fst]; [|done].
    cbn [history_index search_history set_history]. lia.
  - unfold get_previous_search.
    destruct (0 <? history_index s) eqn:E; cbn [snd]; [|done].
    cbn [history_index search_history set_history].
    destruct (getitem_is_Some (search_history s) (history_index s - 1))
      as (a & -> & _); [lia|done].
  - unfold get_next_search.
    destruct (history_index s <? len (search_history s) - 1) eqn:E;
      cbn [snd]; [|done].
    cbn [history_index search_history set_history].
    destruct (getitem_is_Some (search_history s) (history_index s + 1))
      as (a & -> & _); [lia|done].
Qed.

(** X13.  When the replay index is above 0, [get_previous_search] returns the
    entry before the current one, and [get_next_search] right after it
    returns the current entry and leaves the state as it was before the two
    calls. *)
Theorem history_previous_then_next (s : SearchState) :
  history_ok s -> 0 < history_index s ->
  exists older current,
    search_history s !! Z.to_nat (history_index s - 1) = Some older
    /\ search_history s !! Z.to_nat (history_index s) = Some current
    /\ (get_previous_search s).2 = Some (Some older)
    /\ get_next_search (get_previous_search s).1
       = (s, Some (Some current)).
Proof.
  unfold history_ok. intros Hok Hpos.
  destruct (getitem_is_Some (search_history s) (history_index s - 1))
    as (older & Ho & Hol); [lia|].
  destruct (getitem_is_Some (search_history s) (history_index s))
    as (current & Hc & Hcl); [lia|].
  exists older, current. split; [done|]. split; [done|].
  unfold get_previous_search.
  destruct (0 <? history_index s) eqn:E; [|lia]. cbn [fst snd].
  cbn [history_index search_history set_history]. rewrite Ho.
  split; [done|]. unfold get_next_search.
  cbn [history_index search_history set_history last_search].
  destruct (history_index s - 1 <? len (search_history s) - 1) eqn:E2;
    [|lia].
  cbn [history_index search_history set_history last_search].
  replace (history_index s - 1 + 1) with (history_index s) by lia.
  rewrite Hc. by destruct s.
Qed.

Lemma adjacent_distinct_snoc (l : list pystr) (p : pystr) :
  adjacent_distinct l -> (l = [] \/ exists q, last l = Some q /\ q <> p) ->
  adjacent_distinct (l ++ [p]).
Proof.
  intros Hd Hlast i a b Ha Hb.
  destruct (decide (S i < length l)%nat) as [Hlt|Hge].
  - rewrite lookup_app_l in Ha by lia. rewrite lookup_app_l in Hb by done.
    by eapply Hd.
  - assert (S i = length l) as Hi.
    { apply lookup_lt_Some in Hb. rewrite length_app in Hb. simpl in Hb.
      lia. }
    rewrite Hi in Hb. rewrite lookup_app_r in Hb by lia.
    rewrite Nat.sub_diag in Hb. injection Hb as <-.
    rewrite lookup_app_l in Ha by lia.
    destruct Hlast as [->|(q & Hq & Hne)]; [done|].
    rewrite last_lookup in Hq. rewrite <- Hi in Hq. simpl in Hq.
    rewrite Ha in Hq. by injection Hq as ->.
Qed.

Lemma add_to_history_well_formed (s : SearchState) (p : pystr) :
  history_well_formed s -> history_well_formed (add_to_history s p).
Proof.
  intros (Hne & Hd & Hl).
  destruct (add_to_history_cases s p) as [[-> _]|(Hp & Hlast & ->)];
    [done|].
  unfold history_well_formed. cbn [search_history last_search set_history].
  split; [|split].
  - apply Forall_app. split; [done|]. by constructor.
  - apply adjacent_distinct_snoc; [done|].
    destruct Hl as [?|Hl]; [by left|right].
    exists (last_search s). split; [done|]. congruence.
  - right. by rewrite last_snoc.
Qed.

(** X14.  The search history that [add_to_history] calls build from a new
    state holds no empty pattern and no two equal neighbours. *)
Theorem history_has_no_repeated_neighbours (ps : list pystr) :
  Forall (fun p => p <> []) (search_history (add_all new_SearchState ps))
  /\ adjacent_distinct (search_history (add_all new_SearchState ps)).
Proof.
  assert (H : history_well_formed (add_all new_SearchState ps)).
  { unfold add_all.
    assert (H0 : history_well_formed new_SearchState).
    { split; [constructor|]. split; [|by left]. by intros i a b Ha. }
    revert H0. generalize new_SearchState.
    induction ps as [|p ps IH]; intros s Hs; [done|].
    simpl. apply IH. by apply add_to_history_well_formed. }
  destruct H as (? & ? & _). done.
Qed.

End HistoryNavigation.

(** ** Literal search and replacement *)

Lemma startswith_length (p : pystr) : forall s,
  startswith s p = true -> (length p <= length s)%nat.
Proof.
  induction p as [|a p IH]; intros [|b s] H; simpl in *; try done; try lia.
  apply andb_true_iff in H as [_ H]. apply IH in H. lia.
Qed.

Lemma startswith_prefix (p : pystr) : forall s,
  startswith s p = true -> s = p ++ drop (length p) s.
Proof.
  induction p as [|a p IH]; intros [|b s] H; simpl in *; try done.
  apply andb_true_iff in H as [Hc H]. apply chr_eqb_eq in Hc as ->.
  f_equal. by apply IH.
Qed.

Lemma lower_nonempty (p : pystr) : p <> [] -> lower p <> [].
Proof. by destruct p. Qed.

Lemma whole_word_at_occurrence (line p : pystr) (x : nat) :
  (x + length p <= length line)%nat ->
  whole_word_at line (Z.of_nat x) (Z.of_nat x + len p)
  = Some (word_bounded line p x).
Proof.
  intros Hx. unfold whole_word_at, word_bounded, not_alnum_at.
  assert (Z.of_nat x + len p = Z.of_nat (x + length p)) as -> by (unfold len; lia).
  assert (Hafter :
    (if Z.of_nat (x + length p) =? len line then Some true
     else c ← getitem line (Z.of_nat (x + length p)); Some (negb (isalnum c)))
    = Some match line !! (x + length p)%nat with
           | Some c => negb (isalnum c)
           | None => true
           end).
  { destruct (Z.of_nat (x + length p) =? len line) eqn:E.
    - apply Z.eqb_eq in E. unfold len in E.
      rewrite lookup_ge_None_2 by lia. done.
    - apply Z.eqb_neq in E. unfold len in E.
      rewrite getitem_in_range by (unfold len; lia). rewrite Nat2Z.id.
      destruct (lookup_lt_is_Some_2 line (x + length p)%nat) as [c ->];
        [lia|done]. }
  destruct x as [|k].
  - cbn [Z.of_nat Z.eqb mbind option_bind andb]. apply Hafter.
  - destruct (Z.of_nat (S k) =? 0) eqn:E; [apply Z.eqb_eq in E; lia|].
    rewrite (getitem_in_range line (Z.of_nat (S k) - 1))
      by (unfold len; lia).
    replace (Z.to_nat (Z.of_nat (S k) - 1)) with k by lia.
    destruct (lookup_lt_is_Some_2 line k) as [c ->]; [lia|].
    cbn [mbind option_bind]. destruct (isalnum c); cbn [negb andb]; [done|].
    apply Hafter.
Qed.

Lemma scan_literal_starts (whole_word : bool) (line p : pystr) (y : Z) :
  forall (turns start : nat),
    (start <= length line + 1)%nat ->
    (length line + 2 - start <= turns)%nat ->
    scan_literal turns line p whole_word y (Z.of_nat start)
    = Some (map (fun x => (y, Z.of_nat x))
              (List.filter
                 (fun x => startswith (drop x line) p
                           && (if whole_word then word_bounded line p x
                               else true))
                 (seq start (S (length line) - start)))).
Proof.
  induction turns as [|turns IH]; intros start Hs Ht; [lia|].
  cbn [scan_literal]. unfold find, slice_index.
  destruct (Z.of_nat start <? 0) eqn:E0; [lia|]. rewrite Nat2Z.id.
  destruct (length line <? start)%nat eqn:E1.
  - apply Nat.ltb_lt in E1. simpl.
    replace (S (length line) - start)%nat with 0%nat by lia. done.
  - apply Nat.ltb_ge in E1.
    destruct (find_from_spec p (drop start line) (Z.of_nat start))
      as [[Hn Hall]|(k & Hk & Hf & Hocc & Hlt)]; [lia| |].
    + rewrite Hn. simpl. rewrite filter_none; [done|].
      intros x Hx. apply in_seq in Hx.
      replace x with (start + (x - start))%nat by lia.
      rewrite <- drop_drop, Hall; [done|]. rewrite length_drop. lia.
    + rewrite length_drop in Hk. rewrite Hf.
      destruct (Z.of_nat start + Z.of_nat k =? -1) eqn:E2; [lia|].
      replace (Z.of_nat start + Z.of_nat k) with (Z.of_nat (start + k)) by lia.
      replace (Z.of_nat (start + k) + 1)
        with (Z.of_nat (start + k + 1)) by lia.
      rewrite IH by lia.
      pose proof Hocc as Hlen. apply startswith_length in Hlen.
      rewrite !length_drop in Hlen.
      assert (Hhere :
        (if whole_word
         then ok ← whole_word_at line (Z.of_nat (start + k))
                     (Z.of_nat (start + k) + len p);
              Some (if ok : bool then [(y, Z.of_nat (start + k))] else [])
         else Some [(y, Z.of_nat (start + k))])
        = Some (map (fun x => (y, Z.of_nat x))
                  (List.filter
                     (fun x => startswith (drop x line) p
                               && (if whole_word then word_bounded line p x
                                   else true))
                     [(start + k)%nat]))).
      { cbn [List.filter]. rewrite <- drop_drop, Hocc. cbn [andb].
        destruct whole_word; [|done].
        rewrite whole_word_at_occurrence by lia. cbn [mbind option_bind].
        by destruct (word_bounded line p (start + k)). }
      rewrite Hhere. cbn [mbind option_bind]. f_equal.
      rewrite <- map_app. f_equal.
      replace (S (length line) - start)%nat
        with (k + (1 + (S (length line) - (start + k + 1))))%nat by lia.
      rewrite seq_app, List.filter_app.
      rewrite (filter_none _ (seq start k)).
      2:{ intros x Hx. apply in_seq in Hx.
          replace x with (start + (x - start))%nat by lia.
          rewrite <- drop_drop, Hlt; [done|]. lia. }
      rewrite seq_app, List.filter_app. cbn [app]. do 2 f_equal.
Qed.

Lemma scan_literal_row (whole_word : bool) (line p : pystr) (y : Z) :
  scan_literal (length line + 2) line p whole_word y 0
  = Some (map (fun x => (y, Z.of_nat x)) (literal_starts whole_word line p)).
Proof.
  rewrite (scan_literal_starts whole_word line p y _ 0) by lia.
  by rewrite Nat.sub_0_r.
Qed.

Lemma scan_rows_seq (scan : pystr -> Z -> option (list (Z * Z)))
  (g : nat -> pystr -> list (Z * Z)) (content : list pystr) :
  (forall y line, scan line (Z.of_nat y) = Some (g y line)) ->
  forall (n a : nat),
    (a + n <= length content)%nat ->
    scan_rows scan content (map Z.of_nat (seq a n))
    = Some (flat_map
              (fun y => match content !! y with
                        | Some line => g y line
                        | None => []
                        end)
              (seq a n)).
Proof.
  intros Hscan. induction n as [|n IH]; intros a Ha; [done|].
  cbn [seq map scan_rows flat_map].
  rewrite getitem_in_range by (unfold len; lia). rewrite Nat2Z.id.
  destruct (lookup_lt_is_Some_2 content a) as [line ->]; [lia|].
  cbn [mbind option_bind]. rewrite Hscan. cbn [mbind option_bind].
  rewrite IH by lia. done.
Qed.


Lemma range_seq (a n : nat) :
  range (Z.of_nat a) (Z.of_nat (a + n)) = map Z.of_nat (seq a n).
Proof.
  unfold range.
  replace (Z.to_nat (Z.of_nat (a + n) - Z.of_nat a)) with n by lia.
  assert (H : forall k,
             map (fun i : nat => Z.of_nat a + Z.of_nat i) (seq k n)
             = map Z.of_nat (seq (a + k) n)).
  { induction n as [|n IH]; intros k; [done|]. simpl. f_equal; [lia|].
    rewrite <- Nat.add_succ_r. apply IH. }
  by rewrite H, Nat.add_0_r.
Qed.

Lemma in_literal_matches (whole_word : bool) (content : list pystr)
  (pattern : pystr) (ys : list nat) (y x : Z) :
  In (y, x) (literal_matches whole_word content pattern ys)
  <-> exists (i j : nat) line,
        y = Z.of_nat i /\ x = Z.of_nat j /\ In i ys
        /\ content !! i = Some line
        /\ In j (literal_starts whole_word line pattern).
Proof.
  unfold literal_matches. rewrite in_flat_map. split.
  - intros (i & Hi & Hin). destruct (content !! i) as [line|] eqn:E; [|done].
    apply in_map_iff in Hin as (j & [= <- <-] & Hj). by exists i, j, line.
  - intros (i & j & line & -> & -> & Hi & E & Hj). exists i.
    split; [done|]. rewrite E. apply in_map_iff. by exists j.
Qed.

Section MoreSearch.

Context (regex_t : Type)
  (re_compile : pystr -> bool -> compile_result regex_t)
  (re_finditer : regex_t -> pystr -> list (Z * Z)).

Lemma search_text_literal (content : list pystr) (pattern : pystr)
  (start_y start_x : Z) (case_sensitive whole_word : bool)
  (search_in_selection : bool) (selection_start selection_end : option (Z * Z))
  (a n : nat) :
  pattern <> [] ->
  match search_in_selection, selection_start, selection_end with
  | true, Some p, Some q =>
      Z.min p.1 q.1 = Z.of_nat a /\ Z.max p.1 q.1 = Z.of_nat (a + n)
      /\ (a + n <= length content)%nat
  | _, _, _ => a = 0%nat /\ n = length content
  end ->
  search_text regex_t re_compile re_finditer content pattern start_y start_x
    case_sensitive whole_word false search_in_selection selection_start
    selection_end
  = Some (literal_matches whole_word
            (if case_sensitive then content else map lower content)
            (if case_sensitive then pattern else lower pattern)
            (seq a n)).
Proof.
  intros Hp Hrows. unfold search_text.
  destruct pattern as [|c p]; [done|]. cbn match.
  set (content' := if case_sensitive then content else map lower content).
  assert (Hlen : length content' = length content).
  { unfold content'. destruct case_sensitive; [done|]. by rewrite length_map. }
  assert (Hr :
    match search_in_selection, selection_start, selection_end with
    | true, Some p, Some q => range (Z.min p.1 q.1) (Z.max p.1 q.1)
    | _, _, _ => range 0 (len content')
    end = map Z.of_nat (seq a n) /\ (a + n <= length content')%nat).
  { rewrite Hlen.
    assert (Hall : a = 0%nat /\ n = length content ->
              range 0 (len content') = map Z.of_nat (seq a n)
              /\ (a + n <= length content)%nat).
    { intros [-> ->]. split; [|done]. unfold len. rewrite Hlen.
      apply (range_seq 0). }
    destruct search_in_selection; [|by apply Hall].
    destruct selection_start as [p0|]; [|by apply Hall].
    destruct selection_end as [q0|]; [|by apply Hall].
    destruct Hrows as (-> & -> & Hle). split; [apply range_seq|done]. }
  destruct Hr as [-> Hle].
  apply (scan_rows_seq _
           (fun y line =>
              map (fun x => (Z.of_nat y, Z.of_nat x))
                (literal_starts whole_word line
                   (if case_sensitive then c :: p else lower (c :: p))))).
  - intros y line. apply scan_literal_row.
  - done.
Qed.

(** X15.  A literal whole-word search over the whole document returns, and
    reports exactly the occurrences of the pattern that have no
    alphanumeric character next to them on either side, row by row and from
    left to right; without case sensitivity, the occurrences of the
    lower-cased pattern in the lower-cased lines. *)
Theorem search_whole_word (content : list pystr) (pattern : pystr)
  (start_y start_x : Z) (case_sensitive : bool)
  (selection_start selection_end : option (Z * Z)) :
  pattern <> [] ->
  search_text regex_t re_compile re_finditer content pattern start_y start_x
    case_sensitive true false false selection_start selection_end
  = Some (literal_matches true
            (if case_sensitive then content else map lower content)
            (if case_sensitive then pattern else lower pattern)
            (seq 0 (length content))).
Proof.
  intros Hp. by apply search_text_literal.
Qed.

(** X16.  A literal search within a selection whose rows lie in the document
    returns, and reports the matches of the whole-document search on the
    rows from the first selected row up to, but not including, the last
    one: the last row of the selection is never searched. *)
Theorem search_in_selection_rows (content : list pystr) (pattern : pystr)
  (start_y start_x : Z) (case_sensitive whole_word : bool)
  (p q : Z * Z) :
  0 <= Z.min p.1 q.1 -> Z.max p.1 q.1 <= len content ->
  exists inside everywhere,
    search_text regex_t re_compile re_finditer content pattern start_y
      start_x case_sensitive whole_word false true (Some p) (Some q)
    = Some inside
    /\ search_text regex_t re_compile re_finditer content pattern start_y
         start_x case_sensitive whole_word false false (Some p) (Some q)
       = Some everywhere
    /\ forall y x,
         In (y, x) inside
         <-> Z.min p.1 q.1 <= y < Z.max p.1 q.1 /\ In (y, x) everywhere.
Proof.
  intros Hlo Hhi. destruct pattern as [|c pat].
  { exists [], []. repeat split; try done. by intros []. }
  set (a := Z.to_nat (Z.min p.1 q.1)).
  set (n := Z.to_nat (Z.max p.1 q.1 - Z.min p.1 q.1)).
  eexists _, _. split; [|split].
  - apply (search_text_literal _ _ _ _ _ _ true (Some p) (Some q) a n);
      [done|]. unfold len in Hhi. cbn match. lia.
  - by apply (search_text_literal _ _ _ _ _ _ false (Some p) (Some q) 0
                (length content)).
  - intros y x. rewrite !in_literal_matches. split.
    + intros (i & j & line & -> & -> & Hi & E & Hj). apply in_seq in Hi.
      split; [lia|]. exists i, j, line. repeat split; try done.
      apply in_seq. apply lookup_lt_Some in E.
      destruct case_sensitive; [|rewrite length_map in E]; lia.
    + intros (Hy & i & j & line & -> & -> & Hi & E & Hj).
      exists i, j, line. repeat split; try done. apply in_seq. lia.
Qed.

(** X17.  When a literal, case-sensitive search of the document finds
    nothing, replacing the pattern leaves every line as it is. *)
Theorem replace_without_match (content : list pystr)
  (pattern replacement : pystr) (start_y start_x : Z)
  (selection_start selection_end : option (Z * Z)) :
  pattern <> [] ->
  search_text regex_t re_compile re_finditer content pattern start_y start_x
    true false false false selection_start selection_end
  = Some [] ->
  replace_text content pattern replacement true = content.
Proof.
  intros Hp. rewrite (search_text_literal _ _ _ _ _ _ _ _ _ 0 (length content))
    by done.
  intros [= Hnone]. unfold replace_text.
  rewrite <- (map_id content) at 2. apply map_ext_in. intros line Hline.
  apply replace_no_occurrence. intros k.
  destruct (startswith (drop k line) pattern) eqn:E; [exfalso|done].
  apply list_elem_of_In, list_elem_of_lookup in Hline as [i Hi].
  assert (Hin : In (Z.of_nat i, Z.of_nat k)
                  (literal_matches false content pattern
                     (seq 0 (length content)))).
  { apply in_literal_matches. exists i, k, line. repeat split; try done.
    - apply in_seq. apply lookup_lt_Some in Hi. lia.
    - unfold literal_starts. apply filter_In. split.
      + apply in_seq. apply startswith_length in E.
        destruct (decide (k <= length line)%nat); [lia|].
        rewrite drop_ge in E by lia. destruct pattern; simpl in E; [done|lia].
      + by rewrite E. }
  by rewrite Hnone in Hin.
Qed.

Lemma replace_scan_self (old : pystr) : old <> [] ->
  forall (s : pystr) (k : nat), replace_scan old old k s = drop k s.
Proof.
  intros Hold. induction s as [|c s IH]; intros k; [by destruct k|].
  cbn [replace_scan]. destruct k as [|k]; [|apply IH].
  destruct (startswith (c :: s) old) eqn:E; [|by rewrite IH].
  rewrite IH. apply startswith_prefix in E. destruct old as [|a old]; [done|].
  simpl in E. injection E as <- E. simpl. rewrite Nat.sub_0_r.
  f_equal. done.
Qed.

(** X18.  Replacing a pattern by itself, with case sensitivity, leaves the
    document as it is. *)
Theorem replace_by_itself (content : list pystr) (pattern : pystr) :
  replace_text content pattern pattern true = content.
Proof.
  unfold replace_text. rewrite <- (map_id content) at 2. apply map_ext.
  intros line. unfold replace. destruct pattern as [|a p].
  - simpl. induction line as [|c line IH]; [done|]. simpl. by f_equal.
  - by rewrite replace_scan_self.

Qed.

End MoreSearch.

(** ** Width of the sub-lines, size of the cache, display index *)

Lemma len_join_snoc (ws : list pystr) (w : pystr) :
  len (join (ws ++ [w]))
  = len (join ws) + len w + (if nonempty ws then 1 else 0).
Proof.
  induction ws as [|a ws IH]; [simpl; unfold len; simpl; lia|].
  destruct ws as [|b ws].
  - simpl. rewrite len_app, len_cons. lia.
  - change (join ((a :: b :: ws) ++ [w]))
      with (a ++ " "%char :: join ((b :: ws) ++ [w])).
    change (join (a :: b :: ws)) with (a ++ " "%char :: join (b :: ws)).
    rewrite !len_app, !len_cons, IH. simpl. lia.
Qed.

Lemma break_chars_fit (m : Z) (word : pystr) : forall parts current,
  1 <= m -> Forall (fun p => len p <= m) parts -> len current <= m ->
  Forall (fun p => len p <= m) (break_chars m parts current word).
Proof.
  induction word as [|c word IH]; intros parts current Hm Hparts Hcur; simpl.
  - destruct current; [done|]. apply Forall_app. split; [done|].
    by constructor.
  - destruct (len current + 1 >? m) eqn:E.
    + apply IH; [done| |].
      * apply Forall_app. split; [done|]. by constructor.
      * rewrite len_cons, len_nil. lia.
    + apply IH; [done|done|]. rewrite len_app, len_cons, len_nil.
      rewrite Z.gtb_ltb in E. apply Z.ltb_ge in E. lia.
Qed.

Lemma break_long_word_fit (word : pystr) (m : Z) :
  1 <= m -> Forall (fun p => len p <= m) (break_long_word word m).
Proof.
  intros Hm. unfold break_long_word. destruct (len word <=? m) eqn:E.
  - apply Z.leb_le in E. by repeat constructor.
  - apply break_chars_fit; [done|constructor|]. rewrite len_nil. lia.
Qed.

Lemma wrap_word_fits (ind : pystr) (m : Z) (acc : wrap_acc) (w : pystr) :
  1 <= m -> fits ind m acc -> fits ind m (wrap_word ind m acc w).
Proof.
  intros Hm (Hwr & Hcur & Hlen). unfold wrap_word, fits.
  assert (Hflush :
    Forall (fun sub => len sub <= len ind + m)
      (wrapped acc ++ [ind ++ join (current_line acc)])).
  { apply Forall_app. split; [done|]. constructor; [|constructor].
    rewrite len_app. lia. }
  assert (Hparts :
    Forall (fun sub => len sub <= len ind + m)
      (map (fun part => ind ++ part) (break_long_word w m))).
  { apply Forall_fmap. eapply Forall_impl.
    - by apply break_long_word_fit.
    - intros p Hp. simpl in *. rewrite len_app. lia. }
  assert (Hnil : len (join []) = 0) by done.
  destruct (len w >? m) eqn:Elong.
  - destruct (nonempty (current_line acc)) eqn:E; cbn [wrapped current_line
      current_length].
    + split; [by apply Forall_app|]. rewrite Hnil. lia.
    + split; [by apply Forall_app|]. done.
  - rewrite Z.gtb_ltb in Elong. apply Z.ltb_ge in Elong.
    destruct (current_length acc + len w + _ >? m) eqn:Eover;
      cbn [wrapped current_line current_length].
    + split; [done|]. cbn [join]. lia.
    + rewrite Z.gtb_ltb in Eover. apply Z.ltb_ge in Eover.
      split; [done|]. rewrite len_join_snoc.
      assert (nonempty (current_line acc ++ [w]) = true) as ->
        by (by destruct (current_line acc)).
      destruct (nonempty (current_line acc)); lia.
Qed.

Lemma fold_wrap_word_fits (ind : pystr) (m : Z) (words : list pystr) :
  1 <= m -> forall acc, fits ind m acc ->
  fits ind m (fold_left (wrap_word ind m) words acc).
Proof.
  intros Hm. induction words as [|w words IH]; intros acc Hacc; [done|].
  simpl. apply IH. by apply wrap_word_fits.
Qed.

Lemma wrap_compute_fits (line : pystr) (width : Z) :
  indent_of line < width -> nonspace line <> [] ->
  Forall (fun sub => len sub <= width) (wrap_compute line width).
Proof.
  intros Hwidth Hline. unfold wrap_compute.
  destruct (len line <=? width) eqn:E.
  { apply Z.leb_le in E. by repeat constructor. }
  destruct (nonempty (strip line)) eqn:Estrip; cbn [negb].
  2:{ exfalso. apply Hline. rewrite <- nonspace_strip.
      by destruct (strip line). }
  rewrite slice_from_indent.
  destruct (nonempty (split (lstrip line))) eqn:Esplit; cbn [negb].
  2:{ exfalso. apply Hline.
      rewrite <- nonspace_lstrip, <- split_concat.
      by destruct (split (lstrip line)). }
  set (indent := indent_of line) in *.
  assert (Hind : len (spaces indent) = indent).
  { apply length_spaces, indent_nonneg. }
  destruct (fold_wrap_word_fits (spaces indent) (width - indent)
              (split (lstrip line)) ltac:(lia)
              {| wrapped := []; current_line := []; current_length := 0 |})
    as (Hwr & Hcur & _).
  { split; [constructor|]. cbn [current_line current_length join].
    rewrite len_nil. lia. }
  assert (Hsubs : forall subs : list pystr,
    Forall (fun sub => len sub <= len (spaces indent) + (width - indent))
      subs ->
    Forall (fun sub => len sub <= width) subs).
  { intros subs Hsubs. eapply Forall_impl; [exact Hsubs|].
    intros sub Hsub. simpl in Hsub. lia. }
  destruct (nonempty (current_line _)).
  - apply Hsubs, Forall_app. split; [done|]. constructor; [|constructor].
    rewrite len_app. lia.
  - by apply Hsubs.
Qed.

(** X19.  When the width exceeds the indent of a line that has a character
    other than whitespace, every sub-line [wrap_line] returns fits the
    width. *)
Theorem wrap_line_fits_width (cache : wrap_cache) (line : pystr)
  (width : Z) :
  cache_consistent cache ->
  indent_of line < width -> nonspace line <> [] ->
  Forall (fun sub => len sub <= width) (wrap_line cache line width).1.
Proof.
  intros Hc Hwidth Hline.
  destruct (wrap_line_cached cache line width Hc) as [-> _].
  by apply wrap_compute_fits.
Qed.

(** ** The size of the cache *)

Lemma length_dict_set (d : wrap_cache) (k : pystr * Z) (v : list pystr) :
  (length (dict_set d k v) <= S (length d))%nat.
Proof.
  induction d as [|[k' v'] d IH]; simpl; [lia|].
  destruct (key_eqb k k'); simpl; lia.
Qed.

Lemma wrap_line_cache_size (cache : wrap_cache) (line : pystr) (width : Z) :
  len cache <= WRAP_CACHE_SIZE ->
  len (wrap_line cache line width).2 <= WRAP_CACHE_SIZE.
Proof.
  intros H. unfold wrap_line.
  destruct (dict_get cache (line, width)); cbn [snd]; [done|].
  pose proof (length_dict_set
                (if len cache >=? WRAP_CACHE_SIZE then tail cache else cache)
                (line, width) (wrap_compute line width)) as Hset.
  unfold len in *. destruct (Z.of_nat (length cache) >=? WRAP_CACHE_SIZE) eqn:E.
  - destruct cache as [|e cache]; [by vm_compute in E|].
    simpl in *. lia.
  - rewrite Z.geb_leb in E. apply Z.leb_gt in E. lia.
Qed.

Lemma build_display_lines_cache_size (content : list pystr) (width : Z) :
  forall cache, len cache <= WRAP_CACHE_SIZE ->
  len (build_display_lines cache content width).2 <= WRAP_CACHE_SIZE.
Proof.
  induction content as [|line rest IH]; intros cache H; [done|].
  cbn [build_display_lines snd]. apply IH. by apply wrap_line_cache_size.
Qed.

Lemma sum_wrapped_cache_size (content : list pystr) (width : Z)
  (rows : list Z) : forall cache d r,
  len cache <= WRAP_CACHE_SIZE ->
  sum_wrapped cache content width rows d = Some r ->
  len r.2 <= WRAP_CACHE_SIZE.
Proof.
  induction rows as [|i rows IH]; intros cache d r H; simpl.
  - by intros [= <-].
  - destruct (getitem content i) as [line|]; [|done]. simpl.
    apply IH. by apply wrap_line_cache_size.
Qed.

(** X20.  The wrap cache never holds more than [WRAP_CACHE_SIZE] entries: a
    call of [wrap_line], the loop of [main] that builds the display lines
    and [get_display_line_index] each leave a cache within the bound when
    they are given one. *)
Theorem wrap_cache_stays_bounded (cache : wrap_cache)
  (content : list pystr) (line : pystr) (cursor_y width : Z) :
  len cache <= WRAP_CACHE_SIZE ->
  len (wrap_line cache line width).2 <= WRAP_CACHE_SIZE
  /\ len (build_display_lines cache content width).2 <= WRAP_CACHE_SIZE
  /\ forall r, get_display_line_index cache content cursor_y width = Some r ->
               len r.2 <= WRAP_CACHE_SIZE.
Proof.
  intros H. split; [|split].
  - by apply wrap_line_cache_size.
  - by apply build_display_lines_cache_size.
  - intros r. by apply sum_wrapped_cache_size.
Qed.

(** ** Display lines and the display index of a row *)

Lemma build_display_lines_cached (content : list pystr) (width : Z) :
  forall cache, cache_consistent cache ->
  (build_display_lines cache content width).1
  = display_lines_of content width
  /\ cache_consistent (build_display_lines cache content width).2.
Proof.
  unfold display_lines_of.
  induction content as [|line rest IH]; intros cache Hc; [done|].
  cbn [build_display_lines fst snd map concat].
  destruct (wrap_line_cached cache line width Hc) as [-> Hc'].
  destruct (IH _ Hc') as [-> Hc'']. done.
Qed.

Lemma sum_wrapped_cached (content : list pystr) (width : Z) :
  forall (n a : nat) cache d,
    cache_consistent cache ->
    (a + n <= length content)%nat ->
    exists cache',
      sum_wrapped cache content width (map Z.of_nat (seq a n)) d
      = Some (d + len (display_lines_of (take n (drop a content)) width),
              cache')
      /\ cache_consistent cache'.
Proof.
  induction n as [|n IH]; intros a cache d Hc Ha.
  - exists cache. split; [|done]. simpl. unfold display_lines_of. simpl.
    rewrite len_nil. by rewrite Z.add_0_r.
  - cbn [seq map sum_wrapped].
    rewrite getitem_in_range by (unfold len; lia). rewrite Nat2Z.id.
    destruct (lookup_lt_is_Some_2 content a) as [line Hline]; [lia|].
    rewrite Hline. cbn [mbind option_bind].
    destruct (wrap_line_cached cache line width Hc) as [-> Hc'].
    destruct (IH (S a) _ (d + len (wrap_compute line width)) Hc')
      as (cache' & -> & Hc''); [lia|].
    exists cache'. split; [|done]. do 2 f_equal.
    rewrite (drop_S _ _ _ Hline). unfold display_lines_of.
    cbn [take map concat]. rewrite len_app. lia.
Qed.

Lemma wrap_compute_not_nil (line : pystr) (width : Z) :
  wrap_compute line width <> [].
Proof.
  unfold wrap_compute. destruct (len line <=? width); [done|].
  destruct (negb (nonempty (strip line))); [done|].
  rewrite slice_from_indent.
  destruct (split (lstrip line)) as [|w words] eqn:Ewords; [done|].
  cbn [nonempty negb].
  assert (Hstep : forall ind m acc word,
    word <> [] ->
    wrapped (wrap_word ind m acc word) <> []
    \/ current_line (wrap_word ind m acc word) <> []).
  { intros ind m acc word Hword. unfold wrap_word.
    destruct (len word >? m) eqn:Elong.
    - left. cbn [wrapped]. intros H. apply app_eq_nil in H as [_ H].
      apply fmap_nil_inv in H. unfold break_long_word in H.
      destruct (len word <=? m); [done|].
      pose proof (break_chars_concat m word [] []) as Hcat.
      rewrite H in Hcat. simpl in Hcat. by subst word.
    - destruct (current_length acc + len word + _ >? m); right; simpl;
        [done|].
      destruct (current_line acc); simpl; done. }
  assert (Hkeep : forall ind m word acc,
    wrapped acc <> [] \/ current_line acc <> [] ->
    wrapped (wrap_word ind m acc word) <> []
    \/ current_line (wrap_word ind m acc word) <> []).
  { intros ind m word acc Hacc. unfold wrap_word.
    destruct (len word >? m).
    - destruct (nonempty (current_line acc)) eqn:E; left; cbn [wrapped].
      + destruct (wrapped acc); simpl; done.
      + destruct Hacc as [H|H]; [|by destruct (current_line acc)].
        destruct (wrapped acc); simpl; done.
    - destruct (current_length acc + len word + _ >? m); right; simpl;
        [done|].
      destruct (current_line acc); simpl; done. }
  assert (Hfold : forall ind m ws acc,
    wrapped acc <> [] \/ current_line acc <> [] ->
    wrapped (fold_left (wrap_word ind m) ws acc) <> []
    \/ current_line (fold_left (wrap_word ind m) ws acc) <> []).
  { intros ind m ws. induction ws as [|a ws IH]; intros acc Hacc; [done|].
    simpl. by apply IH, Hkeep. }
  pose proof (split_words (lstrip line)) as Hw. rewrite Ewords in Hw.
  apply Forall_cons in Hw as [[Hw _] _].
  cbn [fold_left].
  destruct (Hfold (spaces (indent_of line)) (width - indent_of line) words
              _ (Hstep (spaces (indent_of line)) (width - indent_of line)
                   {| wrapped := []; current_line := [];
                      current_length := 0 |} w Hw)) as [H|H].
  - destruct (nonempty _); [|done]. destruct (wrapped _); simpl; done.
  - destruct (current_line _) eqn:E; [done|]. cbn [nonempty].
    destruct (wrapped _); simpl; done.
Qed.

(** X21.  The display lines [main] builds, and the display index that
    [get_display_line_index] gives for a row of the content, do not depend
    on what the cache holds.  The index is the number of display lines of
    the rows above, it is a valid index into the display lines, and the
    display line it points at is the first sub-line of that row. *)
Theorem display_index_points_at_row (cache1 cache2 : wrap_cache)
  (content : list pystr) (line : pystr) (cursor_y width : Z) :
  cache_consistent cache1 -> cache_consistent cache2 ->
  0 <= cursor_y -> content !! Z.to_nat cursor_y = Some line ->
  let display_lines := (build_display_lines cache1 content width).1 in
  exists d cache',
    get_display_line_index cache2 content cursor_y width = Some (d, cache')
    /\ d = len (display_lines_of (take (Z.to_nat cursor_y) content) width)
    /\ 0 <= d < len display_lines
    /\ getitem display_lines d = head (wrap_compute line width).
Proof.
  intros Hc1 Hc2 Hy Hline display_lines. subst display_lines.
  destruct (build_display_lines_cached content width cache1 Hc1) as [-> _].
  pose proof (lookup_lt_Some _ _ _ Hline) as Hlt.
  unfold get_display_line_index, range. rewrite Z.sub_0_r.
  destruct (sum_wrapped_cached content width (Z.to_nat cursor_y) 0 cache2 0
              Hc2) as (cache' & Hsum & _); [lia|].
  erewrite map_ext in Hsum; [rewrite Hsum|]; [|intros i; simpl; lia].
  rewrite drop_0, Z.add_0_l. eexists _, cache'. split; [done|].
  split; [done|].
  assert (Hsplit : display_lines_of content width
            = display_lines_of (take (Z.to_nat cursor_y) content) width
              ++ wrap_compute line width
              ++ display_lines_of (drop (S (Z.to_nat cursor_y)) content)
                   width).
  { rewrite <- (take_drop_middle content (Z.to_nat cursor_y) line Hline)
      at 1.
    unfold display_lines_of. rewrite map_app, concat_app. done. }
  pose proof (wrap_compute_not_nil line width) as Hne.
  destruct (wrap_compute line width) as [|first subs] eqn:Ew; [done|].
  rewrite Hsplit. split.
  - rewrite !len_app, len_cons.
    pose proof (len_nonneg (display_lines_of
                              (take (Z.to_nat cursor_y) content) width)).
    pose proof (len_nonneg subs).
    pose proof (len_nonneg (display_lines_of
                              (drop (S (Z.to_nat cursor_y)) content) width)).
    lia.
  - apply getitem_lookup; [apply len_nonneg|]. unfold len.
    rewrite Nat2Z.id. by rewrite lookup_app_r, Nat.sub_diag by lia.
Qed.

(** X22.  On display lines that each start with as many spaces as they have
    leading whitespace characters, [get_content_line_index] answers 0 for
    every index below their number, counted from either end, and the last
    display index for every index from their number on; it raises below
    the negative of their number. *)
Theorem content_line_index_of_space_indented (display_lines : list pystr)
  (display_index : Z) :
  Forall space_indented display_lines ->
  get_content_line_index display_lines display_index
  = if display_index >=? len display_lines
    then Some (len display_lines - 1)
    else if - len display_lines <=? display_index then Some 0
    else None.
Proof.
  intros H. unfold get_content_line_index.
  destruct (display_index >=? len display_lines) eqn:E; [done|].
  rewrite Z.geb_leb in E. apply Z.leb_gt in E.
  rewrite content_line_map_constant by done.
  unfold getitem, subscript, len. rewrite length_replicate.
  fold (len display_lines).
  destruct (0 <=? display_index) eqn:E0.
  - apply Z.leb_le in E0.
    destruct (display_index <? len display_lines) eqn:E1;
      [|apply Z.ltb_ge in E1; lia].
    destruct (- len display_lines <=? display_index) eqn:E2;
      [|apply Z.leb_gt in E2; lia].
    cbn [andb mbind option_bind]. apply lookup_replicate_2. unfold len in *.
    lia.
  - apply Z.leb_gt in E0. cbn [andb].
    destruct (- len display_lines <=? display_index) eqn:E2.
    + apply Z.leb_le in E2.
      destruct (display_index <? 0) eqn:E3; [|apply Z.ltb_ge in E3; lia].
      cbn [andb mbind option_bind]. apply lookup_replicate_2.
      unfold len in *. lia.
    + done.
Qed.

(** ** The scroll adjustment *)

Lemma scroll_forward_spec (d box_h : Z) : forall (turns : nat) (s : Z),
  (Z.to_nat (d - s - (box_h - 2) + 1) < turns)%nat ->
  scroll_forward turns d box_h s = Some (Z.max s (d - (box_h - 2) + 1)).
Proof.
  induction turns as [|turns IH]; intros s Ht; [lia|].
  cbn [scroll_forward]. destruct (d - s >=? box_h - 2) eqn:E.
  - rewrite Z.geb_leb in E. apply Z.leb_le in E.
    rewrite IH by lia. f_equal. lia.
  - rewrite Z.geb_leb in E. apply Z.leb_gt in E. f_equal. lia.
Qed.

Lemma scroll_back_spec (d : Z) : forall (turns : nat) (s : Z),
  (Z.to_nat (s - d) < turns)%nat ->
  scroll_back turns d s = Some (Z.min s d).
Proof.
  induction turns as [|turns IH]; intros s Ht; [lia|].
  cbn [scroll_back]. destruct (d - s <? 0) eqn:E.
  - apply Z.ltb_lt in E. rewrite IH by lia. f_equal. lia.
  - apply Z.ltb_ge in E. f_equal. lia.
Qed.

(** X23.  When the window shows at least one line and the display line of
    the cursor is one of the display lines, the scroll adjustment of [main]
    returns, and afterwards that line is inside the window, the scroll
    position does not pass the last full window, a scroll position that
    was not negative stays so, and a cursor that was visible does not make
    the scroll position grow. *)
Theorem scroll_keeps_cursor_visible (display_lines : list pystr)
  (display_cursor_y box_h scroll_y : Z) :
  1 <= box_h - 2 -> 0 <= display_cursor_y < len display_lines ->
  exists scroll_y',
    adjust_scroll display_lines display_cursor_y box_h scroll_y
    = Some scroll_y'
    /\ scroll_y' <= display_cursor_y < scroll_y' + (box_h - 2)
    /\ scroll_y' <= Z.max 0 (len display_lines - (box_h - 2))
    /\ (0 <= scroll_y -> 0 <= scroll_y')
    /\ (scroll_y <= display_cursor_y < scroll_y + (box_h - 2) ->
        scroll_y' <= scroll_y).
Proof.
  intros Hh Hd. unfold adjust_scroll.
  rewrite scroll_forward_spec by lia. cbn [mbind option_bind].
  rewrite scroll_back_spec by lia. cbn [mbind option_bind].
  eexists. split; [done|]. lia.
Qed.

(** ** Syntax highlighting *)

Lemma slice_in_range {A} (l : list A) (a b : Z) :
  0 <= a <= b ->
  slice l a b = take (Z.to_nat b - Z.to_nat a) (drop (Z.to_nat a) l).
Proof.
  intros H. unfold slice, slice_index.
  destruct (a <? 0) eqn:Ea; [lia|]. destruct (b <? 0) eqn:Eb; [lia|]. done.
Qed.

Lemma take_slice {A} (l : list A) (a b : Z) :
  0 <= a <= b ->
  take (Z.to_nat a) l ++ slice l a b = take (Z.to_nat b) l.
Proof.
  intros H. rewrite slice_in_range by done.
  rewrite take_drop_commute.
  replace (Z.to_nat a + (Z.to_nat b - Z.to_nat a))%nat with (Z.to_nat b)
    by lia.
  rewrite <- (take_drop (Z.to_nat a) (take (Z.to_nat b) l)) at 2.
  rewrite take_take.
  by replace (Z.to_nat a `min` Z.to_nat b)%nat with (Z.to_nat a) by lia.
Qed.

Lemma highlight_match_covered (color : Z) (line : pystr)
  (acc : highlight_acc) (span : Z * Z) :
  0 <= span.1 <= span.2 -> span.2 <= len line ->
  covered line acc -> covered line (highlight_match color line acc span).
Proof.
  intros Hs He [Hl Hc]. unfold highlight_match.
  destruct (span.1 >=? last_end acc) eqn:E; [|done].
  rewrite Z.geb_leb in E. apply Z.leb_le in E.
  split; cbn [last_end highlights]; [lia|].
  rewrite map_app, concat_app. cbn [map concat snd]. rewrite app_nil_r.
  rewrite <- (take_slice line span.1 span.2) by done. f_equal.
  destruct (span.1 >? last_end acc) eqn:E1.
  - rewrite map_app, concat_app. cbn [map concat snd].
    rewrite app_nil_r, Hc. apply take_slice. lia.
  - rewrite Z.gtb_ltb in E1. apply Z.ltb_ge in E1. rewrite Hc.
    by replace (span.1) with (last_end acc) by lia.
Qed.

Section HighlightProperties.

Context (regex_t : Type) (re_finditer : regex_t -> pystr -> list (Z * Z))
  (SYNTAX_PATTERNS_COMPILED : pystr -> option (list (pystr * regex_t)))
  (color_of : pystr -> pystr -> Z).

(** X24.  When every span the patterns report lies within the line, in the
    order start, end, the highlighted pieces that [highlight_syntax]
    returns cover the line: their texts, put together, are the line, with
    nothing lost, repeated or moved, whatever the patterns match. *)
Theorem highlight_covers_line (line : pystr) (language : option pystr) :
  (forall r, Forall (fun span => 0 <= span.1 <= span.2 /\ span.2 <= len line)
               (re_finditer r line)) ->
  concat (map snd
            (highlight_syntax regex_t re_finditer SYNTAX_PATTERNS_COMPILED
               color_of line language))
  = line.
Proof.
  intros Hspans.
  assert (Hplain : concat (map snd [(0, line)]) = line).
  { simpl. apply app_nil_r. }
  unfold highlight_syntax. destruct language as [[|c language]|]; try done.
  destruct (SYNTAX_PATTERNS_COMPILED (c :: language)) as [patterns|];
    [|done].
  assert (Hcov : covered line
            (highlight_patterns regex_t re_finditer color_of (c :: language)
               line patterns)).
  { unfold highlight_patterns.
    assert (H0 : covered line {| highlights := []; last_end := 0 |}).
    { split; simpl; [|done]. pose proof (len_nonneg line). lia. }
    revert H0. generalize {| highlights := []; last_end := 0 |}.
    induction patterns as [|p patterns IH]; intros acc Hacc; [done|].
    cbn [fold_left]. apply IH. specialize (Hspans p.2).
    revert acc Hacc.
    induction Hspans as [|span spans [Hs He] _ IHs]; intros acc Hacc;
      [done|].
    cbn [fold_left]. apply IHs. by apply highlight_match_covered. }
  destruct Hcov as [Hl Hc].
  destruct (last_end _ <? len line) eqn:E.
  - rewrite map_app, concat_app. cbn [map concat snd].
    rewrite app_nil_r, Hc, slice_from_nonneg by lia. apply take_drop.
  - apply Z.ltb_ge in E. rewrite Hc. apply take_ge. unfold len in *. lia.
Qed.

End HighlightProperties.

(** ** Saving and loading *)

Lemma one_line_not_CR (c : ascii) :
  is_linebreak c = false -> chr_eqb c "013"%char = false.
Proof.
  intros H. destruct (chr_eqb c "013"%char) eqn:E; [|done].
  apply chr_eqb_eq in E as ->. by vm_compute in H.
Qed.

Lemma one_line_not_LF (c : ascii) :
  is_linebreak c = false -> chr_eqb c "010"%char = false.
Proof.
  intros H. destruct (chr_eqb c "010"%char) eqn:E; [|done].
  apply chr_eqb_eq in E as ->. by vm_compute in H.
Qed.

Lemma universal_newlines_one_line (line rest : pystr) :
  one_line line ->
  universal_newlines (line ++ rest) = line ++ universal_newlines rest.
Proof.
  induction 1 as [|c line Hc _ IH]; [done|].
  cbn [app universal_newlines]. rewrite one_line_not_CR by done.
  by rewrite IH.
Qed.

Lemma universal_newlines_LF (rest : pystr) :
  universal_newlines ("010"%char :: rest) = "010"%char :: universal_newlines rest.
Proof. done. Qed.

Lemma universal_newlines_join (content : list pystr) :
  Forall one_line content ->
  universal_newlines (join_lines content) = join_lines content.
Proof.
  induction 1 as [|line content Hline Hc IH]; [done|].
  destruct content as [|line' content].
  - cbn [join_lines]. rewrite <- (app_nil_r line) at 1.
    rewrite universal_newlines_one_line by done. simpl. apply app_nil_r.
  - change (join_lines (line :: line' :: content))
      with (line ++ "010"%char :: join_lines (line' :: content)).
    rewrite universal_newlines_one_line by done.
    by rewrite universal_newlines_LF, IH.
Qed.

Lemma splitlines_from_one_line (line rest : pystr) :
  one_line line -> forall cur,
  splitlines_from cur (line ++ rest) = splitlines_from (cur ++ line) rest.
Proof.
  induction 1 as [|c line Hc _ IH]; intros cur; [by rewrite app_nil_r|].
  cbn [app splitlines_from]. rewrite Hc, IH. by rewrite <- app_assoc.
Qed.

Lemma splitlines_from_LF (cur rest : pystr) :
  splitlines_from cur ("010"%char :: rest)
  = cur :: match rest with [] => [] | _ => splitlines_from [] rest end.
Proof.
  cbn [splitlines_from]. change (is_linebreak "010") with true. cbv iota.
  by destruct rest.
Qed.

Lemma join_lines_cons2 (line line' : pystr) (content : list pystr) :
  join_lines (line :: line' :: content)
  = line ++ "010"%char :: join_lines (line' :: content).
Proof. done. Qed.

Lemma join_lines_snoc_empty (content : list pystr) :
  content <> [] -> join_lines (content ++ [[]]) = join_lines content ++ LF.
Proof.
  induction content as [|line content IH]; [done|]. intros _.
  destruct content as [|line' content]; [done|].
  change ((line :: line' :: content) ++ [[]])
    with (line :: (line' :: content) ++ [[]]).
  cbn [app]. rewrite !join_lines_cons2.
  change (line' :: content ++ [[]]) with ((line' :: content) ++ [[]]).
  rewrite IH by done. by rewrite <- app_assoc.
Qed.

Lemma splitlines_join_lines (content : list pystr) :
  Forall one_line content ->
  splitlines (join_lines content) = without_empty_last content.
Proof.
  unfold splitlines.
  induction 1 as [|line content Hline Hc IH]; [done|].
  destruct content as [|line' content].
  - cbn [join_lines]. rewrite <- (app_nil_r line) at 1.
    rewrite splitlines_from_one_line by done. simpl.
    unfold without_empty_last. simpl. by destruct line.
  - rewrite join_lines_cons2, splitlines_from_one_line by done.
    rewrite splitlines_from_LF. cbn [app].
    assert (Hrest :
      match join_lines (line' :: content) with
      | [] => []
      | _ => splitlines_from [] (join_lines (line' :: content))
      end = without_empty_last (line' :: content)).
    { rewrite <- IH. by destruct (join_lines (line' :: content)). }
    rewrite Hrest. unfold without_empty_last. rewrite last_cons_cons.
    by destruct (last (line' :: content)) as [[|c l]|].
Qed.

Lemma endswith_LF_join (content : list pystr) :
  Forall one_line content ->
  endswith_LF (join_lines content)
  = match last content with
    | Some [] => nonempty (removelast content)
    | _ => false
    end.
Proof.
  unfold endswith_LF.
  induction 1 as [|line content Hline Hc IH]; [done|].
  destruct content as [|line' content].
  - cbn [join_lines]. rewrite last_singleton.
    destruct line as [|c0 line0]; [done|].
    destruct (last (c0 :: line0)) as [c|] eqn:E; [|done].
    apply last_Some_elem_of in E. apply one_line_not_LF.
    by apply (proj1 (Forall_forall _ _) Hline).
  - rewrite join_lines_cons2. rewrite last_cons_cons.
    assert (Hlast : last (line ++ "010"%char :: join_lines (line' :: content))
              = match last (join_lines (line' :: content)) with
                | Some c => Some c
                | None => Some "010"%char
                end).
    { rewrite last_app, last_cons.
      by destruct (last (join_lines (line' :: content))). }
    rewrite Hlast.
    destruct (last (line' :: content)) as [last_line|] eqn:El;
      [|by apply last_None in El].
    destruct (last (join_lines (line' :: content))) as [c|] eqn:Ej.
    + rewrite IH. destruct last_line; [|done].
      destruct content as [|line'' content]; [|done].
      injection El as ->. by simpl in Ej.
    + destruct last_line as [|c l].
      * by destruct content.
      * exfalso. clear IH Hlast.
        assert (Hne : forall ls : list pystr, last ls = Some (c :: l) ->
                  last (join_lines ls) <> None).
        { clear. induction ls as [|a ls IHl]; [done|].
          destruct ls as [|b ls].
          - intros [= ->]. cbn [join_lines]. rewrite last_cons.
            by destruct (last l).
          - intros _. rewrite join_lines_cons2, last_app, last_cons.
            by destruct (last (join_lines (b :: ls))). }
        by apply (Hne _ El).
Qed.

(** X25.  Saving a document whose lines hold no line-break character and
    loading the file again gives the document back when its last line is
    not empty.  When the last line is empty, the document comes back with
    one more empty line at its end; an empty list of lines comes back as
    one empty line. *)
Theorem load_after_save (content : list pystr) :
  Forall one_line content ->
  load_file (Some (save_file content))
  = match last content with
    | Some [] => content ++ [[]]
    | Some _ => content
    | None => [[]]
    end.
Proof.
  intros Hc. unfold load_file.
  assert (Hsave : save_file content
            = join_lines (match last content with
                          | Some [] => content ++ [[]]
                          | _ => content
                          end)).
  { unfold save_file. destruct content as [|line content]; [done|].
    cbn [nonempty andb].
    destruct (last (line :: content)) as [[|c l]|] eqn:El; cbn [default].
    - cbn [str_eqb]. by rewrite join_lines_snoc_empty.
    - done.
    - by apply last_None in El. }
  rewrite Hsave.
  destruct (last content) as [[|c l]|] eqn:El.
  - assert (Hc' : Forall one_line (content ++ [[]])).
    { apply Forall_app. split; [done|]. by repeat constructor. }
    rewrite universal_newlines_join by done.
    rewrite endswith_LF_join, splitlines_join_lines by done.
    unfold without_empty_last. rewrite last_snoc, removelast_last.
    destruct content as [|line content]; [done|]. cbn [nonempty].
    by destruct content.
  - rewrite universal_newlines_join by done.
    rewrite endswith_LF_join, splitlines_join_lines by done.
    unfold without_empty_last. rewrite El. by destruct content.
  - apply last_None in El as ->. done.
Qed.

(** ** Word boundaries *)

Lemma eqb_isspace (c : ascii) (b : bool) :
  Bool.eqb (isspace c) b = true <-> isspace c = b.
Proof. destruct (isspace c), b; simpl; split; done. Qed.

Lemma skip_forward_spec (over_space : bool) (line : pystr) :
  forall (turns pos : nat),
    (pos <= length line)%nat -> (length line - pos < turns)%nat ->
    exists run rest,
      drop pos line = run ++ rest
      /\ Forall (fun c => isspace c = over_space) run
      /\ starts_with_kind (negb over_space) rest
      /\ skip_forward turns over_space line (Z.of_nat pos)
         = Some (Z.of_nat pos + len run).
Proof.
  induction turns as [|turns IH]; intros pos Hpos Ht; [lia|].
  cbn [skip_forward]. destruct (Z.of_nat pos <? len line) eqn:E.
  - apply Z.ltb_lt in E. unfold len in E.
    rewrite getitem_in_range by (unfold len; lia). rewrite Nat2Z.id.
    destruct (lookup_lt_is_Some_2 line pos) as [c Hc]; [lia|].
    rewrite Hc. cbn [mbind option_bind].
    rewrite (drop_S _ _ _ Hc).
    destruct (Bool.eqb (isspace c) over_space) eqn:Ec.
    + apply eqb_isspace in Ec.
      destruct (IH (S pos)) as (run & rest & Hd & Hrun & Hrest & Hres);
        [lia|lia|].
      exists (c :: run), rest. rewrite Hd. split; [done|].
      split; [by constructor|]. split; [done|].
      replace (Z.of_nat pos + 1) with (Z.of_nat (S pos)) by lia.
      rewrite Hres, len_cons. f_equal. lia.
    + exists [], (c :: drop (S pos) line). split; [done|].
      split; [constructor|]. split.
      * simpl. destruct (isspace c), over_space; done.
      * rewrite len_nil. f_equal. lia.
  - apply Z.ltb_ge in E. unfold len in E.
    exists [], []. rewrite drop_ge by lia. split; [done|].
    split; [constructor|]. split; [done|]. rewrite len_nil. f_equal. lia.
Qed.

Lemma skip_back_spec (over_space : bool) (line : pystr) :
  forall (turns pos : nat),
    (pos <= length line)%nat -> (pos < turns)%nat ->
    exists rest run,
      take pos line = rest ++ run
      /\ Forall (fun c => isspace c = over_space) run
      /\ ends_with_kind (negb over_space) rest
      /\ skip_back turns over_space line (Z.of_nat pos)
         = Some (len rest).
Proof.
  induction turns as [|turns IH]; intros pos Hpos Ht; [lia|].
  cbn [skip_back]. destruct (Z.of_nat pos >? 0) eqn:E.
  - apply Z.gtb_lt in E. destruct pos as [|pos]; [lia|].
    rewrite getitem_in_range by (unfold len; lia).
    replace (Z.to_nat (Z.of_nat (S pos) - 1)) with pos by lia.
    destruct (lookup_lt_is_Some_2 line pos) as [c Hc]; [lia|].
    rewrite Hc. cbn [mbind option_bind].
    rewrite (take_S_r _ _ _ Hc).
    destruct (Bool.eqb (isspace c) over_space) eqn:Ec.
    + apply eqb_isspace in Ec.
      destruct (IH pos) as (rest & run & Hd & Hrun & Hrest & Hres);
        [lia|lia|].
      exists rest, (run ++ [c]). rewrite Hd, <- app_assoc. split; [done|].
      split; [apply Forall_app; split; [done|by constructor]|].
      split; [done|].
      replace (Z.of_nat (S pos) - 1) with (Z.of_nat pos) by lia.
      exact Hres.
    + exists (take pos line ++ [c]), []. rewrite app_nil_r.
      split; [done|]. split; [constructor|]. split.
      * unfold ends_with_kind. rewrite last_snoc.
        destruct (isspace c), over_space; done.
      * f_equal. rewrite len_app, len_cons, len_nil. unfold len.
        rewrite length_take. lia.
  - rewrite Z.gtb_ltb in E. apply Z.ltb_ge in E.
    assert (pos = 0%nat) as -> by lia.
    exists [], []. split; [done|]. split; [constructor|]. done.
Qed.

Lemma run_ahead_unique (kind : bool) : forall run1 run2 rest1 rest2 : pystr,
  run1 ++ rest1 = run2 ++ rest2 ->
  Forall (fun c => isspace c = kind) run1 ->
  Forall (fun c => isspace c = kind) run2 ->
  starts_with_kind (negb kind) rest1 -> starts_with_kind (negb kind) rest2 ->
  run1 = run2 /\ rest1 = rest2.
Proof.
  induction run1 as [|c run1 IH]; intros run2 rest1 rest2 He H1 H2 Hr1 Hr2.
  - destruct run2 as [|c run2]; [done|]. exfalso. simpl in He. subst rest1.
    apply Forall_cons in H2 as [H2 _]. simpl in Hr1. rewrite H2 in Hr1.
    by destruct kind.
  - destruct run2 as [|c' run2].
    + exfalso. simpl in He. subst rest2.
      apply Forall_cons in H1 as [H1 _]. simpl in Hr2. rewrite H1 in Hr2.
      by destruct kind.
    + simpl in He. injection He as -> He.
      apply Forall_cons in H1 as [_ H1]. apply Forall_cons in H2 as [_ H2].
      destruct (IH run2 rest1 rest2 He H1 H2 Hr1 Hr2) as [-> ->]. done.
Qed.

Lemma run_behind_unique (kind : bool) : forall run1 run2 rest1 rest2 : pystr,
  rest1 ++ run1 = rest2 ++ run2 ->
  Forall (fun c => isspace c = kind) run1 ->
  Forall (fun c => isspace c = kind) run2 ->
  ends_with_kind (negb kind) rest1 -> ends_with_kind (negb kind) rest2 ->
  run1 = run2 /\ rest1 = rest2.
Proof.
  induction run1 as [|c run1 IH] using rev_ind;
    intros run2 rest1 rest2 He H1 H2 Hr1 Hr2.
  - destruct run2 as [|c run2 _] using rev_ind.
    { rewrite !app_nil_r in He. done. }
    exfalso. rewrite app_nil_r in He. subst rest1.
    apply Forall_app in H2 as [_ H2]. apply Forall_cons in H2 as [H2 _].
    unfold ends_with_kind in Hr1. rewrite app_assoc, last_snoc in Hr1.
    rewrite H2 in Hr1. by destruct kind.
  - destruct run2 as [|c' run2 _] using rev_ind.
    + exfalso. rewrite app_nil_r in He. subst rest2.
      apply Forall_app in H1 as [_ H1]. apply Forall_cons in H1 as [H1 _].
      unfold ends_with_kind in Hr2. rewrite app_assoc, last_snoc in Hr2.
      rewrite H1 in Hr2. by destruct kind.
    + rewrite !app_assoc in He. apply app_inj_tail in He as [He ->].
      apply Forall_app in H1 as [H1 _]. apply Forall_app in H2 as [H2 _].
      destruct (IH run2 rest1 rest2 He H1 H2 Hr1 Hr2) as [-> ->]. done.
Qed.

Lemma word_ahead_unique (s ws1 word1 rest1 ws2 word2 rest2 : pystr) :
  word_ahead s ws1 word1 rest1 -> word_ahead s ws2 word2 rest2 ->
  ws1 = ws2 /\ word1 = word2 /\ rest1 = rest2.
Proof.
  intros (E1 & Hw1 & Hk1 & Hs1 & Hr1) (E2 & Hw2 & Hk2 & Hs2 & Hr2).
  rewrite E1 in E2.
  destruct (run_ahead_unique true ws1 ws2 _ _ E2 Hw1 Hw2 Hk1 Hk2)
    as [-> E3].
  destruct (run_ahead_unique false word1 word2 _ _ E3 Hs1 Hs2 Hr1 Hr2)
    as [-> ->]. done.
Qed.

Lemma word_behind_unique (s ws1 word1 rest1 ws2 word2 rest2 : pystr) :
  word_behind s rest1 word1 ws1 -> word_behind s rest2 word2 ws2 ->
  ws1 = ws2 /\ word1 = word2 /\ rest1 = rest2.
Proof.
  intros (E1 & Hw1 & Hk1 & Hs1 & Hr1) (E2 & Hw2 & Hk2 & Hs2 & Hr2).
  rewrite E1, !app_assoc in E2.
  destruct (run_behind_unique true ws1 ws2 _ _ E2 Hw1 Hw2 Hk1 Hk2)
    as [-> E3].
  destruct (run_behind_unique false word1 word2 _ _ E3 Hs1 Hs2 Hr1 Hr2)
    as [-> ->]. done.
Qed.

Lemma find_word_boundary_ahead (line : pystr) (pos : Z) :
  0 <= pos <= len line ->
  exists ws word rest,
    word_ahead (slice_from line pos) ws word rest
    /\ find_word_boundary line pos true
       = Some (pos + len ws + len word).
Proof.
  unfold word_ahead.
  intros Hpos. unfold len in Hpos.
  rewrite slice_from_nonneg by lia. unfold find_word_boundary.
  destruct (skip_forward_spec true line (S (Z.to_nat (len line - pos)))
              (Z.to_nat pos))
    as (ws & rest1 & Hd1 & Hws & Hrest1 & Hres1); [lia|unfold len; lia|].
  rewrite Z2Nat.id in Hres1 by lia. rewrite Hres1.
  cbn [mbind option_bind].
  assert (Hlen : length (drop (Z.to_nat pos) line)
                 = (length line - Z.to_nat pos)%nat) by apply length_drop.
  rewrite Hd1, length_app in Hlen.
  destruct (skip_forward_spec false line
              (S (Z.to_nat (len line - (pos + len ws))))
              (Z.to_nat pos + length ws))
    as (word & rest & Hd2 & Hword & Hrest & Hres2);
    [lia|unfold len; lia|].
  replace (Z.of_nat (Z.to_nat pos + length ws)) with (pos + len ws)
    in Hres2 by (unfold len; lia).
  exists ws, word, rest. rewrite Hd1.
  assert (rest1 = word ++ rest) as ->.
  { rewrite <- Hd2, <- drop_drop, Hd1. by rewrite drop_app_length. }
  done.
Qed.

(** X26.  From a position within the line, [find_word_boundary] forward
    returns the position behind the whole run of whitespace at the cursor
    and the whole word that follows it.  The text from the position on
    splits in exactly one way into whitespace [ws] that is followed by a
    character that is not whitespace or by the end of the line, a [word]
    without whitespace that is followed by whitespace or by the end of the
    line, and a [rest]; the function returns, and its result is where
    [rest] starts. *)
Theorem find_word_boundary_forward (line : pystr) (pos : Z) :
  0 <= pos <= len line ->
  exists ws word rest,
    word_ahead (slice_from line pos) ws word rest
    /\ (forall ws' word' rest',
          word_ahead (slice_from line pos) ws' word' rest' ->
          ws' = ws /\ word' = word /\ rest' = rest)
    /\ find_word_boundary line pos true = Some (pos + len ws + len word).
Proof.
  intros Hpos.
  destruct (find_word_boundary_ahead line pos Hpos)
    as (ws & word & rest & Hsplit & Hres).
  exists ws, word, rest. split; [done|]. split; [|done].
  intros ws' word' rest' Hsplit'.
  exact (word_ahead_unique _ _ _ _ _ _ _ Hsplit' Hsplit).
Qed.

Lemma find_word_boundary_behind (line : pystr) (pos : Z) :
  0 <= pos <= len line ->
  exists rest word ws,
    word_behind (slice_to line pos) rest word ws
    /\ find_word_boundary line pos false = Some (len rest).
Proof.
  unfold word_behind.
  intros Hpos. unfold len in Hpos.
  rewrite slice_to_nonneg by lia. unfold find_word_boundary.
  destruct (skip_back_spec true line (S (Z.to_nat pos)) (Z.to_nat pos))
    as (rest1 & ws & Hd1 & Hws & Hrest1 & Hres1); [lia|lia|].
  rewrite Z2Nat.id in Hres1 by lia. rewrite Hres1.
  cbn [mbind option_bind].
  assert (Hlen : length (take (Z.to_nat pos) line) = Z.to_nat pos)
    by (rewrite length_take; lia).
  rewrite Hd1, length_app in Hlen.
  destruct (skip_back_spec false line (S (Z.to_nat (len rest1)))
              (length rest1))
    as (rest & word & Hd2 & Hword & Hrest & Hres2);
    [lia|unfold len; lia|].
  fold (len rest1) in Hres2.
  exists rest, word, ws. rewrite Hd1.
  assert (rest1 = rest ++ word) as ->.
  { rewrite <- Hd2.
    assert (take (length rest1) (take (Z.to_nat pos) line)
            = take (length rest1) line) as <-.
    { rewrite take_take. f_equal. lia. }
    rewrite Hd1. by rewrite take_app_length. }
  rewrite <- app_assoc. done.
Qed.

(** X27.  From a position within the line, [find_word_boundary] backward
    returns the start of the word that precedes the whole run of
    whitespace before the cursor.  The text before the position splits in
    exactly one way into a [rest], a [word] without whitespace that is
    preceded by whitespace or by the start of the line, and whitespace [ws]
    that is preceded by a character that is not whitespace or by the start
    of the line; the function returns, and its result is where [rest]
    ends. *)
Theorem find_word_boundary_backward (line : pystr) (pos : Z) :
  0 <= pos <= len line ->
  exists rest word ws,
    word_behind (slice_to line pos) rest word ws
    /\ (forall rest' word' ws',
          word_behind (slice_to line pos) rest' word' ws' ->
          ws' = ws /\ word' = word /\ rest' = rest)
    /\ find_word_boundary line pos false = Some (len rest).
Proof.
  intros Hpos.
  destruct (find_word_boundary_behind line pos Hpos)
    as (rest & word & ws & Hsplit & Hres).
  exists rest, word, ws. split; [done|]. split; [|done].
  intros rest' word' ws' Hsplit'.
  exact (word_behind_unique _ _ _ _ _ _ _ Hsplit' Hsplit).
Qed.

(** ** Concrete instances *)



Lemma wrap_line_keeps_text_witness :
  cache_consistent []
  /\ (wrap_line [] (py "  hello   world foo") 9).1
     = [py "  hello"; py "  world"; py "  foo"]
  /\ let r := wrap_line [] (py "  hello   world foo") 9 in
     let indent := indent_of (py "  hello   world foo") in
     r.1 = wrap_compute (py "  hello   world foo") 9
     /\ cache_consistent r.2
     /\ (len (py "  hello   world foo") <= 9
         \/ nonspace (py "  hello   world foo") = [] ->
         r.1 = [py "  hello   world foo"])
     /\ (9 < len (py "  hello   world foo") ->
         nonspace (py "  hello   world foo") <> [] ->
         exists groups : list (list pystr),
           Forall (fun g => g <> []) groups
           /\ r.1 = map (fun g => spaces indent ++ join g) groups
           /\ concat groups
              = flat_map (fun w => break_long_word w (9 - indent))
                  (split (py "  hello   world foo")))
     /\ (indent < 9 ->
         flat_map split r.1
         = flat_map (fun w => break_long_word w (9 - indent))
             (split (py "  hello   world foo")))
     /\ (Forall (fun w => len w <= 9 - indent)
           (split (py "  hello   world foo")) ->
         flat_map split r.1 = split (py "  hello   world foo"))
     /\ nonspace (concat r.1) = nonspace (py "  hello   world foo")
     /\ (indent < 9 -> nonspace (py "  hello   world foo") <> [] ->
         Forall (fun sub => slice_from sub indent <> []) r.1).
Proof.
  split; [constructor|]. split; [reflexivity|].
  exact (wrap_line_keeps_text [] (py "  hello   world foo") 9
           (Forall_nil_2 _)).
Defined.



Lemma execute_clears_redo_witness :
  (hs1 ← execute_command None None (new_InsertCommand (py "a"))
           (new_CommandHandler, new_EditorState [[]] [] None);
   hs2 ← execute_command None None (new_InsertCommand (py "b")) hs1;
   hs3 ← undo hs2;
   execute_command None None (new_InsertCommand (py "c")) hs3)
  = Some abc_state
  /\ redo None None abc_state = Some abc_state.
Proof.
  assert (H : (hs1 ← execute_command None None (new_InsertCommand (py "a"))
                       (new_CommandHandler, new_EditorState [[]] [] None);
               hs2 ← execute_command None None (new_InsertCommand (py "b"))
                       hs1;
               hs3 ← undo hs2;
               execute_command None None (new_InsertCommand (py "c")) hs3)
              = Some abc_state) by (vm_compute; reflexivity).
  split; [exact H|].
  exact (proj2 (execute_clears_redo None None)
           (new_InsertCommand (py "a")) (new_InsertCommand (py "b"))
           (new_InsertCommand (py "c"))
           (new_CommandHandler, new_EditorState [[]] [] None) abc_state H).
Defined.

Lemma replace_all_lowercases_content_witness :
  exists hs1,
    execute_command None None
      (ReplaceCommand (py "WORLD") (py "there") false [])
      (new_CommandHandler,
       new_EditorState [py "Hello World"; py "Other LINE"] [] None)
    = Some hs1
    /\ content hs1.2 = [py "hello there"; py "other line"]
    /\ exists hs2,
         undo hs1 = Some hs2
         /\ content hs2.2 = [py "Hello World"; py "Other LINE"].
Proof.
  destruct (replace_all_lowercases_content None None
              (new_CommandHandler,
               new_EditorState [py "Hello World"; py "Other LINE"] [] None)
              (py "WORLD") (py "there") [])
    as (hs1 & He & Hc & _ & hs2 & Hu & Hr).
  exists hs1. split; [exact He|]. split; [exact Hc|].
  exists hs2. split; [exact Hu|exact Hr].
Defined.

Lemma search_literal_all_occurrences_witness :
  py "a" <> []
  /\ search_text unit (fun _ _ => ReError) (fun _ _ => []) [py "aaa"] (py "a")
       0 0 true false false false None None
     = Some [(0, 0); (0, 1); (0, 2)].
Proof.
  split; [done|].
  exact (search_literal_all_occurrences unit (fun _ _ => ReError)
           (fun _ _ => []) [py "aaa"] (py "a") 0 0 None None
           ltac:(done)).
Defined.

(** C8, as stated, fails: the pattern ["a{4294967296}"] is not a valid
    regular expression for [re.compile], which raises [OverflowError] for
    it; that is not an [re.error], the [except] clause of [search_text]
    does not catch it, and the exception leaves the search. *)
Lemma search_escapes_on_overflow :
  stand_in_compile (py "a{4294967296}") (negb true) = OtherError
  /\ search_text pystr stand_in_compile stand_in_finditer [py "f(x)"]
       (py "a{4294967296}") 0 0 true false true false None None
     = None
  /\ search_text pystr stand_in_compile stand_in_finditer [py "f(x)"]
       (py "a{4294967296}") 0 0 true false true false None None
     <> Some [].
Proof. split; [reflexivity|]. split; [reflexivity|discriminate]. Qed.

Lemma search_malformed_regex_witness :
  stand_in_compile (py "(") (negb true) = ReError
  /\ search_text pystr stand_in_compile stand_in_finditer [py "f(x)"]
       (py "(") 0 0 true false true false None None
     = Some []
  /\ stand_in_compile (py "x") (negb true) = Compiled (py "x")
  /\ search_text pystr stand_in_compile stand_in_finditer
       [py "f(x)"; py "xx"] (py "x") 0 0 true false true false None None
     = Some [(0, 2); (1, 0); (1, 1)].
Proof.
  split; [reflexivity|]. split.
  - exact (proj1 (search_malformed_regex pystr stand_in_compile
                    stand_in_finditer [py "f(x)"] (py "(") 0 0 true false
                    false None None) eq_refl).
  - split; [reflexivity|].
    exact (proj2 (proj2 (search_malformed_regex pystr stand_in_compile
                           stand_in_finditer [py "f(x)"; py "xx"] (py "x")
                           0 0 true false false None None))
             (py "x") eq_refl ltac:(done)).
Defined.

Lemma search_history_append_only_witness :
  py "foo" <> []
  /\ py "foo" <> Search.last_search Search.new_SearchState
  /\ Search.search_history
       (Search.add_to_history Search.new_SearchState (py "foo"))
     = Search.search_history Search.new_SearchState ++ [py "foo"]
  /\ length (Search.search_history
               (Search.add_to_history Search.new_SearchState (py "foo")))
     = S (length (Search.search_history Search.new_SearchState))
  /\ Search.search_history
       (Search.get_previous_search
          (Search.add_to_history Search.new_SearchState (py "foo"))).1
     = Search.search_history
         (Search.add_to_history Search.new_SearchState (py "foo"))
  /\ Search.search_history
       (Search.get_next_search
          (Search.add_to_history Search.new_SearchState (py "foo"))).1
     = Search.search_history
         (Search.add_to_history Search.new_SearchState (py "foo")).
Proof.
  split; [done|]. split; [done|].
  exact (search_history_append_only Search.new_SearchState
           (Search.add_to_history Search.new_SearchState (py "foo"))
           (py "foo") ltac:(done) ltac:(done)).
Defined.

Lemma backspace_at_origin_witness :
  cursor_y (new_EditorState [py "abc"] [] None) = 0
  /\ cursor_x (new_EditorState [py "abc"] [] None) = 0
  /\ exists s',
       execute None None new_BackspaceCommand
         (new_EditorState [py "abc"] [] None)
       = Some (BackspaceCommand 0 0 [], s')
       /\ content s' = content (new_EditorState [py "abc"] [] None)
       /\ cursor_y s' = cursor_y (new_EditorState [py "abc"] [] None)
       /\ cursor_x s' = cursor_x (new_EditorState [py "abc"] [] None)
       /\ is_modified s' = true
       /\ selection_start s' = None /\ selection_end s' = None.
Proof.
  split; [reflexivity|]. split; [reflexivity|].
  exact (backspace_at_origin None None (new_EditorState [py "abc"] [] None)
           0 0 [] eq_refl eq_refl).
Defined.

(** Instances of the further properties. *)

Lemma execute_keeps_valid_state_witness :
  valid_state typing_state
  /\ keeps_cursor new_EnterCommand
  /\ exists c' s',
       execute None None new_EnterCommand typing_state = Some (c', s')
       /\ valid_state s'.
Proof.
  assert (Hv : valid_state typing_state) by (by apply valid_stateb_valid).
  split; [exact Hv|]. split; [exact I|].
  exact (execute_keeps_valid_state None None new_EnterCommand typing_state
           Hv I).
Defined.

Lemma redo_after_undo_witness :
  valid_state typing_state
  /\ restorable (new_InsertCommand (py "x")) typing_state
  /\ exists hs1 hs2,
       execute_command None None (new_InsertCommand (py "x"))
         (new_CommandHandler, typing_state) = Some hs1
       /\ undo hs1 = Some hs2
       /\ redo None None hs2 = Some hs1.
Proof.
  assert (Hv : valid_state typing_state) by (by apply valid_stateb_valid).
  assert (Hr : restorable (new_InsertCommand (py "x")) typing_state).
  { split; [reflexivity|by left]. }
  split; [exact Hv|]. split; [exact Hr|].
  exact (redo_after_undo None None (new_InsertCommand (py "x"))
           new_CommandHandler typing_state Hv Hr).
Defined.

Lemma history_stays_bounded_witness :
  (length (undo_stack full_history.1) <= MAX_UNDO)%nat
  /\ (length (redo_stack full_history.1) <= MAX_UNDO)%nat
  /\ (execute_command None None new_EnterCommand full_history
      = Some full_history_after
      \/ undo full_history = Some full_history_after
      \/ redo None None full_history = Some full_history_after)
  /\ (length (undo_stack full_history_after.1) <= MAX_UNDO)%nat
  /\ (length (redo_stack full_history_after.1) <= MAX_UNDO)%nat.
Proof.
  assert (Hu : (length (undo_stack full_history.1) <= MAX_UNDO)%nat)
    by (vm_compute; lia).
  assert (Hr : (length (redo_stack full_history.1) <= MAX_UNDO)%nat)
    by (vm_compute; lia).
  assert (Hs : execute_command None None new_EnterCommand full_history
               = Some full_history_after
               \/ undo full_history = Some full_history_after
               \/ redo None None full_history = Some full_history_after)
    by (left; vm_compute; reflexivity).
  split; [exact Hu|]. split; [exact Hr|]. split; [exact Hs|].
  exact (history_stays_bounded None None new_EnterCommand full_history
           full_history_after Hu Hr Hs).
Defined.

Lemma backspace_after_insert_witness :
  valid_state typing_state
  /\ (insert_mode typing_state = true
      \/ cursor_x typing_state = len (cursor_line typing_state))
  /\ exists c1 s1 s2,
       execute None None (new_InsertCommand ["x"%char]) typing_state
       = Some (c1, s1)
       /\ execute None None new_BackspaceCommand s1
          = Some (BackspaceCommand (cursor_y s1) (cursor_x s1) ["x"%char],
                  s2)
       /\ content s2 = content typing_state
       /\ cursor_y s2 = cursor_y typing_state
       /\ cursor_x s2 = cursor_x typing_state.
Proof.
  assert (Hv : valid_state typing_state) by (by apply valid_stateb_valid).
  split; [exact Hv|]. split; [left; reflexivity|].
  exact (backspace_after_insert None None "x"%char typing_state Hv
           (or_introl eq_refl)).
Defined.

Lemma enter_undo_keeps_indent_witness :
  valid_state typing_state
  /\ exists c' s1 s2 above below before after,
       content typing_state = above ++ (before ++ after) :: below
       /\ cursor_y typing_state = len above
       /\ cursor_x typing_state = len before
       /\ execute None None new_EnterCommand typing_state = Some (c', s1)
       /\ content s1
          = above ++ before
              :: (spaces (indent_of (before ++ after)) ++ after) :: below
       /\ cursor_y s1 = cursor_y typing_state + 1
       /\ cursor_x s1 = indent_of (before ++ after)
       /\ undo_command c' s1 = Some s2
       /\ content s2
          = above
              ++ (before ++ spaces (indent_of (before ++ after)) ++ after)
              :: below
       /\ cursor_y s2 = cursor_y typing_state
       /\ cursor_x s2 = cursor_x typing_state
       /\ (content s2 = content typing_state
           <-> indent_of (before ++ after) = 0).
Proof.
  assert (Hv : valid_state typing_state) by (by apply valid_stateb_valid).
  split; [exact Hv|].
  exact (enter_undo_keeps_indent None None typing_state Hv).
Defined.

Lemma backspace_merge_undo_witness :
  valid_state second_line_state
  /\ cursor_x second_line_state = 0
  /\ 0 < cursor_y second_line_state
  /\ exists c' s1 s2 above prev cur below,
       content second_line_state = above ++ prev :: cur :: below
       /\ cursor_y second_line_state = len above + 1
       /\ execute None None new_BackspaceCommand second_line_state
          = Some (c', s1)
       /\ content s1 = above ++ (prev ++ cur) :: below
       /\ cursor_y s1 = len above /\ cursor_x s1 = len prev
       /\ undo_command c' s1 = Some s2
       /\ content s2 = above ++ (prev ++ LF ++ cur) :: below
       /\ cursor_y s2 = cursor_y second_line_state /\ cursor_x s2 = 0
       /\ join_lines (content s2) = join_lines (content second_line_state).
Proof.
  assert (Hv : valid_state second_line_state)
    by (by apply valid_stateb_valid).
  split; [exact Hv|]. split; [reflexivity|]. split; [reflexivity|].
  exact (backspace_merge_undo None None second_line_state Hv eq_refl
           eq_refl).
Defined.

Lemma backspace_merge_is_delete_witness :
  valid_state second_line_state
  /\ cursor_x second_line_state = 0
  /\ 0 < cursor_y second_line_state
  /\ exists prev c1 c2 s',
       content second_line_state
         !! Z.to_nat (cursor_y second_line_state - 1) = Some prev
       /\ execute None None new_BackspaceCommand second_line_state
          = Some (c1, s')
       /\ execute None None new_DeleteCommand
            (set_cursor_x
               (set_cursor_y second_line_state
                  (cursor_y second_line_state - 1)) (len prev))
          = Some (c2, s')
       /\ valid_state s'.
Proof.
  assert (Hv : valid_state second_line_state)
    by (by apply valid_stateb_valid).
  split; [exact Hv|]. split; [reflexivity|]. split; [reflexivity|].
  exact (backspace_merge_is_delete None None second_line_state Hv eq_refl
           eq_refl).
Defined.

Lemma ensure_valid_cursor_clamps_witness :
  content stray_cursor_state <> []
  /\ exists s' line,
       ensure_valid_cursor_position stray_cursor_state = Some s'
       /\ content s' = content stray_cursor_state
       /\ 0 <= cursor_y s' < len (content stray_cursor_state)
       /\ content stray_cursor_state !! Z.to_nat (cursor_y s') = Some line
       /\ 0 <= cursor_x s' <= len line
       /\ (0 <= cursor_y stray_cursor_state
              < len (content stray_cursor_state) ->
           cursor_y s' = cursor_y stray_cursor_state)
       /\ (valid_state stray_cursor_state -> s' = stray_cursor_state).
Proof.
  assert (Hne : content stray_cursor_state <> []) by done.
  split; [exact Hne|].
  exact (ensure_valid_cursor_clamps stray_cursor_state Hne).
Defined.

Lemma match_navigation_lands_on_a_match_witness :
  Search.matches (found [(0, 0); (0, 2)] 1) <> []
  /\ (exists m,
         (next_match (found [(0, 0); (0, 2)] 1)).2 = Some (Some m)
         /\ Search.matches (next_match (found [(0, 0); (0, 2)] 1)).1
            = Search.matches (found [(0, 0); (0, 2)] 1)
         /\ 0 <= Search.current_match
                   (next_match (found [(0, 0); (0, 2)] 1)).1
              < len (Search.matches (found [(0, 0); (0, 2)] 1))
         /\ Search.matches (found [(0, 0); (0, 2)] 1)
              !! Z.to_nat (Search.current_match
                             (next_match (found [(0, 0); (0, 2)] 1)).1)
            = Some m)
  /\ (exists m,
         (previous_match (found [(0, 0); (0, 2)] 1)).2 = Some (Some m)
         /\ Search.matches (previous_match (found [(0, 0); (0, 2)] 1)).1
            = Search.matches (found [(0, 0); (0, 2)] 1)
         /\ 0 <= Search.current_match
                   (previous_match (found [(0, 0); (0, 2)] 1)).1
              < len (Search.matches (found [(0, 0); (0, 2)] 1))
         /\ Search.matches (found [(0, 0); (0, 2)] 1)
              !! Z.to_nat (Search.current_match
                             (previous_match (found [(0, 0); (0, 2)] 1)).1)
            = Some m).
Proof.
  assert (Hne : Search.matches (found [(0, 0); (0, 2)] 1) <> []) by done.
  split; [exact Hne|].
  exact (match_navigation_lands_on_a_match (found [(0, 0); (0, 2)] 1) Hne).
Defined.

Lemma match_navigation_round_trip_witness :
  Search.matches (found [(0, 0); (0, 2)] 1) <> []
  /\ 0 <= Search.current_match (found [(0, 0); (0, 2)] 1)
       < len (Search.matches (found [(0, 0); (0, 2)] 1))
  /\ (previous_match (next_match (found [(0, 0); (0, 2)] 1)).1).1
     = found [(0, 0); (0, 2)] 1
  /\ (next_match (previous_match (found [(0, 0); (0, 2)] 1)).1).1
     = found [(0, 0); (0, 2)] 1.
Proof.
  assert (Hne : Search.matches (found [(0, 0); (0, 2)] 1) <> []) by done.
  assert (Hc : 0 <= Search.current_match (found [(0, 0); (0, 2)] 1)
               < len (Search.matches (found [(0, 0); (0, 2)] 1)))
    by (vm_compute; split; [discriminate|reflexivity]).
  split; [exact Hne|]. split; [exact Hc|].
  exact (match_navigation_round_trip (found [(0, 0); (0, 2)] 1) Hne Hc).
Defined.

Lemma previous_match_from_fresh_witness :
  Search.current_match (found [(0, 0); (0, 2); (1, 4)] (-1)) = -1
  /\ 2 <= len (Search.matches (found [(0, 0); (0, 2); (1, 4)] (-1)))
  /\ Search.current_match
       (previous_match (found [(0, 0); (0, 2); (1, 4)] (-1))).1
     = len (Search.matches (found [(0, 0); (0, 2); (1, 4)] (-1))) - 2
  /\ Search.current_match
       (next_match (found [(0, 0); (0, 2); (1, 4)] (-1))).1
     = 0.
Proof.
  assert (Hlen : 2 <= len (Search.matches
                             (found [(0, 0); (0, 2); (1, 4)] (-1))))
    by (vm_compute; discriminate).
  split; [reflexivity|]. split; [exact Hlen|].
  exact (previous_match_from_fresh (found [(0, 0); (0, 2); (1, 4)] (-1))
           eq_refl Hlen).
Defined.

Lemma history_navigation_safe_witness :
  history_ok (add_all Search.new_SearchState [py "a"; py "b"])
  /\ (history_ok
        (Search.add_to_history
           (add_all Search.new_SearchState [py "a"; py "b"]) (py "foo"))
      /\ history_ok
           (Search.get_previous_search
              (add_all Search.new_SearchState [py "a"; py "b"])).1
      /\ history_ok
           (Search.get_next_search
              (add_all Search.new_SearchState [py "a"; py "b"])).1
      /\ (Search.get_previous_search
            (add_all Search.new_SearchState [py "a"; py "b"])).2 <> None
      /\ (Search.get_next_search
            (add_all Search.new_SearchState [py "a"; py "b"])).2 <> None)
  /\ Search.search_history
       (Search.add_to_history
          (add_all Search.new_SearchState [py "a"; py "b"]) (py "foo"))
     = [py "a"; py "b"; py "foo"]
  /\ Search.get_previous_search
       (add_all Search.new_SearchState [py "a"; py "b"])
     = (Search.set_history
          (add_all Search.new_SearchState [py "a"; py "b"]) (py "b")
          [py "a"; py "b"] 0,
        Some (Some (py "a")))
  /\ (Search.get_next_search
        (Search.get_previous_search
           (add_all Search.new_SearchState [py "a"; py "b"])).1).2
     = Some (Some (py "b")).
Proof.
  assert (Hok : history_ok (add_all Search.new_SearchState [py "a"; py "b"]))
    by (vm_compute; split; [discriminate|reflexivity]).
  split; [exact Hok|]. split.
  - exact (history_navigation_safe
             (add_all Search.new_SearchState [py "a"; py "b"]) (py "foo")
             Hok).
  - split; [reflexivity|]. split; reflexivity.
Defined.

Lemma history_previous_then_next_witness :
  history_ok (add_all Search.new_SearchState [py "a"; py "b"])
  /\ 0 < Search.history_index
           (add_all Search.new_SearchState [py "a"; py "b"])
  /\ exists older current,
       Search.search_history
         (add_all Search.new_SearchState [py "a"; py "b"])
         !! Z.to_nat (Search.history_index
                        (add_all Search.new_SearchState [py "a"; py "b"])
                      - 1)
       = Some older
       /\ Search.search_history
            (add_all Search.new_SearchState [py "a"; py "b"])
            !! Z.to_nat (Search.history_index
                           (add_all Search.new_SearchState
                              [py "a"; py "b"]))
          = Some current
       /\ (Search.get_previous_search
             (add_all Search.new_SearchState [py "a"; py "b"])).2
          = Some (Some older)
       /\ Search.get_next_search
            (Search.get_previous_search
               (add_all Search.new_SearchState [py "a"; py "b"])).1
          = (add_all Search.new_SearchState [py "a"; py "b"],
             Some (Some current)).
Proof.
  assert (Hok : history_ok (add_all Search.new_SearchState [py "a"; py "b"]))
    by (vm_compute; split; [discriminate|reflexivity]).
  assert (Hpos : 0 < Search.history_index
                       (add_all Search.new_SearchState [py "a"; py "b"]))
    by reflexivity.
  split; [exact Hok|]. split; [exact Hpos|].
  exact (history_previous_then_next
           (add_all Search.new_SearchState [py "a"; py "b"]) Hok Hpos).
Defined.

Lemma search_whole_word_witness :
  py "ab" <> []
  /\ search_text unit (fun _ _ => ReError) (fun _ _ => []) [py "ab abc (ab)"]
       (py "ab") 0 0 true true false false None None
     = Some (literal_matches true [py "ab abc (ab)"] (py "ab")
               (seq 0 (length [py "ab abc (ab)"]))).
Proof.
  split; [done|].
  exact (search_whole_word unit (fun _ _ => ReError) (fun _ _ => [])
           [py "ab abc (ab)"] (py "ab") 0 0 true None None ltac:(done)).
Defined.

Lemma search_in_selection_rows_witness :
  0 <= Z.min (0, 0).1 (1, 0).1
  /\ Z.max (0, 0).1 (1, 0).1 <= len [py "a"; py "a"]
  /\ exists inside everywhere,
       search_text unit (fun _ _ => ReError) (fun _ _ => []) [py "a"; py "a"]
         (py "a") 0 0 true false false true (Some (0, 0)) (Some (1, 0))
       = Some inside
       /\ search_text unit (fun _ _ => ReError) (fun _ _ => [])
            [py "a"; py "a"] (py "a") 0 0 true false false false
            (Some (0, 0)) (Some (1, 0))
          = Some everywhere
       /\ forall y x,
            In (y, x) inside
            <-> Z.min (0, 0).1 (1, 0).1 <= y < Z.max (0, 0).1 (1, 0).1
                /\ In (y, x) everywhere.
Proof.
  assert (Hlo : 0 <= Z.min (0, 0).1 (1, 0).1) by (vm_compute; discriminate).
  assert (Hhi : Z.max (0, 0).1 (1, 0).1 <= len [py "a"; py "a"])
    by (vm_compute; discriminate).
  split; [exact Hlo|]. split; [exact Hhi|].
  exact (search_in_selection_rows unit (fun _ _ => ReError) (fun _ _ => [])
           [py "a"; py "a"] (py "a") 0 0 true false (0, 0) (1, 0) Hlo Hhi).
Defined.

Lemma replace_without_match_witness :
  py "x" <> []
  /\ search_text unit (fun _ _ => ReError) (fun _ _ => []) [py "abc"; py "de"]
       (py "x") 0 0 true false false false None None
     = Some []
  /\ replace_text [py "abc"; py "de"] (py "x") (py "yy") true
     = [py "abc"; py "de"].
Proof.
  assert (Hs : search_text unit (fun _ _ => ReError) (fun _ _ => [])
                 [py "abc"; py "de"] (py "x") 0 0 true false false false
                 None None
               = Some []) by (vm_compute; reflexivity).
  split; [done|]. split; [exact Hs|].
  exact (replace_without_match unit (fun _ _ => ReError) (fun _ _ => [])
           [py "abc"; py "de"] (py "x") (py "yy") 0 0 None None
           ltac:(done) Hs).
Defined.

Lemma wrap_line_fits_width_witness :
  cache_consistent []
  /\ indent_of (py "  hello world foo") < 9
  /\ nonspace (py "  hello world foo") <> []
  /\ Forall (fun sub => len sub <= 9)
       (wrap_line [] (py "  hello world foo") 9).1.
Proof.
  assert (Hc : cache_consistent []) by constructor.
  assert (Hw : indent_of (py "  hello world foo") < 9) by reflexivity.
  assert (Hn : nonspace (py "  hello world foo") <> []) by done.
  split; [exact Hc|]. split; [exact Hw|]. split; [exact Hn|].
  exact (wrap_line_fits_width [] (py "  hello world foo") 9 Hc Hw Hn).
Defined.

Lemma wrap_cache_stays_bounded_witness :
  len (@nil ((pystr * Z) * list pystr)) <= WRAP_CACHE_SIZE
  /\ len (wrap_line [] (py "ab") 10).2 <= WRAP_CACHE_SIZE
  /\ len (build_display_lines [] [py "ab"; py "c"] 10).2 <= WRAP_CACHE_SIZE
  /\ forall r,
       get_display_line_index [] [py "ab"; py "c"] 1 10 = Some r ->
       len r.2 <= WRAP_CACHE_SIZE.
Proof.
  assert (H : len (@nil ((pystr * Z) * list pystr)) <= WRAP_CACHE_SIZE)
    by (vm_compute; discriminate).
  split; [exact H|].
  exact (wrap_cache_stays_bounded [] [py "ab"; py "c"] (py "ab") 1 10 H).
Defined.

Lemma display_index_points_at_row_witness :
  cache_consistent [] /\ cache_consistent []
  /\ 0 <= 1
  /\ [py "a"; py "b"] !! Z.to_nat 1 = Some (py "b")
  /\ let display_lines := (build_display_lines [] [py "a"; py "b"] 10).1 in
     exists d cache',
       get_display_line_index [] [py "a"; py "b"] 1 10 = Some (d, cache')
       /\ d = len (display_lines_of (take (Z.to_nat 1) [py "a"; py "b"]) 10)
       /\ 0 <= d < len display_lines
       /\ getitem display_lines d = head (wrap_compute (py "b") 10).
Proof.
  assert (Hc : cache_consistent []) by constructor.
  assert (Hy : 0 <= 1) by discriminate.
  split; [exact Hc|]. split; [exact Hc|]. split; [exact Hy|].
  split; [reflexivity|].
  exact (display_index_points_at_row [] [] [py "a"; py "b"] (py "b") 1 10
           Hc Hc Hy eq_refl).
Defined.

Lemma content_line_index_of_space_indented_witness :
  Forall space_indented [py "a"; py "b"]
  /\ get_content_line_index [py "a"; py "b"] 1
     = if 1 >=? len [py "a"; py "b"]
       then Some (len [py "a"; py "b"] - 1)
       else if - len [py "a"; py "b"] <=? 1 then Some 0
       else None.
Proof.
  assert (H : Forall space_indented [py "a"; py "b"])
    by (repeat constructor).
  split; [exact H|].
  exact (content_line_index_of_space_indented [py "a"; py "b"] 1 H).
Defined.

Lemma scroll_keeps_cursor_visible_witness :
  1 <= 12 - 2
  /\ 0 <= 25 < len (replicate 30 (py "x"))
  /\ exists scroll_y',
       adjust_scroll (replicate 30 (py "x")) 25 12 0 = Some scroll_y'
       /\ scroll_y' <= 25 < scroll_y' + (12 - 2)
       /\ scroll_y' <= Z.max 0 (len (replicate 30 (py "x")) - (12 - 2))
       /\ (0 <= 0 -> 0 <= scroll_y')
       /\ (0 <= 25 < 0 + (12 - 2) -> scroll_y' <= 0).
Proof.
  assert (Hh : 1 <= 12 - 2) by (vm_compute; discriminate).
  assert (Hd : 0 <= 25 < len (replicate 30 (py "x")))
    by (vm_compute; split; [discriminate|reflexivity]).
  split; [exact Hh|]. split; [exact Hd|].
  exact (scroll_keeps_cursor_visible (replicate 30 (py "x")) 25 12 0 Hh Hd).
Defined.

Lemma highlight_covers_line_witness :
  (forall r : unit,
      Forall (fun span => 0 <= span.1 <= span.2
                          /\ span.2 <= len (py "a if b"))
        [(2, 4)])
  /\ concat (map snd
               (highlight_syntax unit (fun _ _ => [(2, 4)])
                  (fun _ => Some [(py "keywords", tt)]) (fun _ _ => 6)
                  (py "a if b") (Some (py "python"))))
     = py "a if b".
Proof.
  assert (H : forall r : unit,
             Forall (fun span => 0 <= span.1 <= span.2
                                 /\ span.2 <= len (py "a if b"))
               [(2, 4)]).
  { intros r. repeat constructor; vm_compute; discriminate. }
  split; [exact H|].
  exact (highlight_covers_line unit (fun _ _ => [(2, 4)])
           (fun _ => Some [(py "keywords", tt)]) (fun _ _ => 6)
           (py "a if b") (Some (py "python")) H).
Defined.

Lemma load_after_save_witness :
  Forall one_line [py "ab"; []]
  /\ load_file (Some (save_file [py "ab"; []]))
     = match last [py "ab"; []] with
       | Some [] => [py "ab"; []] ++ [[]]
       | Some _ => [py "ab"; []]
       | None => [[]]
       end.
Proof.
  assert (H : Forall one_line [py "ab"; []]) by (repeat constructor).
  split; [exact H|].
  exact (load_after_save [py "ab"; []] H).
Defined.

Lemma find_word_boundary_forward_witness :
  0 <= 2 <= len (py "ab  cd e")
  /\ word_ahead (slice_from (py "ab  cd e") 2) (py "  ") (py "cd") (py " e")
  /\ find_word_boundary (py "ab  cd e") 2 true = Some 6.
Proof.
  assert (H : 0 <= 2 <= len (py "ab  cd e"))
    by (vm_compute; split; discriminate).
  assert (Hsplit : word_ahead (slice_from (py "ab  cd e") 2)
                     (py "  ") (py "cd") (py " e")).
  { split; [reflexivity|]. split; [by repeat constructor|].
    split; [reflexivity|]. split; [by repeat constructor|reflexivity]. }
  split; [exact H|]. split; [exact Hsplit|].
  destruct (find_word_boundary_forward (py "ab  cd e") 2 H)
    as (ws & word & rest & _ & Hone & Hres).
  destruct (Hone _ _ _ Hsplit) as (<- & <- & _). exact Hres.
Defined.

Lemma find_word_boundary_backward_witness :
  0 <= 6 <= len (py "ab  cd e")
  /\ word_behind (slice_to (py "ab  cd e") 6) (py "ab  ") (py "cd") []
  /\ 0 <= 4 <= len (py "ab  cd e")
  /\ word_behind (slice_to (py "ab  cd e") 4) [] (py "ab") (py "  ")
  /\ find_word_boundary (py "ab  cd e") 6 false = Some 4
  /\ find_word_boundary (py "ab  cd e") 4 false = Some 0.
Proof.
  assert (H : 0 <= 6 <= len (py "ab  cd e"))
    by (vm_compute; split; discriminate).
  assert (H' : 0 <= 4 <= len (py "ab  cd e"))
    by (vm_compute; split; discriminate).
  assert (Hsplit : word_behind (slice_to (py "ab  cd e") 6)
                     (py "ab  ") (py "cd") []).
  { split; [reflexivity|]. split; [constructor|].
    split; [reflexivity|]. split; [by repeat constructor|reflexivity]. }
  assert (Hsplit' : word_behind (slice_to (py "ab  cd e") 4)
                      [] (py "ab") (py "  ")).
  { split; [reflexivity|]. split; [by repeat constructor|].
    split; [reflexivity|]. split; [by repeat constructor|exact I]. }
  split; [exact H|]. split; [exact Hsplit|].
  split; [exact H'|]. split; [exact Hsplit'|]. split.
  - destruct (find_word_boundary_backward (py "ab  cd e") 6 H)
      as (rest & word & ws & _ & Hone & Hres).
    destruct (Hone _ _ _ Hsplit) as (_ & _ & <-). exact Hres.
  - destruct (find_word_boundary_backward (py "ab  cd e") 4 H')
      as (rest & word & ws & _ & Hone & Hres).
    destruct (Hone _ _ _ Hsplit') as (_ & _ & <-). exact Hres.
Defined.
